(** * pipeline2.0: download orchestrator and job lifecycle manager

  A shallow embedding of the parts of [lib/jobtracker.py], [Downloader.py]
  and [job.py] that carry the crash-safety, retry and admission rules of the
  pipeline, together with the properties checked against them.

  Layout:
  - [Py]         : outcomes of Python computations (normal return or a
                   raised exception) threaded through a state;
  - [Text]       : the few string operations the code relies on
                   ([str.lower], [str.strip], SQL [LIKE] on literal
                   patterns, [str.partition]);
  - [Jobtracker] : the three tables of the sqlite store and
                   [jobtracker.query];
  - [Downloader] : [DownloadModule.recover], the [restore] methods and the
                   [downloader] thread body;
  - [Job]        : [JobLog], [PulsarSearchJob] and [JobPool]. *)

From Stdlib Require Import Arith Lia Bool Ascii String List.
From stdpp Require Import base strings list gmap pretty.

Set Default Proof Using "Type".
Open Scope string_scope.
Open Scope nat_scope.

(* ===================================================================== *)
(** * Python outcomes *)
(* ===================================================================== *)

Module Py.

(** The exception classes the modelled code can raise. *)
Inductive exn : Type :=
| NameError (name : string)
| AttributeError (name : string)
| TypeError (msg : string)
| KeyError (key : string)
| IndexError
| ValueError (msg : string)
| NotImplementedError (msg : string)
| OSError (path : string).

Inductive outcome (A : Type) : Type :=
| Ok (a : A)
| Raise (e : exn).
Arguments Ok {A} a.
Arguments Raise {A} e.

(** A computation over a mutable world [S]: side effects performed before
    an exception is raised stay in the world. *)
Definition M (S A : Type) : Type := S -> outcome A * S.

Definition ret {S A} (a : A) : M S A := fun s => (Ok a, s).
Definition raise {S A} (e : exn) : M S A := fun s => (Raise e, s).
Definition bind {S A B} (c : M S A) (k : A -> M S B) : M S B :=
  fun s => match c s with
           | (Ok a, s') => k a s'
           | (Raise e, s') => (Raise e, s')
           end.
Definition get {S} : M S S := fun s => (Ok s, s).
Definition put {S} (s : S) : M S unit := fun _ => (Ok tt, s).
Definition modify {S} (f : S -> S) : M S unit := fun s => (Ok tt, f s).

(** [for x in xs: body x] *)
Fixpoint for_each {S A} (xs : list A) (body : A -> M S unit) : M S unit :=
  match xs with
  | [] => ret tt
  | x :: xs' => bind (body x) (fun _ => for_each xs' body)
  end.

Definition is_ok {A} (o : outcome A) : bool :=
  match o with Ok _ => true | Raise _ => false end.

End Py.

Import Py.

Notation "x <- c ;; k" := (Py.bind c (fun x => k))
(at level 100, c at next level, right associativity).
Notation "c ;;; k" := (Py.bind c (fun _ => k))
(at level 100, right associativity).

(* ===================================================================== *)
(** * Text helpers *)
(* ===================================================================== *)

Module Text.

(** ASCII case folding, as done by [str.lower] (C locale) and by sqlite's
    [LIKE]. *)
Definition ascii_lower (c : ascii) : ascii :=
  let n := nat_of_ascii c in
  if (65 <=? n) && (n <=? 90) then ascii_of_nat (n + 32) else c.

Fixpoint lower (s : string) : string :=
  match s with
  | EmptyString => EmptyString
  | String c s' => String (ascii_lower c) (lower s')
  end.

(** [x LIKE pat] for a pattern without [%] or [_]: equality up to ASCII
    case.  Every pattern in the code is such a literal word. *)
Definition like (x pat : string) : bool := String.eqb (lower x) (lower pat).

(** The characters [str.strip] removes. *)
Definition is_space (c : ascii) : bool :=
  let n := nat_of_ascii c in
  (n =? 32) || ((9 <=? n) && (n <=? 13)).

(** [bool(line.strip())]: some character is not white space. *)
Fixpoint strip_nonempty (s : string) : bool :=
  match s with
  | EmptyString => false
  | String c s' => negb (is_space c) || strip_nonempty s'
  end.

(** [line.partition(sep)[0]] for the one-character separator [sep]. *)
Fixpoint partition_head (sep : ascii) (s : string) : string :=
  match s with
  | EmptyString => EmptyString
  | String c s' =>
      if Ascii.eqb c sep then EmptyString else String c (partition_head sep s')
  end.

(** [s.replace(c, empty)] for a one-character [c]. *)
Fixpoint remove_char (c : ascii) (s : string) : string :=
  match s with
  | EmptyString => EmptyString
  | String x s' =>
      if Ascii.eqb x c then remove_char c s' else String x (remove_char c s')
  end.

Definition quote : ascii := ascii_of_nat 39.
Definition dquote : ascii := ascii_of_nat 34.

(** The two [replace] calls applied to [details] before it is spliced
    into a statement: single and double quotes are dropped. *)
Definition strip_quotes (s : string) : string :=
  remove_char dquote (remove_char quote s).

End Text.

(* ===================================================================== *)
(** * lib/jobtracker.py *)
(* ===================================================================== *)

Module Jobtracker.

(** ** The tables written by the download orchestrator *)

Record request_row : Type := mk_request {
  rq_id : nat;
  rq_guid : string;
  rq_status : string;
  rq_size : option nat;
  rq_details : string;
  rq_created_at : string;
  rq_updated_at : string
}.

Record download_row : Type := mk_download {
  dl_id : nat;
  dl_request_id : nat;
  dl_remote_filename : string;
  dl_filename : string;
  dl_status : string;
  dl_details : option string;
  dl_size : nat;
  dl_created_at : string;
  dl_updated_at : string
}.

Record attempt_row : Type := mk_attempt {
  at_id : nat;
  at_download_id : nat;
  at_status : option string;
  at_details : option string;
  at_created_at : string;
  at_updated_at : string
}.

Record db : Type := mk_db {
  requests : list request_row;
  downloads : list download_row;
  download_attempts : list attempt_row
}.

Inductive row : Type :=
| RRequest (r : request_row)
| RDownload (d : download_row)
| RAttempt (a : attempt_row).

(** ** Statements

    The statements the orchestrator issues, with their [WHERE] clause as a
    predicate and their [SET] clause as a row transformer.  An [INSERT]
    leaves the row id to the store. *)
Inductive stmt : Type :=
| SELECT_requests (where_ : request_row -> bool)
| SELECT_downloads (where_ : download_row -> bool)
| SELECT_download_attempts (where_ : attempt_row -> bool)
| UPDATE_requests (set_ : request_row -> request_row) (where_ : request_row -> bool)
| UPDATE_downloads (set_ : download_row -> download_row) (where_ : download_row -> bool)
| UPDATE_download_attempts (set_ : attempt_row -> attempt_row) (where_ : attempt_row -> bool)
| INSERT_requests (values_ : nat -> request_row)
| INSERT_downloads (values_ : nat -> download_row)
| INSERT_download_attempts (values_ : nat -> attempt_row).

(** Row ids are handed out above every id in use; they start at 1. *)
Definition fresh_id (ids : list nat) : nat := S (list_max ids).

Definition update {A} (set_ : A -> A) (where_ : A -> bool) (l : list A) : list A :=
  map (fun r => if where_ r then set_ r else r) l.

(** An open connection with its cursor: the transaction's working copy of
    the data, the cursor's [lastrowid] and the rows the cursor holds.  The
    module is Python 2, where [lastrowid] is the row id after an INSERT and
    [None] after any other statement; 0 stands for [None]. *)
Record connection : Type := mk_conn {
  c_db : db;
  c_lastrowid : nat;
  c_rows : list row
}.

Definition connect (d : db) : connection :=
  {| c_db := d; c_lastrowid := 0; c_rows := [] |}.

Definition execute (q : stmt) (c : connection) : connection :=
  let d := c_db c in
  match q with
  | SELECT_requests w =>
      {| c_db := d; c_lastrowid := 0;
         c_rows := map RRequest (List.filter w (requests d)) |}
  | SELECT_downloads w =>
      {| c_db := d; c_lastrowid := 0;
         c_rows := map RDownload (List.filter w (downloads d)) |}
  | SELECT_download_attempts w =>
      {| c_db := d; c_lastrowid := 0;
         c_rows := map RAttempt (List.filter w (download_attempts d)) |}
  | UPDATE_requests f w =>
      {| c_db := {| requests := update f w (requests d);
                    downloads := downloads d;
                    download_attempts := download_attempts d |};
         c_lastrowid := 0; c_rows := [] |}
  | UPDATE_downloads f w =>
      {| c_db := {| requests := requests d;
                    downloads := update f w (downloads d);
                    download_attempts := download_attempts d |};
         c_lastrowid := 0; c_rows := [] |}
  | UPDATE_download_attempts f w =>
      {| c_db := {| requests := requests d;
                    downloads := downloads d;
                    download_attempts := update f w (download_attempts d) |};
         c_lastrowid := 0; c_rows := [] |}
  | INSERT_requests v =>
      let i := fresh_id (map rq_id (requests d)) in
      {| c_db := {| requests := requests d ++ [v i];
                    downloads := downloads d;
                    download_attempts := download_attempts d |};
         c_lastrowid := i; c_rows := [] |}
  | INSERT_downloads v =>
      let i := fresh_id (map dl_id (downloads d)) in
      {| c_db := {| requests := requests d;
                    downloads := downloads d ++ [v i];
                    download_attempts := download_attempts d |};
         c_lastrowid := i; c_rows := [] |}
  | INSERT_download_attempts v =>
      let i := fresh_id (map at_id (download_attempts d)) in
      {| c_db := {| requests := requests d;
                    downloads := downloads d;
                    download_attempts := download_attempts d ++ [v i] |};
         c_lastrowid := i; c_rows := [] |}
  end.

(** [for q in queries: db_cur.execute(q)] *)
Definition run_batch (queries : list stmt) (d : db) : connection :=
  fold_left (fun c q => execute q c) queries (connect d).

(** What [query] hands back. *)
Inductive qresult : Type :=
| LastRowId (i : nat)
| FetchOne (r : option row)
| FetchAll (rs : list row).

(** [[
      if db_cur.lastrowid: results = db_cur.lastrowid
      else: results = db_cur.fetchone() if fetchone else db_cur.fetchall()
    ]] *)
Definition results_of (fetchone : bool) (c : connection) : qresult :=
  if negb (c_lastrowid c =? 0) then LastRowId (c_lastrowid c)
  else if fetchone then FetchOne (head (c_rows c))
  else FetchAll (c_rows c).

(** ** The retry loop of [query]

    The process-visible state around one call: the committed data, the
    seconds spent in [time.sleep] and the lines printed. *)
Record store : Type := mk_store {
  durable : db;
  slept : nat;
  printed : list string
}.

(** A [sqlite3.OperationalError] (database locked) raised inside one pass
    of the [try] block: [fault_at] statements of the batch had run when it
    was raised (the commit itself fails when [fault_at] is the batch
    length), [fault_msg] is [str(e)]. *)
Record fault : Type := mk_fault { fault_at : nat; fault_msg : string }.

Definition minute_warning (e : fault) : string :=
  "Couldn't connect to DB for 1 minute. Will continue trying. Error message: "
    ++ fault_msg e.

(** One pass through the [try] block.  The transaction's working copy is
    [run_batch] of the statements that ran; it reaches [durable] only
    through [commit], and [rollback] drops it. *)
Definition transaction (queries : list stmt) (f : option fault) (d : db)
  : db * option connection :=
  match f with
  | None => let c := run_batch queries d in (c_db c, Some c)
  | Some e =>
      let working := run_batch (take (fault_at e) queries) d in
      let rolled_back := d in
      (rolled_back, None)
  end.

(** [faults t] is what happens in pass number [t] of the loop; the loop has
    no exit but success, so the model takes fuel. *)
Fixpoint query_loop (fuel : nat) (faults : nat -> option fault)
    (pass count : nat) (queries : list stmt) (fetchone : bool) (s : store)
  : option (qresult * store) :=
  match fuel with
  | 0 => None
  | S fuel' =>
      match transaction queries (faults pass) (durable s) with
      | (d', Some c) =>
          Some (results_of fetchone c,
                {| durable := d'; slept := slept s; printed := printed s |})
      | (d', None) =>
          let e := default (mk_fault 0 EmptyString) (faults pass) in
          let warn := 59 <? count in
          let count1 := if warn then 0 else count in
          query_loop fuel' faults (S pass) (S count1) queries fetchone
            {| durable := d';
               slept := slept s + 1;
               printed := if warn then printed s ++ [minute_warning e]
                          else printed s |}
      end
  end.

Definition query (fuel : nat) (faults : nat -> option fault)
    (queries : list stmt) (fetchone : bool) (s : store)
  : option (qresult * store) :=
  query_loop fuel faults 0 0 queries fetchone s.

(** The number of warnings printed over [n] consecutive failures, starting
    with the counter at [count]. *)
Fixpoint warnings_after (count n : nat) : nat :=
  match n with
  | 0 => 0
  | S n' => if 59 <? count then S (warnings_after 1 n')
            else warnings_after (S count) n'
  end.

(** ** What a returning call does

    [query] returns only out of a committed pass; seen from the caller it
    is then one batch on the data. *)
Definition committed (queries : list stmt) (fetchone : bool) : M db qresult :=
  fun d => let c := run_batch queries d in (Ok (results_of fetchone c), c_db c).

(** [jobtracker.query(q)] with a single statement string. *)
Definition query1 (q : stmt) : M db qresult := committed [q] false.

Definition request_rows (r : qresult) : list request_row :=
  match r with
  | FetchAll rs =>
      omap (fun x => match x with RRequest r => Some r | _ => None end) rs
  | _ => []
  end.

Definition download_rows (r : qresult) : list download_row :=
  match r with
  | FetchAll rs =>
      omap (fun x => match x with RDownload r => Some r | _ => None end) rs
  | _ => []
  end.

Definition attempt_rows (r : qresult) : list attempt_row :=
  match r with
  | FetchAll rs =>
      omap (fun x => match x with RAttempt r => Some r | _ => None end) rs
  | _ => []
  end.

Definition rowid (r : qresult) : nat :=
  match r with LastRowId i => i | _ => 0 end.

Definition is_insert (q : stmt) : bool :=
  match q with
  | INSERT_requests _ | INSERT_downloads _ | INSERT_download_attempts _ => true
  | _ => false
  end.

End Jobtracker.

(* ===================================================================== *)
(** * The statements, as SQL and the cursor define them *)
(* ===================================================================== *)

Module JobtrackerSpec.
Import Jobtracker.

(** What a fetch hands back from the rows the cursor holds. *)
Definition fetched (fetchone : bool) (rows : list row) : qresult :=
  if fetchone then FetchOne (head rows) else FetchAll rows.

(** One statement, run on the data [before]: the data [after] it and what
    a call that ends with it returns.  A SELECT changes nothing and gives
    the rows its WHERE clause picks; an UPDATE rewrites the rows its WHERE
    clause picks, leaves the others and gives no row; an INSERT appends one
    row under the next free id and gives that id. *)
Definition statement_effect (q : stmt) (fetchone : bool) (before after : db)
    (result : qresult) : Prop :=
  match q with
  | SELECT_requests w =>
      after = before
      /\ result = fetched fetchone (map RRequest (List.filter w (requests before)))
  | SELECT_downloads w =>
      after = before
      /\ result = fetched fetchone (map RDownload (List.filter w (downloads before)))
  | SELECT_download_attempts w =>
      after = before
      /\ result = fetched fetchone
                    (map RAttempt (List.filter w (download_attempts before)))
  | UPDATE_requests f w =>
      after = {| requests := map (fun r => if w r then f r else r) (requests before);
                 downloads := downloads before;
                 download_attempts := download_attempts before |}
      /\ result = fetched fetchone []
  | UPDATE_downloads f w =>
      after = {| requests := requests before;
                 downloads := map (fun r => if w r then f r else r) (downloads before);
                 download_attempts := download_attempts before |}
      /\ result = fetched fetchone []
  | UPDATE_download_attempts f w =>
      after = {| requests := requests before;
                 downloads := downloads before;
                 download_attempts :=
                   map (fun r => if w r then f r else r) (download_attempts before) |}
      /\ result = fetched fetchone []
  | INSERT_requests v =>
      let i := S (list_max (map rq_id (requests before))) in
      after = {| requests := (requests before ++ [v i])%list;
                 downloads := downloads before;
                 download_attempts := download_attempts before |}
      /\ result = LastRowId i
  | INSERT_downloads v =>
      let i := S (list_max (map dl_id (downloads before))) in
      after = {| requests := requests before;
                 downloads := (downloads before ++ [v i])%list;
                 download_attempts := download_attempts before |}
      /\ result = LastRowId i
  | INSERT_download_attempts v =>
      let i := S (list_max (map at_id (download_attempts before))) in
      after = {| requests := requests before;
                 downloads := downloads before;
                 download_attempts := (download_attempts before ++ [v i])%list |}
      /\ result = LastRowId i
  end.

End JobtrackerSpec.

(* ===================================================================== *)
(** * Downloader.py *)
(* ===================================================================== *)

Module Downloader.
Import Text Jobtracker.

(** ** Typed views of [jobtracker.query] on one statement *)

Definition select_requests (w : request_row -> bool) : M db (list request_row) :=
  r <- query1 (SELECT_requests w) ;; ret (request_rows r).

Definition select_downloads (w : download_row -> bool) : M db (list download_row) :=
  r <- query1 (SELECT_downloads w) ;; ret (download_rows r).

Definition select_download_attempts (w : attempt_row -> bool) : M db (list attempt_row) :=
  r <- query1 (SELECT_download_attempts w) ;; ret (attempt_rows r).

Definition update_requests (f : request_row -> request_row) (w : request_row -> bool)
  : M db unit :=
  query1 (UPDATE_requests f w) ;;; ret tt.

Definition update_downloads (f : download_row -> download_row) (w : download_row -> bool)
  : M db unit :=
  query1 (UPDATE_downloads f w) ;;; ret tt.

Definition update_download_attempts (f : attempt_row -> attempt_row)
    (w : attempt_row -> bool) : M db unit :=
  query1 (UPDATE_download_attempts f w) ;;; ret tt.

Definition insert_download (v : nat -> download_row) : M db nat :=
  r <- query1 (INSERT_downloads v) ;; ret (rowid r).

Definition insert_download_attempt (v : nat -> attempt_row) : M db nat :=
  r <- query1 (INSERT_download_attempts v) ;; ret (rowid r).

(** The [SET] clauses. *)
Definition set_request_finished (now : string) (r : request_row) : request_row :=
  {| rq_id := rq_id r; rq_guid := rq_guid r; rq_status := "finished";
     rq_size := rq_size r; rq_details := rq_details r;
     rq_created_at := rq_created_at r; rq_updated_at := now |}.

Definition set_download (status details now : string) (d : download_row)
  : download_row :=
  {| dl_id := dl_id d; dl_request_id := dl_request_id d;
     dl_remote_filename := dl_remote_filename d; dl_filename := dl_filename d;
     dl_status := status; dl_details := Some details; dl_size := dl_size d;
     dl_created_at := dl_created_at d; dl_updated_at := now |}.

Definition set_attempt (status details now : string) (a : attempt_row)
  : attempt_row :=
  {| at_id := at_id a; at_download_id := at_download_id a;
     at_status := Some status; at_details := Some details;
     at_created_at := at_created_at a; at_updated_at := now |}.

(** [os.path.join(a, b)] *)
Definition ends_with_slash (a : string) : bool :=
  match String.get (String.length a - 1) a with
  | Some c => Ascii.eqb c "/"%char
  | None => false
  end.

Definition path_join (a b : string) : string :=
  if String.prefix "/" b then b
  else if (String.length a =? 0) || ends_with_slash a then (a ++ b)%string
  else (a ++ "/" ++ b)%string.

(** ** Objects *)

(** A [downloader] thread object as the orchestrator holds it. *)
Record downloader : Type := mk_downloader {
  restore_dir : string;
  file_name : string;
  attempt_id : nat
}.

(** What polling a thread object shows: [is_alive()], [.status] and
    [.details] at that moment. *)
Record thread_view : Type := mk_view {
  alive : bool;
  w_status : string;
  w_details : string
}.

Record restore : Type := mk_restore {
  values : option request_row;       (* a row, or nothing usable *)
  num_beams : nat;
  downloaders : gmap string downloader;
  files : gmap string nat;
  size : nat;
  guid : option string               (* [None] is [False] *)
}.

Record DownloadModule : Type := mk_module {
  restores : list restore
}.

Definition dict_is_empty {V} (m : gmap string V) : bool :=
  match map_to_list m with [] => true | _ => false end.

Definition dict_has {V} (k : string) (m : gmap string V) : bool :=
  match m !! k with Some _ => true | None => false end.

Definition with_downloaders (self : restore) (dls : gmap string downloader)
  : restore :=
  {| values := values self; num_beams := num_beams self; downloaders := dls;
     files := files self; size := size self; guid := guid self |}.

Definition with_values (self : restore) (v : option request_row) : restore :=
  {| values := v; num_beams := num_beams self;
     downloaders := downloaders self; files := files self;
     size := size self; guid := guid self |}.

(** [self.values['id']] *)
Definition values_id (self : restore) : M db nat :=
  match values self with
  | Some r => ret (rq_id r)
  | None => raise (TypeError "values is not a row")
  end.

Section Orchestrator.

(** [config.download.numretries] and [config.download.temp] *)
Variable numretries : nat.
Variable temp : string.

(** The clock behind [jobtracker.nowstr()], the threads as polled and the
    staging directory as [os.path.exists] / [os.path.getsize] see it. *)
Variable now : string.
Variable poll : downloader -> thread_view.
Variable stat : string -> option nat.

(** *** restore.get_by_guid, restore.update_from_db, restore.__init__ *)

Definition get_by_guid (g : string) : M db (option request_row) :=
  result <- select_requests (fun r => String.eqb (rq_guid r) g) ;;
  ret (head result).

Definition update_from_db (self : restore) : M db restore :=
  match guid self with
  | Some g => v <- get_by_guid g ;; ret (with_values self v)
  | None => v <- get_by_guid "False" ;; ret (with_values self v)
  end.

(** The web-service client built by the constructor is left out. *)
Definition restore_init (num_beams_ : nat) (guid_ : option string) : M db restore :=
  let self := {| values := None; num_beams := num_beams_; downloaders := ∅;
                 files := ∅; size := 0; guid := guid_ |} in
  match guid_ with
  | Some g => if String.length g =? 0 then ret self else update_from_db self
  | None => ret self
  end.

(** *** DownloadModule.recover *)




(** *** restore.is_finished *)

(** The loop over [failed_downloads]; [true] when it leaves through its
    [return False]. *)
Fixpoint failed_loop_returns (failed_downloads : list download_row) : M db bool :=
  match failed_downloads with
  | [] => ret false
  | failed_download :: rest =>
      attempts <- select_download_attempts
                    (fun a => at_download_id a =? dl_id failed_download) ;;
      let number_of_attempts := length attempts in
      if numretries <? number_of_attempts then ret true
      else failed_loop_returns rest
  end.

Definition is_finished (self : restore) : M db bool :=
  id <- values_id self ;;
  all_downloads <- select_downloads (fun d => dl_request_id d =? id) ;;
  finished_downloads <- select_downloads
    (fun d => (dl_request_id d =? id) && like (dl_status d) "downloaded") ;;
  failed_downloads <- select_downloads
    (fun d => (dl_request_id d =? id) && like (dl_status d) "failed") ;;
  downloading <- select_downloads
    (fun d => (dl_request_id d =? id) && like (dl_status d) "downloading") ;;
  if 0 <? length downloading then ret false
  else if (length all_downloads =? 0) && dict_is_empty (downloaders self)
  then ret false
  else if length all_downloads =? length finished_downloads then
    update_requests (set_request_finished now) (fun r => rq_id r =? id) ;;;
    ret true
  else
    stop <- failed_loop_returns failed_downloads ;;
    if stop then ret false
    else
      update_requests (set_request_finished now) (fun r => rq_id r =? id) ;;;
      ret true.

(** *** restore.create_dl_entries

    The items of [files] are taken in the order of the keys; the order in
    which a Python dictionary hands them out is its own, and
    [DownloaderMore.create_dl_entries_over] takes it as an argument. *)

Definition create_dl_entries (self : restore) : M db unit :=
  for_each (map_to_list (files self)) (fun '(filename, filesize) =>
    id <- values_id self ;;
    dl_check <- select_downloads
      (fun d => (dl_request_id d =? id) && String.eqb (dl_filename d) filename) ;;
    if length dl_check =? 0 then
      insert_download (fun i =>
        {| dl_id := i; dl_request_id := id; dl_remote_filename := filename;
           dl_filename := path_join temp filename; dl_status := "New";
           dl_details := None; dl_size := filesize;
           dl_created_at := now; dl_updated_at := now |}) ;;; ret tt
    else ret tt).

(** *** restore.downloaded_size_match *)

Definition downloaded_size_match (attempt_id_ : nat) : M db bool :=
  attempts <- select_download_attempts (fun a => at_id a =? attempt_id_) ;;
  match attempts with
  | [] => raise IndexError
  | attempt_row_ :: _ =>
      dls <- select_downloads (fun d => dl_id d =? at_download_id attempt_row_) ;;
      match dls with
      | [] => raise IndexError
      | download_ :: _ =>
          match stat (dl_filename download_) with
          | Some on_disk => ret (on_disk =? dl_size download_)
          | None => ret false
          end
      end
  end.

(** *** restore.download *)

(** First loop: one new attempt row and thread for every entry that has no
    thread and is below the retry ceiling. *)
Fixpoint start_downloaders (guid_ : string) (dl_entries : list download_row)
    (dls : gmap string downloader) : M db (gmap string downloader) :=
  match dl_entries with
  | [] => ret dls
  | dl_entry :: rest =>
      attempts <- select_download_attempts
                    (fun a => at_download_id a =? dl_id dl_entry) ;;
      let this_download_attempts_count := length attempts in
      if negb (dict_has (dl_remote_filename dl_entry) dls) then
        if this_download_attempts_count <? numretries then
          id <- insert_download_attempt (fun i =>
                  {| at_id := i; at_download_id := dl_id dl_entry;
                     at_status := None; at_details := None;
                     at_created_at := now; at_updated_at := now |}) ;;
          start_downloaders guid_ rest
            (<[dl_remote_filename dl_entry :=
                 mk_downloader guid_ (dl_remote_filename dl_entry) id]> dls)
        else start_downloaders guid_ rest dls
      else start_downloaders guid_ rest dls
  end.

Definition record_outcome (status : string) (w : downloader) (filename : string)
  : M db unit :=
  let details := strip_quotes (w_details (poll w)) in
  update_download_attempts (set_attempt status details now)
    (fun a => at_id a =? attempt_id w) ;;;
  update_downloads (set_download status details now)
    (fun d => String.eqb (dl_remote_filename d) filename).

(** Body of the second loop for one key of [self.downloaders]. *)
Definition reconcile (filename : string) (dls : gmap string downloader)
  : M db (gmap string downloader) :=
  match dls !! filename with
  | None => raise (KeyError filename)
  | Some w =>
      if negb (alive (poll w)) then
        (if String.eqb (w_status (poll w)) "failed" then
           record_outcome "failed" w filename
         else if String.eqb (w_status (poll w)) "downloaded" then
           matches <- downloaded_size_match (attempt_id w) ;;
           if matches then record_outcome "downloaded" w filename
           else record_outcome "failed" w filename
         else ret tt) ;;;
        ret (delete filename dls)
      else
        record_outcome "downloading" w filename ;;; ret dls
  end.

Fixpoint reconcile_loop (keys : list string) (dls : gmap string downloader)
  : M db (gmap string downloader) :=
  match keys with
  | [] => ret dls
  | filename :: rest =>
      dls' <- reconcile filename dls ;; reconcile_loop rest dls'
  end.

Definition download (self : restore) : M db restore :=
  id <- values_id self ;;
  dl_entries <- select_downloads (fun d => dl_request_id d =? id) ;;
  (if dict_is_empty (downloaders self) then
     match dl_entries with
     | [] => create_dl_entries self
     | _ => ret tt
     end
   else ret tt) ;;;
  id <- values_id self ;;
  dl_entries <- select_downloads
    (fun d => (dl_request_id d =? id) && negb (like (dl_status d) "downloaded")) ;;
  dls <- start_downloaders (default "False" (guid self)) dl_entries
           (downloaders self) ;;
  dls' <- reconcile_loop (map fst (map_to_list dls)) dls ;;
  ret (with_downloaders self dls').

End Orchestrator.

(** ** The [downloader] thread *)

(** What a call into the FTP library or the file system does. *)
Inductive reply (A : Type) : Type :=
| Returns (a : A)
| Throws (msg : string).
Arguments Returns {A} a.
Arguments Throws {A} msg.

(** One pass through the body of the [while not_logged_in] loop:
    [FTP_TLS()], [connect], [auth_tls] and [set_pasv] taken together, then
    [login], then [cwd]. *)
Record ftp_pass : Type := mk_pass {
  p_connect : reply unit;
  p_login : reply string;
  p_cwd : reply string
}.

(** The rest of [run]: opening the local file, [size], [TYPE I], the blocks
    [retrbinary] hands to [self.write] (by length) and how it ends, the
    text [prntime] makes of the elapsed wall-clock time, and what closing
    the local file and the connection does in [finished]: at the end of the
    [try] block and, where it comes to that, in the handler. *)
Record ftp_transfer : Type := mk_transfer {
  t_open : reply unit;
  t_size : reply nat;
  t_type_i : reply unit;
  t_blocks : list nat;
  t_retr : reply string;
  t_elapsed : string;
  t_close : reply unit;
  t_close_again : reply unit
}.

Inductive ftp_cmd : Type :=
| CONNECT
| LOGIN
| CWD (dir : string)
| SIZE (f : string)
| TYPE_I
| RETR (f : string).

Record thread : Type := mk_thread {
  th_restore_dir : string;
  th_file_name : string;
  th_status : string;
  th_details : string;
  th_download : bool;
  th_file_size : nat;
  th_total_size_got : nat;
  th_slept : nat;               (* seconds in [time.sleep] *)
  th_sent : list ftp_cmd        (* commands put on the wire, oldest first *)
}.

(** [downloader.__init__] *)
Definition thread_init (restore_dir_ filename : string) : thread :=
  {| th_restore_dir := restore_dir_; th_file_name := filename;
     th_status := EmptyString; th_details := EmptyString; th_download := false;
     th_file_size := 0; th_total_size_got := 0; th_slept := 0; th_sent := [] |}.

Definition set_status (status details : string) (self : thread) : thread :=
  {| th_restore_dir := th_restore_dir self; th_file_name := th_file_name self;
     th_status := status; th_details := details;
     th_download := th_download self; th_file_size := th_file_size self;
     th_total_size_got := th_total_size_got self; th_slept := th_slept self;
     th_sent := th_sent self |}.

Definition set_status_only (status : string) (self : thread) : thread :=
  set_status status (th_details self) self.

Definition set_download_flag (self : thread) : thread :=
  {| th_restore_dir := th_restore_dir self; th_file_name := th_file_name self;
     th_status := th_status self; th_details := th_details self;
     th_download := true; th_file_size := th_file_size self;
     th_total_size_got := th_total_size_got self; th_slept := th_slept self;
     th_sent := th_sent self |}.

Definition set_file_size (n : nat) (self : thread) : thread :=
  {| th_restore_dir := th_restore_dir self; th_file_name := th_file_name self;
     th_status := th_status self; th_details := th_details self;
     th_download := th_download self; th_file_size := n;
     th_total_size_got := th_total_size_got self; th_slept := th_slept self;
     th_sent := th_sent self |}.

Definition send (c : ftp_cmd) (self : thread) : thread :=
  {| th_restore_dir := th_restore_dir self; th_file_name := th_file_name self;
     th_status := th_status self; th_details := th_details self;
     th_download := th_download self; th_file_size := th_file_size self;
     th_total_size_got := th_total_size_got self; th_slept := th_slept self;
     th_sent := th_sent self ++ [c] |}.

(** [time.sleep(1)] in the [except] branch of the login loop. *)
Definition sleep_1 (self : thread) : thread :=
  {| th_restore_dir := th_restore_dir self; th_file_name := th_file_name self;
     th_status := th_status self; th_details := th_details self;
     th_download := th_download self; th_file_size := th_file_size self;
     th_total_size_got := th_total_size_got self; th_slept := th_slept self + 1;
     th_sent := th_sent self |}.

Section Thread.

(** The progress text [write] builds from the byte counts and the clock. *)
Variable progress : nat -> nat -> string.

(** [downloader.write(block)] for a block of [len] bytes. *)
Definition write (len : nat) (self : thread) : thread :=
  let got := th_total_size_got self + len in
  {| th_restore_dir := th_restore_dir self; th_file_name := th_file_name self;
     th_status := "downloading";
     th_details := progress got (th_file_size self);
     th_download := th_download self; th_file_size := th_file_size self;
     th_total_size_got := got; th_slept := th_slept self;
     th_sent := th_sent self |}.

(** [downloader.finished(status, message)]: status and details are set,
    then the local file and the connection are closed.  [closing] is what
    the two [close] calls do; where one raises, the method is left with the
    fields as set.  The line it first sends to the log stream is left out,
    as the log stream is throughout. *)
Definition finished (closing : reply unit) (status message : string)
    (self : thread) : thread * reply unit :=
  (set_status status message self, closing).

(** The [while not_logged_in] loop; [passes i] is what the server does in
    pass [i].  Any exception is answered by a one-second sleep and another
    pass, so the model takes fuel. *)
Fixpoint login_loop (fuel : nat) (passes : nat -> ftp_pass) (i : nat)
    (self : thread) : option thread :=
  match fuel with
  | 0 => None
  | S fuel' =>
      let p := passes i in
      let self := send CONNECT self in
      match p_connect p with
      | Throws _ => login_loop fuel' passes (S i) (sleep_1 self)
      | Returns _ =>
          let self := send LOGIN self in
          match p_login p with
          | Throws _ => login_loop fuel' passes (S i) (sleep_1 self)
          | Returns login_response =>
              let self :=
                if negb (String.eqb login_response "230 User logged in.") then
                  set_status "failed"
                    ("Login failed " ++ th_file_name self)%string self
                else self in
              let self := set_download_flag self in
              let self := send (CWD (th_restore_dir self)) self in
              match p_cwd p with
              | Throws _ => login_loop fuel' passes (S i) (sleep_1 self)
              | Returns cwd_response =>
                  let self :=
                    if negb (String.eqb cwd_response
                               "250 CWD command successful.") then
                      set_status "failed"
                        ("Directory change failed " ++ th_file_name self)%string
                        self
                    else self in
                  Some self
              end
          end
      end
  end.

Definition failure_text (msg : string) : string :=
  ("Failed: in Downloader.run() " ++ msg)%string.

(** The handler of the second [try] block.  An exception that leaves
    [finished] here leaves [run]: the thread ends as the fields stand. *)
Definition transfer_failed (t : ftp_transfer) (e : string) (self : thread)
  : thread :=
  fst (finished (t_close_again t) "failed" (failure_text e) self).

(** The second [try] block of [run] with its handler. *)
Definition transfer (t : ftp_transfer) (self : thread) : thread :=
  let self := send (SIZE (th_file_name self)) self in
  match t_size t with
  | Throws e => transfer_failed t e self
  | Returns n =>
      let self := set_file_size n self in
      if n =? 0 then transfer_failed t "File size 0" self
      else
        let self := send TYPE_I self in
        match t_type_i t with
        | Throws e => transfer_failed t e self
        | Returns _ =>
            let self := send (RETR (th_file_name self)) self in
            let self := fold_left (fun s len => write len s) (t_blocks t) self in
            match t_retr t with
            | Throws e => transfer_failed t e self
            | Returns _ =>
                match finished (t_close t) "downloaded"
                        (pretty (th_total_size_got self)
                           ++ " bytes -- Completed in: " ++ t_elapsed t)%string
                        self with
                | (self, Returns _) => self
                | (self, Throws e) => transfer_failed t e self
                end
            end
        end
  end.

(** [downloader.run] *)
Definition run (fuel : nat) (passes : nat -> ftp_pass) (t : ftp_transfer)
    (self : thread) : option thread :=
  match login_loop fuel passes 0 self with
  | None => None
  | Some self =>
      let self :=
        match t_open t with
        | Returns _ => set_status_only "New" self
        | Throws e => set_status "failed" e self
        end in
      if String.eqb (th_status self) "failed" then Some self
      else Some (transfer t self)
  end.

End Thread.

End Downloader.

(* ===================================================================== *)
(** * job.py *)
(* ===================================================================== *)

Module Job.
Import Text.

(** ** LogEntry and the log line format *)

Record LogEntry : Type := mk_entry {
  date : string;
  status : string;
  host : string;
  info : string
}.

Definition sep : string := " -- ".

(** [LogEntry.__str__] *)
Definition entry_str (e : LogEntry) : string :=
  (date e ++ sep ++ status e ++ sep ++ host e ++ sep ++ info e)%string.

(** [strip_prefix p s] is the rest of [s] after its prefix [p]. *)
Fixpoint strip_prefix (p s : string) : option string :=
  match p, s with
  | EmptyString, _ => Some s
  | String a p', String b s' => if Ascii.eqb a b then strip_prefix p' s' else None
  | String _ _, EmptyString => None
  end.

(** Split at the last occurrence of the separator. *)
Fixpoint rsplit_sep (s : string) : option (string * string) :=
  match s with
  | EmptyString => None
  | String c s' =>
      match rsplit_sep s' with
      | Some (a, b) => Some (String c a, b)
      | None =>
          match strip_prefix sep s with
          | Some b => Some (EmptyString, b)
          | None => None
          end
      end
  end.

(** [logfmt_re.match(line)] with its four groups.  The pattern is anchored
    at both ends and its groups are greedy, so the date takes all it can:
    the three separators are the last three that do not overlap.  A line is
    held without its newline: readlines leaves one only at the very end,
    where the dollar anchor accepts it and no group can take it. *)
Definition logfmt_match (line : string) : option LogEntry :=
  match rsplit_sep line with
  | None => None
  | Some (r3, info_) =>
      match rsplit_sep r3 with
      | None => None
      | Some (r2, host_) =>
          match rsplit_sep r2 with
          | None => None
          | Some (date_, status_) =>
              Some {| date := date_; status := status_;
                      host := host_; info := info_ |}
          end
      end
  end.

(** The line grammar as the format string spells it. *)
Definition line_grammar (line : string) : Prop :=
  exists d s h i : string,
    line = (d ++ sep ++ s ++ sep ++ h ++ sep ++ i)%string.

(** ** JobLog *)

Record JobLog : Type := mk_log {
  logfn : string;
  logentries : list LogEntry
}.

Definition hash_char : ascii := ascii_of_nat 35.

(** The lines [read] keeps: the text before a hash sign, if any of it is not
    white space. *)
Definition kept_lines (file_lines : list string) : list string :=
  List.filter strip_nonempty (map (partition_head hash_char) file_lines).

Definition nl : string := String (ascii_of_nat 10) EmptyString.

Definition bad_format (line : string) : Py.exn :=
  ValueError
    ("Log file line doesn't have correct format" ++ nl ++ "(" ++ line ++ ")!")%string.

(** The format check of [read]: the first line without a match raises. *)
Fixpoint check_lines (lines : list string) : outcome unit :=
  match lines with
  | [] => Ok tt
  | line :: rest =>
      match logfmt_match line with
      | None => Raise (bad_format line)
      | Some _ => check_lines rest
      end
  end.

(** [JobLog.parse_logline]; on a line that passed the check a match exists. *)
Definition parse_logline (line : string) : outcome LogEntry :=
  match logfmt_match line with
  | Some e => Ok e
  | None => Raise (AttributeError "groupdict")
  end.

Fixpoint parse_lines (lines : list string) : outcome (list LogEntry) :=
  match lines with
  | [] => Ok []
  | line :: rest =>
      match parse_logline line with
      | Raise e => Raise e
      | Ok entry =>
          match parse_lines rest with
          | Raise e => Raise e
          | Ok entries => Ok (entry :: entries)
          end
      end
  end.

(** [JobLog.read], on the lines of the log file. *)
Definition read (file_lines : list string) : outcome (list LogEntry) :=
  let lines := kept_lines file_lines in
  match check_lines lines with
  | Raise e => Raise e
  | Ok _ => parse_lines lines
  end.

(** ** The world job.py acts on *)

Record world : Type := mk_world {
  files : gmap string (list string);    (* path to lines *)
  qsub_calls : list (list string);      (* data files of each qsub run *)
  jobids : gmap string string;          (* [job.jobid], by job name *)
  demand_file_list : gmap string nat    (* [JobPool.demand_file_list] *)
}.

Definition with_files (f : gmap string (list string)) (w : world) : world :=
  {| files := f; qsub_calls := qsub_calls w; jobids := jobids w;
     demand_file_list := demand_file_list w |}.

Definition with_demand (m : gmap string nat) (w : world) : world :=
  {| files := files w; qsub_calls := qsub_calls w; jobids := jobids w;
     demand_file_list := m |}.

(** [JobLog.addentry], on the lines of the file.  The file is held as its
    list of lines, which is what the write does to it when every line of
    the file is ended and the text of the entry holds no newline; the write
    on the text itself is [JobMore.appended]. *)
Definition addentry (logfn_ : string) (entry : LogEntry) : M world unit :=
  modify (fun w =>
    with_files (<[logfn_ := (default [] (files w !! logfn_) ++ [entry_str entry])%list]>
                  (files w)) w).

(** [os.remove] *)
Definition os_remove (path : string) : M world unit :=
  fun w => match files w !! path with
           | Some _ => (Ok tt, with_files (delete path (files w)) w)
           | None => (Raise (OSError path), w)
           end.

(** [shutil.move] of a file into the directory [dir_]. *)
Definition shutil_move (path dir_ : string) : M world unit :=
  fun w => match files w !! path with
           | Some content =>
               (Ok tt, with_files
                         (<[(dir_ ++ "/" ++ path)%string := content]>
                            (delete path (files w))) w)
           | None => (Raise (OSError path), w)
           end.

(** ** PulsarSearchJob *)

Record PulsarSearchJob : Type := mk_job {
  datafiles : list string;
  jobname : string;
  logfilenm : string;
  log : JobLog
}.

Definition ends_with (suffix s : string) : bool :=
  (String.length suffix <=? String.length s)
  && String.eqb
       (substring (String.length s - String.length suffix)
                  (String.length suffix) s) suffix.

(** [get_jobname] *)
Definition get_jobname (datafiles_ : list string) : outcome string :=
  match datafiles_ with
  | [] => Raise IndexError
  | datafile0 :: _ =>
      if ends_with ".fits" datafile0
      then Ok (substring 0 (String.length datafile0 - 5) datafile0)
      else Raise (ValueError
                    ("First data file is not a FITS file!" ++ nl
                       ++ "(" ++ datafile0 ++ ")")%string)
  end.

(** [PulsarSearchJob.get_status]: the status of the last entry. *)
Definition get_status (job : PulsarSearchJob) : outcome string :=
  match last (logentries (log job)) with
  | Some e => Ok (status e)
  | None => Raise IndexError
  end.

(** [PulsarSearchJob.count_status] *)
Definition count_status (job : PulsarSearchJob) (status_ : string) : nat :=
  length (List.filter (fun e => String.eqb (lower (status e)) (lower status_))
            (logentries (log job))).

Section Construction.

Variable hostname : string.       (* [socket.gethostname()] *)
Variable import_time : string.    (* default [date] of [LogEntry], fixed at import *)
Variable repr_datafiles : list string -> string.

(** [JobLog.__init__] *)
Definition JobLog_init (logfn_ : string) (datafiles_ : list string)
  : M world JobLog :=
  w <- get ;;
  match files w !! logfn_ with
  | Some file_lines =>
      match read file_lines with
      | Ok entries => ret {| logfn := logfn_; logentries := entries |}
      | Raise e => raise e
      end
  | None =>
      let entry := {| date := import_time; status := "New job"; host := hostname;
                      info := ("Datafiles: " ++ repr_datafiles datafiles_)%string |} in
      addentry logfn_ entry ;;;
      ret {| logfn := logfn_; logentries := [entry] |}
  end.

(** [PulsarSearchJob.__init__] *)
Definition PulsarSearchJob_init (datafiles_ : list string)
  : M world PulsarSearchJob :=
  match get_jobname datafiles_ with
  | Raise e => raise e
  | Ok jobname_ =>
      let logfilenm_ := (jobname_ ++ ".log")%string in
      l <- JobLog_init logfilenm_ datafiles_ ;;
      ret {| datafiles := datafiles_; jobname := jobname_;
             logfilenm := logfilenm_; log := l |}
  end.

End Construction.

(** ** JobPool *)

Record JobPool : Type := mk_pool {
  jobs : list PulsarSearchJob;
  pool_datafiles : list string
}.

(** One entry of [PBSQuery().getjobs()]. *)
Record pbs_job : Type := mk_pbs {
  Job_Name : list string;
  job_state : list string
}.

(** A bare name or an attribute that nothing binds. *)
Definition name_error {A} (name : string) : M world A := raise (NameError name).
Definition attribute_error {A} (name : string) : M world A :=
  raise (AttributeError name).
Definition type_error {A} (msg : string) : M world A := raise (TypeError msg).

Definition str_in (x : string) (l : list string) : bool :=
  existsb (String.eqb x) l.

Section Pool.

(** [config.job_basename], [config.delete_rawdata], [config.max_attempts]
    and [config.log_archive] *)
Variable job_basename : string.
Variable delete_rawdata : bool.
Variable config_max_attempts : nat.
Variable log_archive : string.

(** The queue as [PBSQuery] reports it and what [qsub] prints for a
    submission of the given data files. *)
Variable alljobs : list pbs_job.
Variable qsub_stdout : list string -> string.

(** *** JobPool.get_queue_status *)

Fixpoint count_queue (js : list pbs_job) (numrunning numqueued : nat)
  : outcome (nat * nat) :=
  match js with
  | [] => Ok (numrunning, numqueued)
  | j :: rest =>
      match Job_Name j with
      | [] => Raise IndexError
      | name0 :: _ =>
          if String.prefix job_basename name0 then
            if str_in "Q" (job_state j) then count_queue rest numrunning (S numqueued)
            else if str_in "R" (job_state j) then count_queue rest (S numrunning) numqueued
            else count_queue rest numrunning numqueued
          else count_queue rest numrunning numqueued
      end
  end.

Definition get_queue_status : M world (nat * nat) :=
  fun w => (count_queue alljobs 0 0, w).

(** *** JobPool.submit_job

    [qsub] runs and the job id is stored; the log entry is then built with
    [job.LogEntry], an attribute a [PulsarSearchJob] does not have. *)
Definition submit_job (job : PulsarSearchJob) : M world unit :=
  modify (fun w =>
    {| files := files w;
       qsub_calls := (qsub_calls w ++ [datafiles job])%list;
       jobids := <[jobname job := qsub_stdout (datafiles job)]> (jobids w);
       demand_file_list := demand_file_list w |}) ;;;
  entry <- attribute_error "LogEntry" ;;
  addentry (logfn (log job)) entry.

(** *** JobPool.upload_results *)
Definition upload_results (job : PulsarSearchJob) : M world unit :=
  raise (NotImplementedError "upload_job() isn't implemented.").

(** *** JobPool.update_demand_file_list

    The count for a job whose status is processing failed is asked of
    [job.count_status()], a call that lacks the method's argument. *)
Definition demanded_statuses : list string :=
  ["submitted to queue"; "processing in progress";
   "processing successful"; "new job"].

Definition still_in_demand (job : PulsarSearchJob) : M world bool :=
  match get_status job with
  | Raise e => raise e
  | Ok s =>
      let status_ := lower s in
      if str_in status_ demanded_statuses then ret true
      else if String.eqb status_ "processing failed" then
        n <- type_error "count_status() takes exactly 2 arguments (1 given)" ;;
        ret (n <? config_max_attempts)
      else ret false
  end.

Definition count_datafile (d : string) : M world unit :=
  modify (fun w =>
    with_demand
      (match demand_file_list w !! d with
       | Some n => <[d := n + 1]> (demand_file_list w)
       | None => <[d := 1]> (demand_file_list w)
       end) w).

Definition update_demand_file_list (self : JobPool) : M world unit :=
  modify (with_demand ∅) ;;;
  for_each (jobs self) (fun job =>
    b <- still_in_demand job ;;
    if b then for_each (datafiles job) count_datafile else ret tt).

(** *** JobPool.is_in_demand *)

(** The loop over [job.datafiles]; a key the map lacks raises. *)
Fixpoint any_in_demand (ds : list string) : M world bool :=
  match ds with
  | [] => ret false
  | datafile :: rest =>
      w <- get ;;
      match demand_file_list w !! datafile with
      | None => raise (KeyError datafile)
      | Some n => if 0 <? n then ret true else any_in_demand rest
      end
  end.

Definition is_in_demand (self : JobPool) (job : PulsarSearchJob) : M world bool :=
  update_demand_file_list self ;;;
  any_in_demand (datafiles job).

(** *** JobPool.delete_job

    The guard is written [is_in_demand(j)]: a bare function name and a bare
    [j], neither bound in the method or in the module (the method of that
    name would be reached through [self]).  [job.LogEntry] is as in
    [submit_job], and a list has no [delete]. *)
Definition delete_job (self : JobPool) (job : PulsarSearchJob) : M world unit :=
  if delete_rawdata then
    in_demand <- name_error "is_in_demand" ;;
    if negb in_demand then
      entry <- attribute_error "LogEntry" ;;
      addentry (logfn (log job)) entry ;;;
      for_each (datafiles job) os_remove ;;;
      shutil_move (logfilenm job) log_archive ;;;
      attribute_error "delete"
    else ret tt
  else ret tt.

(** *** JobPool.rotate

    The pass reaches its collaborators through [self], so what they do is
    left open here: any three methods, failing or not.  [max_attempts] is
    read as a bare name; [None] stands for a module that does not bind it.
    Each call made is written down next to the world it acts on. *)
Inductive action : Type :=
| Submit (job : PulsarSearchJob)
| Delete (job : PulsarSearchJob)
| Upload (job : PulsarSearchJob).

Definition action_job (a : action) : PulsarSearchJob :=
  match a with Submit j | Delete j | Upload j => j end.

Definition is_submit (a : action) : bool :=
  match a with Submit _ => true | _ => false end.

Variable max_attempts : option nat.
Variable self_submit_job : PulsarSearchJob -> M world unit.
Variable self_delete_job : PulsarSearchJob -> M world unit.
Variable self_upload_results : PulsarSearchJob -> M world unit.

Definition invoke (a : action) (m : M world unit) : M (world * list action) unit :=
  fun '(w, acts) => let '(r, w') := m w in (r, (w', (acts ++ [a])%list)).

Definition lift_world {A} (m : M world A) : M (world * list action) A :=
  fun '(w, acts) => let '(r, w') := m w in (r, (w', acts)).

Definition recognized_statuses : list string :=
  ["submitted to queue"; "processing in progress"; "processing failed";
   "processing successful"; "new job"; "upload successful"].

Fixpoint rotate_loop (jobs_ : list PulsarSearchJob) (cansubmit : bool)
  : M (world * list action) unit :=
  match jobs_ with
  | [] => ret tt
  | job :: rest =>
      match get_status job with
      | Raise e => raise e
      | Ok s =>
          let status_ := lower s in
          if String.eqb status_ "submitted to queue"
             || String.eqb status_ "processing in progress" then
            rotate_loop rest cansubmit
          else if String.eqb status_ "processing failed" then
            let numfails := count_status job "processing failed" in
            match max_attempts with
            | None => raise (NameError "max_attempts")
            | Some max_attempts_ =>
                if numfails <? max_attempts_ then
                  if cansubmit then
                    invoke (Submit job) (self_submit_job job) ;;;
                    rotate_loop rest false
                  else rotate_loop rest cansubmit
                else
                  invoke (Delete job) (self_delete_job job) ;;;
                  rotate_loop rest cansubmit
            end
          else if String.eqb status_ "processing successful" then
            invoke (Upload job) (self_upload_results job) ;;;
            rotate_loop rest cansubmit
          else if String.eqb status_ "new job" then
            if cansubmit then
              invoke (Submit job) (self_submit_job job) ;;;
              rotate_loop rest false
            else rotate_loop rest cansubmit
          else if String.eqb status_ "upload successful" then
            invoke (Delete job) (self_delete_job job) ;;;
            rotate_loop rest cansubmit
          else raise (ValueError ("Unrecognized status: " ++ status_)%string)
      end
  end.

Definition rotate (self : JobPool) : M (world * list action) unit :=
  q <- lift_world get_queue_status ;;
  let numqueued := snd q in
  let cansubmit := numqueued =? 0 in
  rotate_loop (jobs self) cansubmit.

End Pool.

(** The pass with the methods [JobPool] itself defines, in a module that
    binds no [max_attempts]. *)
Definition JobPool_rotate (job_basename : string) (delete_rawdata : bool)
    (log_archive : string) (alljobs : list pbs_job)
    (qsub_stdout : list string -> string) (self : JobPool)
  : M (world * list action) unit :=
  rotate job_basename alljobs None
    (submit_job qsub_stdout)
    (delete_job delete_rawdata log_archive self)
    upload_results self.

(** ** Demand, as the design states it

    A job still needs its data files while it is submitted, processing,
    successful or new, or failed with attempts left; the demand for a file
    is the number of times such jobs list it. *)
Definition needs_files (max_attempts_ : nat) (job : PulsarSearchJob) : bool :=
  match get_status job with
  | Raise _ => false
  | Ok s =>
      str_in (lower s) demanded_statuses
      || (String.eqb (lower s) "processing failed"
          && (count_status job "processing failed" <? max_attempts_))
  end.

Definition count_in (d : string) (l : list string) : nat :=
  length (List.filter (String.eqb d) l).

Fixpoint demand_count (max_attempts_ : nat) (js : list PulsarSearchJob)
    (d : string) : nat :=
  match js with
  | [] => 0
  | job :: rest =>
      (if needs_files max_attempts_ job then count_in d (datafiles job) else 0)
      + demand_count max_attempts_ rest d
  end.

End Job.

(* ===================================================================== *)
(** * The download rules, as the design states them *)
(* ===================================================================== *)

Module DownloaderSpec.
Import Text Jobtracker Downloader.

(** The Download rows of one Request and the Attempt rows of one Download. *)
Definition downloads_under (id : nat) (d : db) : list download_row :=
  List.filter (fun x => dl_request_id x =? id) (downloads d).

Definition attempts_of (d : db) (download_id : nat) : list attempt_row :=
  List.filter (fun a => at_download_id a =? download_id) (download_attempts d).

Definition attempt_count (d : db) (download_id : nat) : nat :=
  length (attempts_of d download_id).

Definition has_status (s : string) (x : download_row) : Prop :=
  like (dl_status x) s = true.

Definition all_downloaded (id : nat) (d : db) : Prop :=
  Forall (has_status "downloaded") (downloads_under id d).

Definition none_downloading (id : nat) (d : db) : Prop :=
  Forall (fun x => ~ has_status "downloading" x) (downloads_under id d).

(** A Download has exhausted its retries once it has as many Attempts as
    the ceiling allows. *)
Definition exhausted (numretries : nat) (d : db) (x : download_row) : Prop :=
  numretries <= attempt_count d (dl_id x).

Definition failed_all_exhausted (numretries id : nat) (d : db) : Prop :=
  Forall (fun x => has_status "failed" x -> exhausted numretries d x)
         (downloads_under id d).

(** The completion rule: every Download downloaded, or none downloading and
    every failed one out of retries. *)
Definition completion_rule (numretries id : nat) (d : db) : Prop :=
  all_downloaded id d
  \/ (none_downloading id d /\ failed_all_exhausted numretries id d).

(** The retry bound: no Download has more Attempts than the ceiling. *)
Definition retry_bound (numretries : nat) (d : db) : Prop :=
  forall download_id, attempt_count d download_id <= numretries.

(** The store after [UPDATE requests SET status='finished', updated_at=now
    WHERE id=id]. *)
Definition mark_finished (now : string) (id : nat) (d : db) : db :=
  {| requests := update (set_request_finished now) (fun r => rq_id r =? id)
                        (requests d);
     downloads := downloads d;
     download_attempts := download_attempts d |}.

(** A Request is persisted with a given status. *)
Definition persisted_status (d : db) (id : nat) (s : string) : Prop :=
  forall r, In r (requests d) -> rq_id r = id -> rq_status r = s.

(** The decision [is_finished] takes, read off its four queries. *)
Definition over_ceiling (numretries : nat) (d : db) (x : download_row) : bool :=
  numretries <? attempt_count d (dl_id x).

Definition decides_finished (numretries : nat) (self : restore) (id : nat)
    (d : db) : bool :=
  let all_ := downloads_under id d in
  let with_status s :=
    List.filter (fun x => (dl_request_id x =? id) && like (dl_status x) s)
                (downloads d) in
  negb (0 <? length (with_status "downloading"))
  && negb ((length all_ =? 0) && dict_is_empty (downloaders self))
  && ((length all_ =? length (with_status "downloaded"))
      || negb (existsb (over_ceiling numretries d) (with_status "failed"))).





(** The identity of the Attempt rows: row id and owning Download. *)
Definition attempt_keys (d : db) : list (nat * nat) :=
  map (fun a => (at_id a, at_download_id a)) (download_attempts d).

(** A worker that was not there before and whose Attempt row is new, the
    Download it belongs to having had fewer Attempts than the ceiling. *)
Definition started_below_ceiling (numretries : nat) (d d' : db)
    (w : downloader) : Prop :=
  exists download_id,
    In (attempt_id w, download_id) (attempt_keys d')
    /\ ~ In (attempt_id w) (map fst (attempt_keys d))
    /\ attempt_count d download_id < numretries.

(** How the Attempt rows of a store may grow under a retry ceiling. *)
Definition grows_under_ceiling (numretries : nat) (d d' : db) : Prop :=
  (forall i, attempt_count d i <= attempt_count d' i)
  /\ (forall i, attempt_count d i < attempt_count d' i ->
                attempt_count d i < numretries)
  /\ (forall i, attempt_count d' i <= Nat.max (attempt_count d i) numretries)
  /\ (forall k, In k (attempt_keys d) -> In k (attempt_keys d')).


(** The identity of the Download rows: row id, owning Request and remote
    file name. *)
Definition download_keys (d : db) : list (nat * nat * string) :=
  map (fun x => (dl_id x, dl_request_id x, dl_remote_filename x)) (downloads d).

(** Every thread in the table was started for an Attempt row of a Download
    row of the Request [id], under the name of that Download's remote file. *)
Definition tracked_from_rows (id : nat) (dls : gmap string downloader)
    (d : db) : Prop :=
  forall f w, dls !! f = Some w ->
    exists download_id,
      In (attempt_id w, download_id) (attempt_keys d)
      /\ In (download_id, id, f) (download_keys d).

(** A pass of the login loop in which some call raises. *)
Definition pass_raises (p : ftp_pass) : bool :=
  match p_connect p with
  | Throws _ => true
  | Returns _ =>
      match p_login p with
      | Throws _ => true
      | Returns _ =>
          match p_cwd p with
          | Throws _ => true
          | Returns _ => false
          end
      end
  end.

End DownloaderSpec.

(* ===================================================================== *)
(** * The job rules, as the design states them *)
(* ===================================================================== *)

Module JobSpec.
Import Text Job.

(** The current status of a job is, or is not, one of the lifecycle
    states. *)
Definition recognized_job (job : PulsarSearchJob) : Prop :=
  exists s, get_status job = Ok s
            /\ str_in (lower s) recognized_statuses = true.

Definition unrecognized_job (job : PulsarSearchJob) : Prop :=
  exists s, get_status job = Ok s
            /\ str_in (lower s) recognized_statuses = false.

(** A job the pass walks past: submitted or in progress. *)
Definition waiting_job (job : PulsarSearchJob) : Prop :=
  exists s, get_status job = Ok s
            /\ (String.eqb (lower s) "submitted to queue"
                || String.eqb (lower s) "processing in progress") = true.

Definition submits (acts : list action) : nat :=
  length (List.filter is_submit acts).

(** What one pass over [jobs_] may leave behind, [acts] being the calls
    made before it: calls on jobs of the list that have a recognized
    status, at most one of them a submission and none if submitting was
    not allowed at the start, and no normal end if some job of the list has
    an unrecognized status. *)
Definition pass_ok (jobs_ : list PulsarSearchJob) (cansubmit : bool)
    (acts : list action) (res : outcome unit * (world * list action)) : Prop :=
  exists new,
    snd (snd res) = (acts ++ new)%list
    /\ Forall (fun a => In (action_job a) jobs_ /\ recognized_job (action_job a))
              new
    /\ submits new <= (if cansubmit then 1 else 0)
    /\ ((exists j, In j jobs_ /\ unrecognized_job j) -> is_ok (fst res) = false).

(** The demand map holds, for every file, the given count, a file with
    count zero having no entry. *)
Definition holds_counts (m : gmap string nat) (count : string -> nat) : Prop :=
  forall d, m !! d = if count d =? 0 then None else Some (count d).

End JobSpec.

(* ===================================================================== *)
(** * Concrete stores, pools and environments used in the examples *)
(* ===================================================================== *)

Module Fixtures.
Import Text Jobtracker.

(** Two lock errors, then a free database. *)
Definition locked_twice (k : nat) : option fault :=
  if k <? 2 then Some (mk_fault 1 "database is locked") else None.

Definition one_attempt_insert : list stmt :=
  [UPDATE_downloads (fun d => d) (fun _ => true);
   INSERT_download_attempts (fun i => mk_attempt i 7 None None "t0" "t0")].


(** A ready Request without Download rows. *)
Definition ready_request : request_row :=
  mk_request 1 "9818e194a5db4f4d90aa706826d69907" "ready" None
    "Newly created restore request" "t0" "t0".

Definition store_ready_only : db := mk_db [ready_request] [] [].

Definition fresh_restore : Downloader.restore :=
  Downloader.mk_restore (Some ready_request) 1 ∅ ∅ 0
    (Some "9818e194a5db4f4d90aa706826d69907").

(** Three files of sizes 100, 200 and 300: two downloaded, the third failed
    after three attempts. *)
Definition three_downloads : list download_row :=
  [mk_download 1 1 "a.fits" "/data/a.fits" "downloaded" (Some "100 bytes") 100 "t0" "t1";
   mk_download 2 1 "b.fits" "/data/b.fits" "downloaded" (Some "200 bytes") 200 "t0" "t1";
   mk_download 3 1 "c.fits" "/data/c.fits" "failed" (Some "Failed") 300 "t0" "t3"].

Definition attempts_exhausted : list attempt_row :=
  [mk_attempt 1 1 (Some "downloaded") None "t0" "t1";
   mk_attempt 2 2 (Some "downloaded") None "t0" "t1";
   mk_attempt 3 3 (Some "failed") None "t0" "t1";
   mk_attempt 4 3 (Some "failed") None "t1" "t2";
   mk_attempt 5 3 (Some "failed") None "t2" "t3"].

Definition store_exhausted : db :=
  mk_db [ready_request] three_downloads attempts_exhausted.

(** The same files with the third failed once only. *)
Definition store_failed_once : db :=
  mk_db [ready_request] three_downloads (take 3 attempts_exhausted).




(** A thread that is still transferring, and an empty staging directory. *)
Definition poll_alive (w : Downloader.downloader) : Downloader.thread_view :=
  Downloader.mk_view true "downloading" "50 -- 50% -- 10 Kb/s".

Definition stat_nothing (path : string) : option nat := None.

(** The third file has a worker (attempt 5) that ended reporting
    downloaded; on disk the file has 300 bytes, or only 120. *)
Definition store_third_running : db :=
  mk_db [ready_request]
        [mk_download 1 1 "a.fits" "/data/a.fits" "downloaded" (Some "100 bytes") 100 "t0" "t1";
         mk_download 2 1 "b.fits" "/data/b.fits" "downloaded" (Some "200 bytes") 200 "t0" "t1";
         mk_download 3 1 "c.fits" "/data/c.fits" "downloading" (Some "50%") 300 "t0" "t3"]
        [mk_attempt 1 1 (Some "downloaded") None "t0" "t1";
         mk_attempt 2 2 (Some "downloaded") None "t0" "t1";
         mk_attempt 5 3 (Some "downloading") None "t2" "t3"].

Definition worker_c : Downloader.downloader :=
  Downloader.mk_downloader "9818e194a5db4f4d90aa706826d69907" "c.fits" 5.

Definition table_c : gmap string Downloader.downloader :=
  {[ "c.fits" := worker_c ]}.

Definition poll_done (w : Downloader.downloader) : Downloader.thread_view :=
  Downloader.mk_view false "downloaded" "300 bytes -- Completed in: 4 seconds.".

Definition stat_complete (path : string) : option nat :=
  if String.eqb path "/data/c.fits" then Some 300 else None.

Definition stat_truncated (path : string) : option nat :=
  if String.eqb path "/data/c.fits" then Some 120 else None.


(** A server that answers the login with a rejection, one that answers the
    directory change with a rejection, and a transfer of 300 bytes in three
    blocks that goes through. *)
Definition login_rejected (i : nat) : Downloader.ftp_pass :=
  Downloader.mk_pass (Downloader.Returns tt)
    (Downloader.Returns "530 Login incorrect.")
    (Downloader.Returns "250 CWD command successful.").

(** The same rejection handed to the caller as an exception, in every
    pass. *)
Definition login_refused (i : nat) : Downloader.ftp_pass :=
  Downloader.mk_pass (Downloader.Returns tt)
    (Downloader.Throws "530 Login incorrect.")
    (Downloader.Returns "250 CWD command successful.").

Definition cwd_rejected (i : nat) : Downloader.ftp_pass :=
  Downloader.mk_pass (Downloader.Returns tt)
    (Downloader.Returns "230 User logged in.")
    (Downloader.Returns "550 Failed to change directory.").

Definition transfer_300 : Downloader.ftp_transfer :=
  Downloader.mk_transfer (Downloader.Returns tt) (Downloader.Returns 300)
    (Downloader.Returns tt) [100; 100; 100]
    (Downloader.Returns "226 Transfer complete.") "4 seconds."
    (Downloader.Returns tt) (Downloader.Returns tt).

Definition no_progress_text (got total : nat) : string := EmptyString.

Definition thread_c : Downloader.thread :=
  Downloader.thread_init "9818e194a5db4f4d90aa706826d69907" "c.fits".


(** Jobs, each with one data file and a log read back from disk. *)
Definition entry_at (date_ status_ info_ : string) : Job.LogEntry :=
  Job.mk_entry date_ status_ "hostA" info_.

Definition job_with (name : string) (entries : list Job.LogEntry)
  : Job.PulsarSearchJob :=
  Job.mk_job [(name ++ ".fits")%string] name (name ++ ".log")%string
    (Job.mk_log (name ++ ".log")%string entries).

Definition new_entry : Job.LogEntry :=
  entry_at "2020-01-01 00:00:00" "New job" "Datafiles: [a.fits]".

Definition job_a : Job.PulsarSearchJob := job_with "a" [new_entry].
Definition job_b : Job.PulsarSearchJob := job_with "b" [new_entry].
Definition job_c : Job.PulsarSearchJob := job_with "c" [new_entry].

(** A job whose last log entry carries a status that is no lifecycle
    state. *)
Definition job_garbled : Job.PulsarSearchJob :=
  job_with "g" [new_entry;
                entry_at "2020-01-02 00:00:00" "Procesing faild" "attempt 1"].

Definition job_running : Job.PulsarSearchJob :=
  job_with "r" [new_entry;
                entry_at "2020-01-02 00:00:00" "Submitted to queue" "Job ID: 1";
                entry_at "2020-01-02 01:00:00" "Processing in progress" EmptyString].

Definition pool_three_new : Job.JobPool := Job.mk_pool [job_a; job_b; job_c] [].
Definition pool_garbled : Job.JobPool :=
  Job.mk_pool [job_running; job_garbled; job_a] [].

Definition empty_world : Job.world := Job.mk_world ∅ [] ∅ ∅.

(** A [submit_job] that does what its docstring says: it runs qsub and
    appends the entry to the log. *)
Definition submit_and_log (job : Job.PulsarSearchJob) : M Job.world unit :=
  Py.modify (fun w =>
    Job.mk_world (Job.files w)
      (Job.qsub_calls w ++ [Job.datafiles job])%list
      (Job.jobids w) (Job.demand_file_list w)) ;;;
  Job.addentry (Job.logfn (Job.log job))
    (entry_at "2020-01-03 00:00:00" "Submitted to queue" "Job ID: 7").

Definition do_nothing (job : Job.PulsarSearchJob) : M Job.world unit :=
  Py.ret tt.

(** A log file with a comment, a blank line, a good line and a line that
    lacks the host field. *)
Definition log_with_bad_line : list string :=
  ["# log of job g";
   "   ";
   "2020-01-01 00:00:00 -- New job -- hostA -- Datafiles: [g.fits]";
   "2020-01-02 00:00:00 -- Processing failed -- attempt 1"].


(** Two jobs on the same data file, one in progress and one uploaded. *)
Definition job_shared_running : Job.PulsarSearchJob :=
  Job.mk_job ["shared.fits"] "shared" "shared.log"
    (Job.mk_log "shared.log"
       [new_entry;
        entry_at "2020-01-02 00:00:00" "Submitted to queue" "Job ID: 1";
        entry_at "2020-01-02 01:00:00" "Processing in progress" EmptyString]).

Definition job_shared_uploaded : Job.PulsarSearchJob :=
  Job.mk_job ["shared.fits"] "shared2" "shared2.log"
    (Job.mk_log "shared2.log"
       [new_entry;
        entry_at "2020-01-02 00:00:00" "Processing successful" EmptyString;
        entry_at "2020-01-03 00:00:00" "Upload successful" EmptyString]).

Definition pool_shared : Job.JobPool :=
  Job.mk_pool [job_shared_running; job_shared_uploaded] ["shared.fits"].

Definition world_shared : Job.world :=
  Job.mk_world {[ "shared.fits" := ["data"] ]} [] ∅ ∅.

End Fixtures.

(* ===================================================================== *)
(** * Downloader.py, continued: requesting, listing and running a restore *)
(* ===================================================================== *)

Module DownloaderMore.
Import Text Jobtracker Downloader.

(** What the methods of [restore] hand back: [False], [True], nothing, or
    the guid the web service gave. *)
Inductive py_value : Type :=
| PyFalse
| PyTrue
| PyNone
| PyStr (s : string).

(** [bool(v)] *)
Definition truthy (v : py_value) : bool :=
  match v with
  | PyTrue => true
  | PyStr s => negb (String.length s =? 0)
  | PyFalse | PyNone => false
  end.

Definition with_guid (self : restore) (g : option string) : restore :=
  {| values := values self; num_beams := num_beams self;
     downloaders := downloaders self; files := files self;
     size := size self; guid := g |}.

(** [self.guid] spliced into a statement with the string format. *)
Definition guid_text (self : restore) : string := default "False" (guid self).

Definition insert_request (v : nat -> request_row) : M db nat :=
  r <- query1 (INSERT_requests v) ;; ret (rowid r).

(** The [VALUES] and [SET] clauses on [requests]. *)
Definition new_request (now g : string) (i : nat) : request_row :=
  {| rq_id := i; rq_guid := g; rq_status := "waiting"; rq_size := None;
     rq_details := "Newly created restore request";
     rq_created_at := now; rq_updated_at := now |}.

Definition set_request_ready (r : request_row) : request_row :=
  {| rq_id := rq_id r; rq_guid := rq_guid r; rq_status := "ready";
     rq_size := rq_size r; rq_details := rq_details r;
     rq_created_at := rq_created_at r; rq_updated_at := rq_updated_at r |}.

Definition set_request_not_found (now : string) (r : request_row) : request_row :=
  {| rq_id := rq_id r; rq_guid := rq_guid r; rq_status := "finished";
     rq_size := rq_size r; rq_details := "request directory not found";
     rq_created_at := rq_created_at r; rq_updated_at := now |}.

Definition set_request_size (n : nat) (r : request_row) : request_row :=
  {| rq_id := rq_id r; rq_guid := rq_guid r; rq_status := rq_status r;
     rq_size := Some n; rq_details := rq_details r;
     rq_created_at := rq_created_at r; rq_updated_at := rq_updated_at r |}.

Definition has_guid (g : string) (r : request_row) : bool :=
  String.eqb (rq_guid r) g.

(** What a call of the web service does: it returns a text, it ends in
    a URLError, or it ends in some other exception. *)
Inductive ws_reply : Type :=
| WsReturns (text : string)
| WsURLError (reason : string)
| WsRaises (e : Py.exn).

(** ** restore.request

    [restore_reply] is what [WebService.Restore] does.  The method catches
    the URLError alone; any other exception leaves it. *)
Definition request (now : string) (restore_reply : ws_reply)
    (self : restore) : M db (py_value * restore) :=
  match restore_reply with
  | WsRaises e => raise e
  | WsURLError _ => ret (PyFalse, self)
  | WsReturns response =>
      if negb (String.eqb response "fail") then
        let self := with_guid self (Some response) in
        found <- get_by_guid response ;;
        match found with
        | Some _ => ret (PyNone, self)
        | None =>
            insert_request (new_request now response) ;;;
            ret (PyStr response, self)
        end
      else ret (PyFalse, self)
  end.

(** ** restore.getLocation, for a call of [WebService.Location] that
    returns [response] *)
Definition getLocation (response : string) (self : restore) : M db bool :=
  if String.eqb response "done" then
    update_requests set_request_ready (has_guid (guid_text self)) ;;;
    ret true
  else ret false.


(** ** restore.get_files *)

(** One pass through the [try] block as the server answers it: [FTP_TLS],
    [connect], [auth_tls] and [set_pasv] taken together, [login], [cwd],
    [nlst], and [size] for each name. *)
Record listing_pass : Type := mk_listing {
  ls_connect : reply unit;
  ls_login : reply string;
  ls_cwd : reply string;
  ls_nlst : reply (list string);
  ls_size : string -> reply nat
}.

(** The flags set before the loop and never reset in it; [list_cmd] and
    [got_all_files_size] only reach the log and are left out. *)
Record listing_flags : Type := mk_flags {
  connected : bool;
  logged_in : bool;
  cwd : bool
}.

Definition no_flags : listing_flags := mk_flags false false false.

Fixpoint has_substring (p s : string) : bool :=
  String.prefix p s
  || match s with
     | EmptyString => false
     | String _ s' => has_substring p s'
     end.

(** [re.match] of the pattern for the files to ignore: the name holds the
    text below somewhere (names come from a listing, one to a line). *)
Definition ignored (file : string) : bool := has_substring "7.w4bit.fits" file.

Definition add_file (file : string) (file_size : nat) (self : restore) : restore :=
  {| values := values self; num_beams := num_beams self;
     downloaders := downloaders self;
     files := <[file := file_size]> (files self);
     size := size self + file_size; guid := guid self |}.

(** The loop over the listing; [false] when a [size] call raised. *)
Fixpoint sizes_loop (size_of : string -> reply nat) (names : list string)
    (self : restore) : restore * bool :=
  match names with
  | [] => (self, true)
  | file :: rest =>
      if negb (ignored file) then
        match size_of file with
        | Throws _ => (self, false)
        | Returns file_size => sizes_loop size_of rest (add_file file file_size self)
        end
      else sizes_loop size_of rest self
  end.

(** How a pass through the [try] block ends: at its last line, in one of
    its [return False], or in the handler. *)
Inductive pass_end : Type := Listed | Refused | Caught.

Definition listing_try (p : listing_pass) (fl : listing_flags) (self : restore)
  : pass_end * listing_flags * restore :=
  match ls_connect p with
  | Throws _ => (Caught, fl, self)
  | Returns _ =>
      let fl := mk_flags true (logged_in fl) (cwd fl) in
      match ls_login p with
      | Throws _ => (Caught, fl, self)
      | Returns login_response =>
          let fl := mk_flags (connected fl) true (cwd fl) in
          if negb (String.eqb login_response "230 User logged in.") then
            (Refused, fl, self)
          else
            match ls_cwd p with
            | Throws _ => (Caught, fl, self)
            | Returns cwd_response =>
                let fl := mk_flags (connected fl) (logged_in fl) true in
                if negb (String.eqb cwd_response "250 CWD command successful.")
                then (Refused, fl, self)
                else
                  match ls_nlst p with
                  | Throws _ => (Caught, fl, self)
                  | Returns files_in_res_dir =>
                      let '(self, got_all) :=
                        sizes_loop (ls_size p) files_in_res_dir self in
                      if got_all then (Listed, fl, self) else (Caught, fl, self)
                  end
            end
      end
  end.

(** What [get_files] leaves: the value returned, the object, the seconds
    spent in [time.sleep] and whether the error mail was attempted. *)
Record listing : Type := mk_result {
  returned : py_value;
  object : restore;
  seconds_slept : nat;
  mailed : bool
}.

Section Listing.

Variable now : string.

(** [passes i] is pass [i] of the [while no_connection] loop, which has no
    bound on its retries: the model takes fuel. *)
Fixpoint get_files_loop (fuel : nat) (passes : nat -> listing_pass) (i : nat)
    (fl : listing_flags) (slept_ : nat) (self : restore)
  : M db (option listing) :=
  match fuel with
  | 0 => ret None
  | S fuel' =>
      match listing_try (passes i) fl self with
      | (Listed, _, self) =>
          update_requests (set_request_size (size self))
            (has_guid (guid_text self)) ;;;
          ret (Some (mk_result PyNone self slept_ false))
      | (Refused, _, self) => ret (Some (mk_result PyFalse self slept_ false))
      | (Caught, fl, self) =>
          if connected fl && logged_in fl && negb (cwd fl) then
            update_requests (set_request_not_found now)
              (has_guid (guid_text self)) ;;;
            ret (Some (mk_result PyFalse self slept_ true))
          else
            get_files_loop fuel' passes (S i) fl (slept_ + 2) self
      end
  end.

Definition get_files (fuel : nat) (passes : nat -> listing_pass)
    (self : restore) : M db (option listing) :=
  get_files_loop fuel passes 0 no_flags 0 self.

End Listing.

(** ** restore.status, without what it prints *)
Definition status (self : restore) : M db unit :=
  id <- values_id self ;;
  select_downloads (fun d => dl_request_id d =? id) ;;;
  ret tt.

(** ** restore.run *)

Section Run.

Variable numretries : nat.
Variable temp : string.
Variable now : string.
Variable poll : downloader -> thread_view.
Variable stat : string -> option nat.

(** What the services answer to this restore in this call. *)
Variable restore_reply : ws_reply.
Variable location_response : string.
Variable passes : nat -> listing_pass.

Definition restore_run (fuel : nat) (self : restore)
  : M db (option (py_value * restore)) :=
  match guid self with
  | None => r <- request now restore_reply self ;; ret (Some r)
  | Some _ =>
      self <- update_from_db self ;;
      match values self with
      | None => raise (TypeError "values is not a row")
      | Some v =>
          if String.eqb (rq_status v) "waiting" then
            getLocation location_response self ;;;
            ret (Some (PyTrue, self))
          else if String.eqb (rq_status v) "ready" then
            fin <- is_finished numretries now self ;;
            if fin then ret (Some (PyFalse, self))
            else
              listed <-
                (if dict_is_empty (files self) then
                   r <- get_files now fuel passes self ;;
                   ret (option_map object r)
                 else ret (Some self)) ;;
              match listed with
              | None => ret None
              | Some self =>
                  self <- download numretries temp now poll stat self ;;
                  ret (Some (PyTrue, self))
              end
          else if String.eqb (rq_status v) "finished"
                  || String.eqb (rq_status v) "failed" then
            ret (Some (PyFalse, self))
          else ret (Some (PyTrue, self))
      end
  end.

End Run.

(** ** DownloadModule.can_request_more and one turn of DownloadModule.run *)

Section Module.

(** [config.download.numrestores], [config.download.space_to_use] and the
    bytes [os.walk] finds under the staging directory. *)
Variable numrestores : nat.
Variable space_to_use : Z.
Variable folder_size : nat.

Variable now : string.
Variable restore_reply : ws_reply.

(** [res.run()], with whatever the services answer to [res]; nothing is
    returned where the call does not end. *)
Variable res_run : restore -> M db (option (py_value * restore)).

Definition get_available_space : Z := (space_to_use - Z.of_nat folder_size)%Z.

Fixpoint total_size_loop (rs : list restore) (total_size : Z) : outcome Z :=
  match rs with
  | [] => Ok total_size
  | request_ :: rest =>
      match values request_ with
      | None => Raise (TypeError "values is not a row")
      | Some v =>
          match rq_size v with
          | Some n =>
              if negb (n =? 0)
              then total_size_loop rest (total_size + Z.of_nat n)%Z
              else total_size_loop rest total_size
          | None => total_size_loop rest total_size
          end
      end
  end.

Definition can_request_more (self : DownloadModule) : outcome bool :=
  if numrestores <=? length (restores self) then Ok false
  else
    match total_size_loop (restores self) 0%Z with
    | Raise e => Raise e
    | Ok total_size => Ok (0 <? get_available_space - total_size)%Z
    end.

(** The loop over a copy of [self.restores]: a restore whose [run] answers
    with something false is removed, the others stay in their order. *)
Fixpoint run_restores (snapshot kept : list restore)
  : M db (option (list restore)) :=
  match snapshot with
  | [] => ret (Some kept)
  | res :: rest =>
      r <- res_run res ;;
      match r with
      | None => ret None
      | Some (v, res) =>
          if negb (truthy v) then run_restores rest kept
          else status res ;;; run_restores rest (kept ++ [res])%list
      end
  end.

(** The body of the [while True] loop, once. *)
Definition DownloadModule_run_once (self : DownloadModule)
  : M db (option DownloadModule) :=
  can <- (fun d => (can_request_more self, d)) ;;
  restores_ <-
    (if can then
       tmp_restore <- restore_init 1 None ;;
       r <- request now restore_reply tmp_restore ;;
       if truthy (fst r) then ret (restores self ++ [snd r])%list
       else ret (restores self)
     else ret (restores self)) ;;
  kept <- run_restores restores_ [] ;;
  ret (option_map mk_module kept).

End Module.

(** ** The life of a request *)




Definition listed_names (names : list string) : list string :=
  List.filter (fun f => negb (ignored f)) names.

Definition listed (f : string) (names : list string) : bool :=
  existsb (String.eqb f) (listed_names names).

(** The bytes the held restores announce in their rows. *)
Definition announced (rs : list restore) : nat :=
  list_sum (map (fun r => match values r with
                          | Some v => default 0 (rq_size v)
                          | None => 0
                          end) rs).

(** A computation that keeps a property of the world, however it ends. *)
Definition keeps {S A} (P : S -> Prop) (c : M S A) : Prop :=
  forall s, P s -> P (snd (c s)).





(** The table of requests is [R]. *)
Definition requests_are (R : list request_row) (d : db) : Prop :=
  requests d = R.

End DownloaderMore.

(* ===================================================================== *)
(** * Servers and modules used in the examples *)
(* ===================================================================== *)

Module DownloaderFixtures.
Import Text Jobtracker Downloader DownloaderMore Fixtures.

(** A directory with two files to fetch and one to ignore. *)
Definition sizes_ab (f : string) : reply nat :=
  if String.eqb f "a.fits" then Returns 100
  else if String.eqb f "b.fits" then Returns 200
  else Throws "550 No such file.".

Definition listing_ok (i : nat) : listing_pass :=
  mk_listing (Returns tt) (Returns "230 User logged in.")
    (Returns "250 CWD command successful.")
    (Returns ["a.fits"; "p2030.7.w4bit.fits"; "b.fits"]) sizes_ab.



Definition module_one : DownloadModule := mk_module [fresh_restore].


(** [run] of a restore, the web service not yet done with new requests. *)
Definition run_with_services (res : restore)
  : M db (option (py_value * restore)) :=
  restore_run 3 "/data/" "t4" poll_alive stat_nothing (WsReturns "g-other")
    "working" listing_ok 1 res.

End DownloaderFixtures.

(* ===================================================================== *)
(** * job.py, continued *)
(* ===================================================================== *)

Module JobMore.
Import Text Job.

(** ** Fields that survive a trip through the log format *)

(** The separator occurs somewhere in [s]. *)
Definition contains_sep (s : string) : Prop :=
  exists a b : string, s = (a ++ sep ++ b)%string.

(** A field after which the format can be split again: it holds no
    separator, also none that would begin on the blank that ends the
    separator before it. *)
Definition clean_field (f : string) : Prop :=
  ~ contains_sep (String " " f).

Fixpoint has_char (c : ascii) (s : string) : bool :=
  match s with
  | EmptyString => false
  | String x s' => Ascii.eqb x c || has_char c s'
  end.

Definition newline : ascii := ascii_of_nat 10.

(** The text holds no newline. *)
Definition one_line (s : string) : Prop := has_char newline s = false.

(** An entry with clean status, host and info and without a hash sign. *)
Definition writable_entry (e : LogEntry) : Prop :=
  clean_field (status e) /\ clean_field (host e) /\ clean_field (info e)
  /\ has_char hash_char (entry_str e) = false.

(** ** The log as the text of a file *)

(** [logfile.readlines()], each line without the newline that ends it. *)
Fixpoint readlines (text : string) : list string :=
  match text with
  | EmptyString => []
  | String c rest =>
      if Ascii.eqb c newline then EmptyString :: readlines rest
      else match readlines rest with
           | [] => [String c EmptyString]
           | line :: lines => String c line :: lines
           end
  end.

(** Every line of the text is ended: the text is empty or its last
    character is a newline. *)
Fixpoint lines_ended (text : string) : bool :=
  match text with
  | EmptyString => true
  | String c rest =>
      match rest with
      | EmptyString => Ascii.eqb c newline
      | String _ _ => lines_ended rest
      end
  end.

(** The text of the log after [addentry] on a file that held [text]: the
    file is opened for appending, and [str(entry)] and a newline are
    written. *)
Definition appended (text : string) (entry : LogEntry) : string :=
  (text ++ entry_str entry ++ nl)%string.

(** ** JobPool.create_jobs_from_datafiles *)

Section Creation.

Variable hostname : string.
Variable import_time : string.
Variable repr_datafiles : list string -> string.

Fixpoint create_jobs_loop (datafiles_ : list string)
    (jobs_ : list PulsarSearchJob) : M world (list PulsarSearchJob) :=
  match datafiles_ with
  | [] => ret jobs_
  | datafile :: rest =>
      p_searchjob <-
        PulsarSearchJob_init hostname import_time repr_datafiles [datafile] ;;
      create_jobs_loop rest (jobs_ ++ [p_searchjob])%list
  end.

Definition create_jobs_from_datafiles (self : JobPool) : M world JobPool :=
  js <- create_jobs_loop (pool_datafiles self) (jobs self) ;;
  ret {| jobs := js; pool_datafiles := pool_datafiles self |}.

End Creation.

(** ** What a call of the rotation pass is made for *)

Definition failed_with_attempts_left (max_attempts : option nat)
    (job : PulsarSearchJob) (status_ : string) : Prop :=
  status_ = "processing failed"
  /\ exists m, max_attempts = Some m
               /\ count_status job "processing failed" < m.

Definition failed_for_good (max_attempts : option nat)
    (job : PulsarSearchJob) (status_ : string) : Prop :=
  status_ = "processing failed"
  /\ exists m, max_attempts = Some m
               /\ m <= count_status job "processing failed".

Definition call_justified (max_attempts : option nat) (a : action) : Prop :=
  exists s,
    get_status (action_job a) = Ok s
    /\ match a with
       | Submit job =>
           lower s = "new job"
           \/ failed_with_attempts_left max_attempts job (lower s)
       | Delete job =>
           lower s = "upload successful"
           \/ failed_for_good max_attempts job (lower s)
       | Upload job => lower s = "processing successful"
       end.

(** ** The queue and the demand scan *)

(** An entry of the queue that counts as queued: a job of the pipeline in
    state Q. *)
Definition queued (job_basename : string) (j : pbs_job) : bool :=
  match Job_Name j with
  | name0 :: _ => String.prefix job_basename name0 && str_in "Q" (job_state j)
  | [] => false
  end.

(** A job whose log ends with a failure, and one whose log ends with
    anything else. *)
Definition failed_job (job : PulsarSearchJob) : Prop :=
  exists s, get_status job = Ok s /\ lower s = "processing failed".

Definition countable_job (job : PulsarSearchJob) : Prop :=
  exists s, get_status job = Ok s /\ lower s <> "processing failed".

(** A job as the constructor leaves it for the data file it was given. *)
Definition job_of_file (w : world) (job : PulsarSearchJob) : Prop :=
  datafiles job = [(jobname job ++ ".fits")%string]
  /\ logfilenm job = (jobname job ++ ".log")%string
  /\ logfn (log job) = logfilenm job
  /\ exists file_lines,
       files w !! logfilenm job = Some file_lines
       /\ read file_lines = Ok (logentries (log job)).

Definition is_delete (a : action) : bool :=
  match a with Delete _ => true | _ => false end.

End JobMore.

(* ===================================================================== *)
(** * Further concrete jobs and logs *)
(* ===================================================================== *)

Module MoreFixtures.
Import Text Job JobMore Fixtures.

Definition submitted_entry : LogEntry :=
  entry_at "2020-01-02 00:00:00" "Submitted to queue" "Job ID: 7.queue".

Definition repr_plain (ds : list string) : string :=
  match ds with
  | [d] => ("['" ++ d ++ "']")%string
  | _ => "[...]"
  end.

(** A queue with one job of the pipeline waiting and a foreign one
    running. *)
Definition queue_busy : list pbs_job :=
  [mk_pbs ["palfa_search"] ["Q"]; mk_pbs ["other_job"] ["R"]].

Definition job_failed_once : PulsarSearchJob :=
  job_with "f" [new_entry;
                entry_at "2020-01-02 00:00:00" "Processing failed" "attempt 1"].

Definition pool_failed : JobPool := mk_pool [job_running; job_failed_once] [].

Definition pool_uploaded_only : JobPool :=
  mk_pool [job_shared_uploaded] ["shared.fits"].

Definition pool_two_files : JobPool := mk_pool [] ["a.fits"; "b.fits"].

Definition first_entry (d : string) : LogEntry :=
  mk_entry "2020-01-01 00:00:00" "New job" "hostA"
    ("Datafiles: " ++ repr_plain [d])%string.

Definition job_first (n : string) : PulsarSearchJob :=
  mk_job [(n ++ ".fits")%string] n (n ++ ".log")%string
    (mk_log (n ++ ".log")%string [first_entry (n ++ ".fits")%string]).

Definition pool_two_jobs : JobPool :=
  mk_pool [job_first "a"; job_first "b"] ["a.fits"; "b.fits"].

Definition world_one_log : world :=
  mk_world {[ "a.log" := [entry_str (first_entry "a.fits")] ]} [] ∅ ∅.

Definition world_two_logs : world :=
  mk_world
    (<["b.log" := [entry_str (first_entry "b.fits")]]>
       (<["a.log" := [entry_str (first_entry "a.fits")]]> ∅))
    [] ∅ ∅.

(** The text of a log with its first entry. *)
Definition log_text_one : string :=
  (entry_str (first_entry "a.fits") ++ nl)%string.

(** A log that holds a comment and a blank line and nothing else. *)
Definition world_empty_log : world :=
  mk_world {[ "e.log" := ["# log of job e"; "   "] ]} [] ∅ ∅.

End MoreFixtures.

(* ===================================================================== *)
(** * Stepping through computations *)
(* ===================================================================== *)

Module PyFacts.

Lemma bind_run {S A B} (c : M S A) (k : A -> M S B) s a s' :
  c s = (Ok a, s') -> Py.bind c k s = k a s'.
Proof. intros H. unfold Py.bind. now rewrite H. Qed.

Lemma bind_raise {S A B} (c : M S A) (k : A -> M S B) s e s' :
  c s = (Raise e, s') -> Py.bind c k s = (Raise e, s').
Proof. intros H. unfold Py.bind. now rewrite H. Qed.

Lemma for_each_invariant {S A} (P : S -> Prop) (body : A -> M S unit) xs :
  (forall x s, P s -> P (snd (body x s))) ->
  forall s, P s -> P (snd (for_each xs body s)).
Proof.
  intros Hbody. induction xs as [|x xs IH]; intros s Hs; [exact Hs|].
  cbn [for_each]. unfold Py.bind.
  specialize (Hbody x s Hs).
  destruct (body x s) as [[[]|e] s']; cbn [snd] in *; [now apply IH | exact Hbody].
Qed.

End PyFacts.

(* ===================================================================== *)
(** * Properties of the store *)
(* ===================================================================== *)

Module JobtrackerProofs.
Import Text Jobtracker JobtrackerSpec Fixtures.

Lemma execute_effect q fetchone c :
  statement_effect q fetchone (c_db c) (c_db (execute q c))
    (results_of fetchone (execute q c)).
Proof.
  destruct c as [[rs ds ats] l rows]. destruct q; split; reflexivity.
Qed.

Lemma run_batch_nil fetchone d :
  c_db (run_batch [] d) = d
  /\ results_of fetchone (run_batch [] d) = fetched fetchone [].
Proof. split; reflexivity. Qed.

Lemma run_batch_snoc queries q d :
  run_batch (queries ++ [q]) d = execute q (run_batch queries d).
Proof. unfold run_batch. now rewrite fold_left_app. Qed.

(** The warning counter: from a count between 1 and 60 the warnings fall
    every sixtieth failure. *)
Lemma warnings_after_period n :
  forall count, 1 <= count <= 60 ->
    warnings_after count n = (n + count - 1) / 60.
Proof.
  induction n as [|n IH]; intros count Hc; cbn [warnings_after].
  - replace (0 + count - 1) with (count - 1) by lia.
    symmetry. apply Nat.div_small. lia.
  - destruct (59 <? count) eqn:E.
    + apply Nat.ltb_lt in E. assert (count = 60) by lia. subst count.
      rewrite IH by lia.
      replace (S n + 60 - 1) with ((n + 1 - 1) + 1 * 60) by lia.
      rewrite Nat.div_add by lia. lia.
    + apply Nat.ltb_ge in E. rewrite IH by lia.
      f_equal. lia.
Qed.

Lemma warnings_after_0 n : warnings_after 0 n = (n - 1) / 60.
Proof.
  destruct n as [|n]; cbn [warnings_after]; [reflexivity|].
  change (59 <? 0) with false. cbv iota.
  rewrite warnings_after_period by lia. f_equal. lia.
Qed.

Lemma query_loop_returns faults queries fetchone n :
  forall fuel pass count s,
    (forall k, k < n -> faults (pass + k) <> None) ->
    faults (pass + n) = None ->
    n < fuel ->
    exists lines,
      query_loop fuel faults pass count queries fetchone s
      = Some (results_of fetchone (run_batch queries (durable s)),
              {| durable := c_db (run_batch queries (durable s));
                 slept := slept s + n;
                 printed := (printed s ++ lines)%list |})
      /\ length lines = warnings_after count n.
Proof.
  induction n as [|n IH]; intros fuel pass count s Hfail Hok Hfuel.
  - destruct fuel as [|fuel]; [lia|].
    exists []. rewrite Nat.add_0_r in Hok. simpl. rewrite Hok. simpl.
    rewrite Nat.add_0_r, app_nil_r. split; reflexivity.
  - destruct fuel as [|fuel]; [lia|].
    assert (Hp : faults pass <> None).
    { specialize (Hfail 0). rewrite Nat.add_0_r in Hfail. apply Hfail. lia. }
    destruct (faults pass) as [e|] eqn:Ee; [|congruence].
    cbn [query_loop transaction]. rewrite Ee. cbn [transaction fst snd from_option id].
    cbv zeta. unfold id. destruct (59 <? count) eqn:Ew; cbv iota.
    + edestruct (IH fuel (S pass) 1
                   {| durable := durable s; slept := slept s + 1;
                      printed := (printed s ++ [minute_warning e])%list |})
        as (lines & Hrun & Hlen).
      * intros k Hk. replace (S pass + k) with (pass + S k) by lia.
        apply Hfail. lia.
      * replace (S pass + n) with (pass + S n) by lia. exact Hok.
      * lia.
      * exists (minute_warning e :: lines). split.
        -- rewrite Hrun. cbn [durable slept printed].
           rewrite <- app_assoc. simpl. do 3 f_equal. lia.
        -- simpl. rewrite Ew. now rewrite Hlen.
    + edestruct (IH fuel (S pass) (S count)
                   {| durable := durable s; slept := slept s + 1;
                      printed := printed s |})
        as (lines & Hrun & Hlen).
      * intros k Hk. replace (S pass + k) with (pass + S k) by lia.
        apply Hfail. lia.
      * replace (S pass + n) with (pass + S n) by lia. exact Hok.
      * lia.
      * exists lines. split.
        -- rewrite Hrun. cbn [durable slept printed]. do 3 f_equal. lia.
        -- simpl. rewrite Ew. exact Hlen.
Qed.

Lemma query_loop_never_gives_up faults queries fetchone fuel :
  forall pass count s,
    (forall k, faults k <> None) ->
    query_loop fuel faults pass count queries fetchone s = None.
Proof.
  induction fuel as [|fuel IH]; intros pass count s Hall; [reflexivity|].
  specialize (Hall pass) as Hp.
  destruct (faults pass) as [e|] eqn:Ee; [|congruence].
  cbn [query_loop]. rewrite Ee. cbn [transaction]. now apply IH.
Qed.

(** C7.  One call of [query] that meets [n] lock errors in a row before a
    pass goes through (given fuel for [n + 1] passes): it returns, having
    slept one second per failure and printed a warning at the 61st failure
    and every 60th after (none up to 60 failures).  What it leaves and
    returns is the whole batch run once on the data as committed at the
    call, nothing of the interrupted passes being left behind: an empty
    batch leaves the data and fetches no row, and a batch that ends with
    the statement [q] leaves and returns what [q] does on the data the
    batch before [q] leaves, the last insert id when [q] is an INSERT and
    the fetched rows otherwise.  While every pass fails the call never
    returns. *)
Theorem query_contract (faults : nat -> option fault) (n fuel : nat)
    (queries : list stmt) (fetchone : bool) (s : store) :
  (forall k, k < n -> faults k <> None) ->
  faults n = None ->
  n < fuel ->
  (exists r s',
     query fuel faults queries fetchone s = Some (r, s')
     /\ slept s' = slept s + n
     /\ length (printed s') = length (printed s) + (n - 1) / 60
     /\ (n <= 60 -> printed s' = printed s)
     /\ (queries = [] ->
         durable s' = durable s /\ r = fetched fetchone [])
     /\ (forall qs q, queries = (qs ++ [q])%list ->
         exists r0 s0,
           query fuel faults qs fetchone s = Some (r0, s0)
           /\ statement_effect q fetchone (durable s0) (durable s') r))
  /\ (forall always_locked fuel',
        (forall k, always_locked k <> None) ->
        query fuel' always_locked queries fetchone s = None).
Proof.
  intros Hfail Hok Hfuel. split.
  - destruct (query_loop_returns faults queries fetchone n fuel 0 0 s)
      as (lines & Hrun & Hlen); auto.
    rewrite warnings_after_0 in Hlen.
    eexists _, _. split; [exact Hrun|]. cbn [durable slept printed].
    split; [reflexivity|]. split; [rewrite length_app; lia|].
    split; [|split].
    + intros Hn. assert (Hz : (n - 1) / 60 = 0) by (apply Nat.div_small; lia).
      rewrite Hz in Hlen. destruct lines; [apply app_nil_r | discriminate].
    + intros ->. apply run_batch_nil.
    + intros qs q ->.
      destruct (query_loop_returns faults qs fetchone n fuel 0 0 s)
        as (lines0 & Hrun0 & _); auto.
      eexists _, _. split; [exact Hrun0|]. cbn [durable].
      rewrite run_batch_snoc. apply execute_effect.
  - intros always_locked fuel' Hall. unfold query.
    now apply query_loop_never_gives_up.
Qed.

Lemma query_contract_witness :
  (forall k, k < 2 -> locked_twice k <> None)
  /\ locked_twice 2 = None
  /\ 2 < 3
  /\ query 3 locked_twice one_attempt_insert false
       (mk_store (mk_db [] three_downloads []) 0 [])
     = Some (LastRowId 1,
             mk_store
               (mk_db [] three_downloads [mk_attempt 1 7 None None "t0" "t0"])
               2 []).
Proof.
  assert (H1 : forall k, k < 2 -> locked_twice k <> None).
  { intros k Hk. destruct k as [|[|k]]; simpl; [discriminate|discriminate|lia]. }
  assert (H2 : locked_twice 2 = None) by reflexivity.
  assert (H3 : 2 < 3) by lia.
  split; [exact H1|]. split; [exact H2|]. split; [exact H3|].
  destruct (query_contract locked_twice 2 3 one_attempt_insert false
              (mk_store (mk_db [] three_downloads []) 0 []) H1 H2 H3)
    as [(r & s' & Hrun & Hslept & _ & Hprint & _ & Hlast) _].
  destruct (Hlast [UPDATE_downloads (fun d => d) (fun _ => true)]
              (INSERT_download_attempts
                 (fun i => mk_attempt i 7 None None "t0" "t0")) eq_refl)
    as (r0 & s0 & Hrun0 & Heff).
  destruct (query_contract locked_twice 2 3
              [UPDATE_downloads (fun d => d) (fun _ => true)] false
              (mk_store (mk_db [] three_downloads []) 0 []) H1 H2 H3)
    as [(r1 & s1 & Hrun1 & _ & _ & _ & _ & Hlast1) _].
  destruct (Hlast1 [] (UPDATE_downloads (fun d => d) (fun _ => true)) eq_refl)
    as (r2 & s2 & Hrun2 & Heff1).
  destruct (query_contract locked_twice 2 3 [] false
              (mk_store (mk_db [] three_downloads []) 0 []) H1 H2 H3)
    as [(r3 & s3 & Hrun3 & _ & _ & _ & Hnil & _) _].
  destruct (Hnil eq_refl) as [Hd3 _].
  rewrite Hrun3 in Hrun2. injection Hrun2 as _ <-.
  rewrite Hrun1 in Hrun0. injection Hrun0 as _ <-.
  cbn [statement_effect] in Heff1, Heff. destruct Heff1 as [Hd1 _].
  rewrite Hd3 in Hd1. cbn [durable requests downloads download_attempts] in Hd1.
  destruct Heff as [Hd Hr]. rewrite Hd1 in Hd, Hr.
  cbn [requests downloads download_attempts map app list_max fold_right
       Nat.max] in Hd, Hr.
  rewrite Hrun. destruct s' as [d' sl pr].
  cbn [durable slept printed] in *. subst d' r sl.
  rewrite (Hprint ltac:(lia)). reflexivity.
Defined.

End JobtrackerProofs.

(* ===================================================================== *)
(** * Properties of the download orchestrator *)
(* ===================================================================== *)

Module DownloaderProofs.
Import Text Jobtracker Downloader DownloaderSpec Fixtures PyFacts.

(** ** What the single-statement calls do *)

Lemma request_rows_fetchall l : request_rows (FetchAll (map RRequest l)) = l.
Proof. induction l as [|a l IH]; [reflexivity|]. cbn. f_equal. exact IH. Qed.

Lemma download_rows_fetchall l : download_rows (FetchAll (map RDownload l)) = l.
Proof. induction l as [|a l IH]; [reflexivity|]. cbn. f_equal. exact IH. Qed.

Lemma attempt_rows_fetchall l : attempt_rows (FetchAll (map RAttempt l)) = l.
Proof. induction l as [|a l IH]; [reflexivity|]. cbn. f_equal. exact IH. Qed.

Lemma select_requests_run w d :
  select_requests w d = (Ok (List.filter w (requests d)), d).
Proof.
  unfold select_requests.
  erewrite bind_run by (unfold query1, committed; reflexivity).
  unfold Py.ret. f_equal. f_equal. apply request_rows_fetchall.
Qed.

Lemma select_downloads_run w d :
  select_downloads w d = (Ok (List.filter w (downloads d)), d).
Proof.
  unfold select_downloads.
  erewrite bind_run by (unfold query1, committed; reflexivity).
  unfold Py.ret. f_equal. f_equal. apply download_rows_fetchall.
Qed.

Lemma select_download_attempts_run w d :
  select_download_attempts w d = (Ok (List.filter w (download_attempts d)), d).
Proof.
  unfold select_download_attempts.
  erewrite bind_run by (unfold query1, committed; reflexivity).
  unfold Py.ret. f_equal. f_equal. apply attempt_rows_fetchall.
Qed.

Lemma update_requests_run f w d :
  update_requests f w d
  = (Ok tt, {| requests := update f w (requests d);
               downloads := downloads d;
               download_attempts := download_attempts d |}).
Proof. reflexivity. Qed.

Lemma update_downloads_run f w d :
  update_downloads f w d
  = (Ok tt, {| requests := requests d;
               downloads := update f w (downloads d);
               download_attempts := download_attempts d |}).
Proof. reflexivity. Qed.

Lemma update_download_attempts_run f w d :
  update_download_attempts f w d
  = (Ok tt, {| requests := requests d;
               downloads := downloads d;
               download_attempts := update f w (download_attempts d) |}).
Proof. reflexivity. Qed.

Lemma insert_download_attempt_run v d :
  insert_download_attempt v d
  = (Ok (fresh_id (map at_id (download_attempts d))),
     {| requests := requests d;
        downloads := downloads d;
        download_attempts :=
          (download_attempts d
             ++ [v (fresh_id (map at_id (download_attempts d)))])%list |}).
Proof. reflexivity. Qed.

Lemma insert_download_run v d :
  insert_download v d
  = (Ok (fresh_id (map dl_id (downloads d))),
     {| requests := requests d;
        downloads :=
          (downloads d ++ [v (fresh_id (map dl_id (downloads d)))])%list;
        download_attempts := download_attempts d |}).
Proof. reflexivity. Qed.

Lemma dict_is_empty_true {V} (m : gmap string V) :
  dict_is_empty m = true <-> m = ∅.
Proof.
  unfold dict_is_empty. rewrite <- map_to_list_empty_iff.
  destruct (map_to_list m); split; intros; congruence.
Qed.

(** ** restore.is_finished *)

Section IsFinished.

Variable numretries : nat.
Variable now : string.

Lemma failed_loop_returns_run l d :
  failed_loop_returns numretries l d = (Ok (existsb (over_ceiling numretries d) l), d).
Proof.
  induction l as [|x l IH]; [reflexivity|].
  cbn [failed_loop_returns existsb].
  erewrite bind_run by apply select_download_attempts_run.
  unfold over_ceiling at 1, attempt_count, attempts_of.
  destruct (numretries <? _); [reflexivity | exact IH].
Qed.

Lemma is_finished_run self r d :
  values self = Some r ->
  is_finished numretries now self d
  = if decides_finished numretries self (rq_id r) d
    then (Ok true, mark_finished now (rq_id r) d)
    else (Ok false, d).
Proof.
  intros Hv. unfold is_finished, values_id, decides_finished. rewrite Hv.
  erewrite bind_run by reflexivity.
  repeat (erewrite bind_run by apply select_downloads_run).
  unfold downloads_under.
  destruct (0 <? length _); [reflexivity|].
  destruct (_ && dict_is_empty _); [reflexivity|].
  destruct (length _ =? length _); [reflexivity|].
  erewrite bind_run by apply failed_loop_returns_run.
  destruct (existsb _ _); reflexivity.
Qed.

End IsFinished.

(** ** The completion decision against the completion rule *)

Lemma filter_andb {A} (p q : A -> bool) l :
  List.filter (fun x => p x && q x) l = List.filter q (List.filter p l).
Proof.
  induction l as [|a l IH]; simpl; [reflexivity|].
  destruct (p a); simpl; [destruct (q a); now rewrite IH | exact IH].
Qed.

Lemma filter_all {A} (q : A -> bool) l :
  Forall (fun x => q x = true) l -> List.filter q l = l.
Proof.
  induction 1 as [|a l Ha _ IH]; simpl; [reflexivity|].
  rewrite Ha. now rewrite IH.
Qed.

Lemma filter_none {A} (q : A -> bool) l :
  Forall (fun x => q x <> true) l -> List.filter q l = [].
Proof.
  induction 1 as [|a l Ha _ IH]; simpl; [reflexivity|].
  destruct (q a); [congruence | exact IH].
Qed.

Lemma filter_nil_none {A} (q : A -> bool) l :
  List.filter q l = [] -> Forall (fun x => q x <> true) l.
Proof.
  induction l as [|a l IH]; simpl; intros H; [constructor|].
  destruct (q a) eqn:E; [discriminate|].
  constructor; [congruence | now apply IH].
Qed.

Lemma existsb_false_Forall {A} (q : A -> bool) l :
  Forall (fun x => q x = false) l -> existsb q l = false.
Proof.
  induction 1 as [|a l Ha _ IH]; simpl; [reflexivity|]. now rewrite Ha.
Qed.

Lemma Forall_filter_weaken {A} (P : A -> Prop) (q : A -> bool) l :
  Forall (fun x => q x = true -> P x) l -> Forall P (List.filter q l).
Proof.
  induction 1 as [|a l Ha _ IH]; simpl; [constructor|].
  destruct (q a) eqn:E; [constructor; auto | exact IH].
Qed.

Section Completion.

Variable numretries : nat.
Variable now : string.

Lemma decides_downloading self id d :
  ~ none_downloading id d -> decides_finished numretries self id d = false.
Proof.
  intros Hn. unfold decides_finished.
  rewrite (filter_andb _ (fun x => like (dl_status x) "downloading")).
  fold (downloads_under id d).
  destruct (List.filter _ (downloads_under id d)) eqn:E; [|reflexivity].
  exfalso. apply Hn. unfold none_downloading, has_status.
  now apply filter_nil_none in E.
Qed.

Lemma decides_no_rows self id d :
  downloads_under id d = [] -> downloaders self = ∅ ->
  decides_finished numretries self id d = false.
Proof.
  intros Hrows Hdls. unfold decides_finished. rewrite Hrows.
  assert (He : dict_is_empty (downloaders self) = true)
    by now apply dict_is_empty_true.
  rewrite He. simpl. now rewrite andb_false_r.
Qed.

Lemma decides_rule self id d :
  none_downloading id d ->
  downloads_under id d <> [] \/ downloaders self <> ∅ ->
  all_downloaded id d
  \/ (failed_all_exhausted numretries id d /\ retry_bound numretries d) ->
  decides_finished numretries self id d = true.
Proof.
  intros Hnone Hsome Hrule. unfold decides_finished.
  rewrite !(filter_andb (fun x => dl_request_id x =? id)).
  fold (downloads_under id d).
  rewrite (filter_none (fun x => like (dl_status x) "downloading"))
    by exact Hnone.
  assert (Hguard : (length (downloads_under id d) =? 0)
                   && dict_is_empty (downloaders self) = false).
  { destruct Hsome as [Hrows | Hdls].
    - destruct (downloads_under id d); [congruence | reflexivity].
    - destruct (dict_is_empty (downloaders self)) eqn:E.
      + apply dict_is_empty_true in E. congruence.
      + apply andb_false_r. }
  rewrite Hguard. simpl.
  destruct Hrule as [Hall | [Hfailed Hbound]].
  - rewrite (filter_all (fun x => like (dl_status x) "downloaded"))
      by exact Hall.
    now rewrite Nat.eqb_refl.
  - rewrite (existsb_false_Forall (over_ceiling numretries d)).
    + apply orb_true_r.
    + apply Forall_forall. intros x _. unfold over_ceiling.
      apply Nat.ltb_ge. apply Hbound.
Qed.

Lemma mark_finished_persisted id d :
  persisted_status (mark_finished now id d) id "finished".
Proof.
  intros r Hin Hid. unfold mark_finished, update in Hin. simpl in Hin.
  apply in_map_iff in Hin as (r0 & Hr & _).
  destruct (rq_id r0 =? id) eqn:E; subst r; [reflexivity|].
  apply Nat.eqb_neq in E. congruence.
Qed.

End Completion.

Lemma tracked_without_rows id (dls : gmap string downloader) d :
  tracked_from_rows id dls d -> downloads_under id d = [] -> dls = ∅.
Proof.
  intros Ht Hrows. apply map_empty. intros f.
  destruct (dls !! f) as [w|] eqn:Ef; [|reflexivity].
  exfalso. destruct (Ht f w Ef) as (j & _ & Hk).
  unfold download_keys in Hk. apply in_map_iff in Hk as (x & Hx & Hin).
  injection Hx as _ Hid _.
  assert (H : In x (downloads_under id d)).
  { unfold downloads_under. apply filter_In. split; [exact Hin|].
    now apply Nat.eqb_eq. }
  rewrite Hrows in H. destruct H.
Qed.

(** C10.  A ready Request with no Download row in the store: if its restore
    object tracks no download worker, the completion evaluation answers not
    finished and the store, hence the persisted status, is as it was.  The
    same holds in any state where the tracked workers all stem from Download
    rows of this Request, as [download] leaves them: without rows there is
    then no worker, live or dead. *)
Theorem is_finished_without_rows (numretries : nat) (now : string)
    (self : restore) (r : request_row) (d : db) :
  values self = Some r ->
  rq_status r = "ready" ->
  downloads_under (rq_id r) d = [] ->
  (downloaders self = ∅ ->
   is_finished numretries now self d = (Ok false, d))
  /\ (tracked_from_rows (rq_id r) (downloaders self) d ->
      downloaders self = ∅
      /\ is_finished numretries now self d = (Ok false, d)).
Proof.
  intros Hv _ Hrows.
  rewrite (is_finished_run numretries now self r d Hv).
  assert (H : downloaders self = ∅ ->
              (if decides_finished numretries self (rq_id r) d
               then (Ok true, mark_finished now (rq_id r) d)
               else (Ok false, d)) = (Ok false, d)).
  { intros Hdls. now rewrite decides_no_rows. }
  split; [exact H|].
  intros Ht.
  assert (Hdls : downloaders self = ∅)
    by (eapply tracked_without_rows; eassumption).
  split; [exact Hdls | now apply H].
Qed.

Lemma is_finished_without_rows_witness :
  values fresh_restore = Some ready_request
  /\ rq_status ready_request = "ready"
  /\ downloads_under (rq_id ready_request) store_ready_only = []
  /\ downloaders fresh_restore = ∅
  /\ is_finished 3 "t1" fresh_restore store_ready_only
     = (Ok false, store_ready_only).
Proof.
  split; [reflexivity|]. split; [reflexivity|].
  split; [reflexivity|]. split; [reflexivity|].
  destruct (is_finished_without_rows 3 "t1" fresh_restore ready_request
              store_ready_only eq_refl eq_refl eq_refl) as [H _].
  apply H. reflexivity.
Defined.

(** C1, as stated, fails on a ready Request without Download rows and
    without workers: every Download under it is downloaded (there is none),
    so the rule holds, yet the evaluation answers not finished. *)
Lemma completion_rule_not_exact :
  values fresh_restore = Some ready_request
  /\ rq_status ready_request = "ready"
  /\ completion_rule 3 (rq_id ready_request) store_ready_only
  /\ is_finished 3 "t1" fresh_restore store_ready_only
     = (Ok false, store_ready_only).
Proof.
  split; [reflexivity|]. split; [reflexivity|].
  split; [left; constructor | reflexivity].
Qed.

(** C1, amended.  For a ready Request the completion evaluation
    - answers not finished and leaves the store alone while some Download
      under it is downloading, and also when it has no Download row and no
      worker;
    - otherwise (none downloading, a row or a worker present) marks the
      persisted Request finished when every Download under it is
      downloaded, and also when every failed Download has used up its
      retries, no Download holding more Attempts than the ceiling.
    What it does for a failed Download that still has retries left is not
    covered. *)
Theorem is_finished_completion (numretries : nat) (now : string)
    (self : restore) (r : request_row) (d : db) :
  values self = Some r ->
  rq_status r = "ready" ->
  (~ none_downloading (rq_id r) d ->
   is_finished numretries now self d = (Ok false, d))
  /\ (downloads_under (rq_id r) d = [] -> downloaders self = ∅ ->
      is_finished numretries now self d = (Ok false, d))
  /\ (none_downloading (rq_id r) d ->
      downloads_under (rq_id r) d <> [] \/ downloaders self <> ∅ ->
      all_downloaded (rq_id r) d
      \/ (failed_all_exhausted numretries (rq_id r) d
          /\ retry_bound numretries d) ->
      is_finished numretries now self d
      = (Ok true, mark_finished now (rq_id r) d)
      /\ persisted_status (mark_finished now (rq_id r) d) (rq_id r) "finished").
Proof.
  intros Hv _. rewrite (is_finished_run numretries now self r d Hv).
  repeat split.
  - intros H. now rewrite decides_downloading.
  - intros H1 H2. now rewrite decides_no_rows.
  - now rewrite decides_rule.
  - apply mark_finished_persisted.
Qed.

Lemma store_exhausted_bound : retry_bound 3 store_exhausted.
Proof.
  intros i. unfold attempt_count, attempts_of. simpl.
  destruct i as [|[|[|[|i]]]]; simpl; lia.
Qed.

Lemma is_finished_completion_witness :
  values fresh_restore = Some ready_request
  /\ rq_status ready_request = "ready"
  /\ is_finished 3 "t4" fresh_restore store_exhausted
     = (Ok true, mark_finished "t4" 1 store_exhausted).
Proof.
  split; [reflexivity|]. split; [reflexivity|].
  apply (is_finished_completion 3 "t4" fresh_restore ready_request
           store_exhausted eq_refl eq_refl).
  - repeat constructor; unfold has_status; simpl; discriminate.
  - left. discriminate.
  - right. split; [|exact store_exhausted_bound].
    repeat constructor; unfold has_status, exhausted; simpl;
      intros; try discriminate; lia.
Defined.

(** The comparison in the loop over failed Downloads asks for more
    Attempts than the ceiling, not fewer: a Download failed once, with two
    retries left and nothing downloading, already lets the Request be marked
    finished. *)
Example is_finished_below_ceiling :
  attempt_count store_failed_once 3 = 1
  /\ is_finished 3 "t4" fresh_restore store_failed_once
     = (Ok true, mark_finished "t4" 1 store_failed_once).
Proof. split; reflexivity. Qed.

(** ** DownloadModule.recover *)








(** ** restore.download: Attempt rows and the retry ceiling *)

Lemma attempt_count_keys d i :
  attempt_count d i
  = length (List.filter (fun k => snd k =? i) (attempt_keys d)).
Proof.
  unfold attempt_count, attempts_of, attempt_keys.
  induction (download_attempts d) as [|a l IH]; simpl; [reflexivity|].
  destruct (at_download_id a =? i); simpl; now rewrite IH.
Qed.

Lemma attempt_count_same_keys d d' :
  attempt_keys d' = attempt_keys d ->
  forall i, attempt_count d' i = attempt_count d i.
Proof. intros H i. now rewrite !attempt_count_keys, H. Qed.

Lemma update_set_attempt_keys status details now w l :
  map (fun a => (at_id a, at_download_id a))
      (update (set_attempt status details now) w l)
  = map (fun a => (at_id a, at_download_id a)) l.
Proof.
  unfold update. rewrite map_map. apply map_ext.
  intros a. now destruct (w a).
Qed.

Lemma fresh_id_not_in ids : ~ In (fresh_id ids) ids.
Proof.
  unfold fresh_id. intros Hin.
  assert (H : Forall (fun k => k <= list_max ids) ids)
    by now apply list_max_le.
  rewrite Forall_forall in H. apply list_elem_of_In in Hin.
  specialize (H _ Hin). lia.
Qed.

Lemma grows_refl numretries d : grows_under_ceiling numretries d d.
Proof. repeat split; auto; lia. Qed.

Lemma grows_same_keys numretries d d' :
  attempt_keys d' = attempt_keys d -> grows_under_ceiling numretries d d'.
Proof.
  intros H. repeat split.
  - intros i. rewrite (attempt_count_same_keys d d' H). lia.
  - intros i. rewrite (attempt_count_same_keys d d' H). lia.
  - intros i. rewrite (attempt_count_same_keys d d' H). lia.
  - intros k. now rewrite H.
Qed.

Lemma grows_trans numretries d1 d2 d3 :
  grows_under_ceiling numretries d1 d2 ->
  grows_under_ceiling numretries d2 d3 ->
  grows_under_ceiling numretries d1 d3.
Proof.
  intros (A1 & B1 & M1 & C1) (A2 & B2 & M2 & C2). repeat split.
  - intros i. specialize (A1 i). specialize (A2 i). lia.
  - intros i H. specialize (A1 i). specialize (B1 i). specialize (B2 i). lia.
  - intros i. specialize (M1 i). specialize (M2 i). lia.
  - auto.
Qed.

Lemma started_weaken numretries d1 d2 d3 d4 w :
  grows_under_ceiling numretries d1 d2 ->
  grows_under_ceiling numretries d3 d4 ->
  started_below_ceiling numretries d2 d3 w ->
  started_below_ceiling numretries d1 d4 w.
Proof.
  intros (A1 & _ & _ & C1) (_ & _ & _ & C4) (j & Hin & Hnew & Hlt).
  exists j. repeat split.
  - now apply C4.
  - intros H. apply Hnew. apply in_map_iff in H as (k & Hk & Hin1).
    apply in_map_iff. exists k. split; [exact Hk | now apply C1].
  - specialize (A1 j). lia.
Qed.

Section Download.

Variable numretries : nat.
Variable temp : string.
Variable now : string.
Variable poll : downloader -> thread_view.
Variable stat : string -> option nat.

(** One new Attempt row for a Download below the ceiling. *)
Lemma insert_attempt_grows d x :
  attempt_count d (dl_id x) < numretries ->
  let a i := {| at_id := i; at_download_id := dl_id x; at_status := None;
                at_details := None; at_created_at := now;
                at_updated_at := now |} in
  let d' := {| requests := requests d; downloads := downloads d;
               download_attempts :=
                 (download_attempts d
                    ++ [a (fresh_id (map at_id (download_attempts d)))])%list |} in
  grows_under_ceiling numretries d d'
  /\ In (fresh_id (map at_id (download_attempts d)), dl_id x) (attempt_keys d')
  /\ ~ In (fresh_id (map at_id (download_attempts d))) (map fst (attempt_keys d)).
Proof.
  intros Hlt a d'.
  assert (Hk : attempt_keys d'
               = (attempt_keys d
                    ++ [(fresh_id (map at_id (download_attempts d)), dl_id x)])%list).
  { unfold attempt_keys, d'. cbn [download_attempts]. now rewrite map_app. }
  assert (Hc : forall i, attempt_count d' i
               = attempt_count d i + (if dl_id x =? i then 1 else 0)).
  { intros i. rewrite !attempt_count_keys, Hk, List.filter_app, length_app.
    simpl. destruct (dl_id x =? i); reflexivity. }
  split; [|split].
  - repeat split.
    + intros i. rewrite Hc. lia.
    + intros i. rewrite Hc. destruct (dl_id x =? i) eqn:E; [|lia].
      apply Nat.eqb_eq in E. subst i. intros _. exact Hlt.
    + intros i. rewrite Hc. destruct (dl_id x =? i) eqn:E; [|lia].
      apply Nat.eqb_eq in E. subst i. lia.
    + intros k Hin. rewrite Hk. apply in_or_app. now left.
  - rewrite Hk. apply in_or_app. right. now left.
  - unfold attempt_keys. rewrite map_map. cbn [fst].
    apply fresh_id_not_in.
Qed.

Lemma start_downloaders_run guid_ rows :
  forall dls d,
  exists dls' d',
    start_downloaders numretries now guid_ rows dls d = (Ok dls', d')
    /\ grows_under_ceiling numretries d d'
    /\ (forall f w, dls' !! f = Some w ->
          dls !! f = Some w \/ started_below_ceiling numretries d d' w).
Proof.
  induction rows as [|x rows IH]; intros dls d; cbn [start_downloaders].
  - exists dls, d. split; [reflexivity|]. split; [apply grows_refl | auto].
  - erewrite bind_run by apply select_download_attempts_run.
    fold (attempts_of d (dl_id x)). fold (attempt_count d (dl_id x)).
    destruct (negb (dict_has (dl_remote_filename x) dls)); [|apply IH].
    destruct (attempt_count d (dl_id x) <? numretries) eqn:Elt; [|apply IH].
    apply Nat.ltb_lt in Elt.
    erewrite bind_run by apply insert_download_attempt_run.
    destruct (insert_attempt_grows d x Elt) as (Hg & Hin & Hnew).
    match goal with
    | |- context [start_downloaders _ _ _ _ ?dls1 ?d1] =>
        destruct (IH dls1 d1) as (dls' & d' & Hrun & Hg' & Hw)
    end.
    exists dls', d'. split; [exact Hrun|]. split.
    + eapply grows_trans; eassumption.
    + intros f w Hf. destruct (Hw f w Hf) as [Hold | Hst].
      * destruct (decide (dl_remote_filename x = f)) as [Heq|Hne].
        -- rewrite Heq, lookup_insert_eq in Hold. injection Hold as <-.
           right. eapply (started_weaken numretries d d _ d');
             [apply grows_refl | exact Hg' |].
           exists (dl_id x). cbn [attempt_id]. repeat split; assumption.
        -- rewrite lookup_insert_ne in Hold by exact Hne. now left.
      * right. eapply started_weaken; [exact Hg | apply grows_refl | exact Hst].
Qed.

End Download.

Section Reconcile.

Variable numretries : nat.
Variable temp : string.
Variable now : string.
Variable poll : downloader -> thread_view.
Variable stat : string -> option nat.

Lemma create_dl_entries_attempts self d :
  download_attempts (snd (create_dl_entries temp now self d))
  = download_attempts d.
Proof.
  unfold create_dl_entries.
  apply (for_each_invariant
           (fun s => download_attempts s = download_attempts d));
    [|reflexivity].
  intros [filename filesize] s Hs.
  unfold values_id. destruct (values self) as [r|]; [|exact Hs].
  erewrite bind_run by reflexivity.
  erewrite bind_run by apply select_downloads_run.
  destruct (length _ =? 0); [|exact Hs].
  erewrite bind_run by apply insert_download_run. exact Hs.
Qed.

Lemma downloaded_size_match_store id d :
  snd (downloaded_size_match stat id d) = d.
Proof.
  unfold downloaded_size_match.
  erewrite bind_run by apply select_download_attempts_run.
  destruct (List.filter _ (download_attempts d)) as [|a ?]; [reflexivity|].
  erewrite bind_run by apply select_downloads_run.
  destruct (List.filter _ (downloads d)) as [|x ?]; [reflexivity|].
  destruct (stat (dl_filename x)); reflexivity.
Qed.

Lemma record_outcome_run status w filename d :
  record_outcome now poll status w filename d
  = (Ok tt,
     {| requests := requests d;
        downloads :=
          update (set_download status (strip_quotes (w_details (poll w))) now)
                 (fun x => String.eqb (dl_remote_filename x) filename)
                 (downloads d);
        download_attempts :=
          update (set_attempt status (strip_quotes (w_details (poll w))) now)
                 (fun a => at_id a =? attempt_id w)
                 (download_attempts d) |}).
Proof. reflexivity. Qed.

Lemma record_outcome_keys status w filename d :
  attempt_keys (snd (record_outcome now poll status w filename d))
  = attempt_keys d.
Proof.
  rewrite record_outcome_run. unfold attempt_keys. cbn [snd download_attempts].
  apply update_set_attempt_keys.
Qed.

Lemma reconcile_keys filename dls d :
  attempt_keys (snd (reconcile now poll stat filename dls d)) = attempt_keys d
  /\ (forall dls', fst (reconcile now poll stat filename dls d) = Ok dls' ->
      forall f w, dls' !! f = Some w -> dls !! f = Some w).
Proof.
  unfold reconcile. destruct (dls !! filename) as [w|] eqn:Ew.
  2:{ split; [reflexivity | discriminate]. }
  destruct (alive (poll w)); cbn [negb].
  - erewrite bind_run by apply record_outcome_run.
    split; [apply (record_outcome_keys "downloading" w filename d)|].
    intros dls' H. injection H as <-. auto.
  - set (inner := if String.eqb (w_status (poll w)) "failed" then _ else _).
    assert (Hinner : attempt_keys (snd (inner d)) = attempt_keys d).
    { unfold inner.
      destruct (String.eqb (w_status (poll w)) "failed");
        [apply record_outcome_keys|].
      destruct (String.eqb (w_status (poll w)) "downloaded"); [|reflexivity].
      pose proof (downloaded_size_match_store (attempt_id w) d) as Hm.
      unfold Py.bind.
      destruct (downloaded_size_match stat (attempt_id w) d) as [[b|e] d1];
        cbn [snd] in Hm; subst d1; [|reflexivity].
      destruct b; apply record_outcome_keys. }
    unfold Py.bind. destruct (inner d) as [[[]|e] d1]; cbn [fst snd] in *.
    + split; [exact Hinner|]. intros dls' H f w0 Hf. injection H as <-.
      apply lookup_delete_Some in Hf. tauto.
    + split; [exact Hinner | discriminate].
Qed.

Lemma reconcile_loop_keys keys :
  forall dls d,
    attempt_keys (snd (reconcile_loop now poll stat keys dls d)) = attempt_keys d
    /\ (forall dls', fst (reconcile_loop now poll stat keys dls d) = Ok dls' ->
        forall f w, dls' !! f = Some w -> dls !! f = Some w).
Proof.
  induction keys as [|k keys IH]; intros dls d; cbn [reconcile_loop].
  - split; [reflexivity|]. intros dls' H. injection H as <-. auto.
  - destruct (reconcile_keys k dls d) as [Hk Hsub].
    unfold Py.bind.
    destruct (reconcile now poll stat k dls d) as [[dls1|e] d1];
      cbn [fst snd] in *.
    + destruct (IH dls1 d1) as [Hk' Hsub']. split; [congruence|].
      intros dls' H f w Hf. apply (Hsub dls1 eq_refl). eapply Hsub'; eauto.
    + split; [exact Hk | discriminate].
Qed.

(** The store and the thread table after [download]. *)
Lemma download_grows self d :
  exists o d',
    download numretries temp now poll stat self d = (o, d')
    /\ grows_under_ceiling numretries d d'
    /\ (forall self', o = Ok self' ->
        forall f w, downloaders self' !! f = Some w ->
          downloaders self !! f = Some w
          \/ started_below_ceiling numretries d d' w).
Proof.
  unfold download, values_id.
  destruct (values self) as [r|].
  2:{ eexists _, _. split; [reflexivity|].
      split; [apply grows_refl | intros ? H; discriminate H]. }
  erewrite bind_run by reflexivity.
  erewrite bind_run by apply select_downloads_run.
  set (create := if dict_is_empty (downloaders self)
                 then match List.filter _ (downloads d) with
                      | [] => create_dl_entries temp now self
                      | _ => Py.ret tt
                      end
                 else Py.ret tt).
  assert (Hc : download_attempts (snd (create d)) = download_attempts d).
  { unfold create. destruct (dict_is_empty _); [|reflexivity].
    destruct (List.filter _ (downloads d)); [|reflexivity].
    apply create_dl_entries_attempts. }
  destruct (create d) as [[[]|e] d1] eqn:Ecreate; cbn [snd] in Hc.
  2:{ erewrite bind_raise by exact Ecreate. eexists _, _.
      split; [reflexivity|]. split; [|intros ? H; discriminate H].
      apply grows_same_keys. unfold attempt_keys. now rewrite Hc. }
  erewrite bind_run by exact Ecreate.
  assert (G1 : grows_under_ceiling numretries d d1).
  { apply grows_same_keys. unfold attempt_keys. now rewrite Hc. }
  erewrite bind_run by reflexivity.
  erewrite bind_run by apply select_downloads_run.
  match goal with
  | |- context [start_downloaders _ _ ?g ?rows ?dls] =>
      destruct (start_downloaders_run numretries now g rows dls d1)
        as (dls2 & d2 & Hrun & G2 & Hw)
  end.
  erewrite bind_run by exact Hrun.
  destruct (reconcile_loop_keys (map fst (map_to_list dls2)) dls2 d2)
    as [Hk Hsub].
  assert (G3 : grows_under_ceiling numretries d2
                 (snd (reconcile_loop now poll stat
                         (map fst (map_to_list dls2)) dls2 d2)))
    by now apply grows_same_keys.
  destruct (reconcile_loop now poll stat (map fst (map_to_list dls2)) dls2 d2)
    as [[dls3|e] d3] eqn:Eloop; cbn [fst snd] in *.
  - erewrite bind_run by exact Eloop. eexists _, _.
    split; [reflexivity|]. split; [eauto using grows_trans|].
    intros self' H. injection H as <-. cbn [downloaders with_downloaders].
    intros f w Hf. specialize (Hsub dls3 eq_refl f w Hf).
    destruct (Hw f w Hsub) as [Hold|Hst]; [now left|].
    right. eapply started_weaken; eassumption.
  - erewrite bind_raise by exact Eloop. eexists _, _.
    split; [reflexivity|].
    split; [eauto using grows_trans | intros ? H; discriminate H].
Qed.

End Reconcile.

(** ** restore.download: where the tracked threads come from *)




Section Tracked.

Variable numretries : nat.
Variable temp : string.
Variable now : string.
Variable poll : downloader -> thread_view.
Variable stat : string -> option nat.







End Tracked.

(** C5.  Across one call of [download], whatever the threads and the disk
    look like: an Attempt row is added for a Download only if that Download
    had fewer Attempts than [numretries]; a Download at or above the ceiling
    gets none; so a store within the retry bound stays within it.  A worker
    in the thread table afterwards was either there before or comes with a
    new Attempt row of a Download that was below the ceiling. *)
Theorem download_respects_ceiling (numretries : nat) (temp now : string)
    (poll : downloader -> thread_view) (stat : string -> option nat)
    (self : restore) (d : db) :
  let after := download numretries temp now poll stat self d in
  (forall i, attempt_count d i < attempt_count (snd after) i ->
             attempt_count d i < numretries)
  /\ (forall i, numretries <= attempt_count d i ->
                attempt_count (snd after) i = attempt_count d i)
  /\ (retry_bound numretries d -> retry_bound numretries (snd after))
  /\ (forall self', fst after = Ok self' ->
      forall f w, downloaders self' !! f = Some w ->
        downloaders self !! f = Some w
        \/ started_below_ceiling numretries d (snd after) w).
Proof.
  intros after.
  destruct (download_grows numretries temp now poll stat self d)
    as (o & d' & Hrun & (Hle & Hnew & Hmax & _) & Hw).
  unfold after. rewrite Hrun. cbn [fst snd].
  split; [exact Hnew|]. split; [|split; [|exact Hw]].
  - intros i Hi. specialize (Hle i). specialize (Hnew i). lia.
  - intros Hb i. specialize (Hmax i). specialize (Hb i). lia.
Qed.

Lemma download_respects_ceiling_witness :
  retry_bound 3 store_exhausted
  /\ retry_bound 3
       (snd (download 3 "/data/" "t4" poll_alive stat_nothing fresh_restore
               store_exhausted)).
Proof.
  split; [exact store_exhausted_bound|].
  apply (download_respects_ceiling 3 "/data/" "t4" poll_alive stat_nothing
           fresh_restore store_exhausted).
  exact store_exhausted_bound.
Defined.

(** The two sides of the ceiling, computed with a ceiling of 3: the third
    file failed once and gets a second Attempt and a thread; failed three
    times it gets neither. *)
Example download_below_ceiling :
  let after := download 3 "/data/" "t4" poll_alive stat_nothing fresh_restore
                 store_failed_once in
  attempt_count store_failed_once 3 = 1
  /\ attempt_count (snd after) 3 = 2
  /\ (exists self', fst after = Ok self'
        /\ downloaders self' !! "c.fits"
           = Some (mk_downloader "9818e194a5db4f4d90aa706826d69907" "c.fits" 4)).
Proof.
  cbv zeta. split; [reflexivity|]. split; [reflexivity|].
  eexists. split; reflexivity.
Qed.

Example download_at_ceiling :
  let after := download 3 "/data/" "t4" poll_alive stat_nothing fresh_restore
                 store_exhausted in
  attempt_count store_exhausted 3 = 3
  /\ snd after = store_exhausted
  /\ (exists self', fst after = Ok self' /\ downloaders self' = ∅).
Proof.
  cbv zeta. split; [reflexivity|]. split; [reflexivity|].
  eexists. split; reflexivity.
Qed.

(** ** restore.download: reconciling a finished thread *)



Section Reconciled.

Variable now : string.
Variable poll : downloader -> thread_view.
Variable stat : string -> option nat.



End Reconciled.


(** The two outcomes computed: the complete file is accepted, the truncated
    one is turned into a failure. *)
Example reconcile_complete_file :
  map dl_status
    (downloads (snd (reconcile "t4" poll_done stat_complete "c.fits" table_c
                       store_third_running)))
  = ["downloaded"; "downloaded"; "downloaded"].
Proof. reflexivity. Qed.

Example reconcile_truncated_file :
  map dl_status
    (downloads (snd (reconcile "t4" poll_done stat_truncated "c.fits" table_c
                       store_third_running)))
  = ["downloaded"; "downloaded"; "failed"]
  /\ map at_status
       (download_attempts
          (snd (reconcile "t4" poll_done stat_truncated "c.fits" table_c
                  store_third_running)))
     = [Some "downloaded"; Some "downloaded"; Some "failed"].
Proof. split; reflexivity. Qed.

(** ** The downloader thread *)

(** While a call of the pass raises the loop goes on, one second of sleep
    per failure; it ends with the first pass that raises nothing. *)
Lemma login_loop_step (passes : nat -> ftp_pass) fuel i self :
  pass_raises (passes i) = true ->
  exists self',
    login_loop (S fuel) passes i self = login_loop fuel passes (S i) self'
    /\ th_slept self' = th_slept self + 1.
Proof.
  unfold pass_raises. intros H. cbn [login_loop].
  destruct (p_connect (passes i)); [|eexists; split; reflexivity].
  destruct (p_login (passes i)) as [login_response|];
    [|eexists; split; reflexivity].
  destruct (p_cwd (passes i)); [discriminate|].
  eexists. split; [reflexivity|].
  destruct (negb (String.eqb login_response "230 User logged in."));
    reflexivity.
Qed.

Lemma login_loop_retries (passes : nat -> ftp_pass) (n : nat) :
  forall fuel i self,
    (forall k, k < n -> pass_raises (passes (i + k)) = true) ->
    n <= fuel ->
    exists self',
      login_loop fuel passes i self = login_loop (fuel - n) passes (i + n) self'
      /\ th_slept self' = th_slept self + n.
Proof.
  induction n as [|n IH]; intros fuel i self Hfail Hfuel.
  - exists self. rewrite Nat.sub_0_r, !Nat.add_0_r. auto.
  - destruct fuel as [|fuel]; [lia|].
    assert (H0 : pass_raises (passes i) = true).
    { specialize (Hfail 0). rewrite Nat.add_0_r in Hfail. apply Hfail. lia. }
    destruct (login_loop_step passes fuel i self H0) as (self1 & Hstep & Hs1).
    destruct (IH fuel (S i) self1) as (self' & Hrun & Hs).
    + intros k Hk. replace (S i + k) with (i + S k) by lia. apply Hfail. lia.
    + lia.
    + exists self'. rewrite Hstep, Hrun.
      replace (S i + n) with (i + S n) by lia.
      replace (S fuel - S n) with (fuel - n) by lia.
      split; [reflexivity | lia].
Qed.

(** While every pass raises the loop has no end: the thread never reports
    anything. *)
Lemma login_loop_never_fatal (passes : nat -> ftp_pass) :
  (forall i, pass_raises (passes i) = true) ->
  forall fuel i self, login_loop fuel passes i self = None.
Proof.
  intros Hall. induction fuel as [|fuel IH]; intros i self; [reflexivity|].
  destruct (login_loop_step passes fuel i self (Hall i)) as (self1 & Hstep & _).
  rewrite Hstep. apply IH.
Qed.

(** A login or directory change the server answers with anything but the
    expected line sets the status to failed, yet the local file is then
    opened and the status set to New: the thread goes on to the transfer
    and, the transfer going through, ends as downloaded. *)
Lemma rejection_overwritten (progress : nat -> nat -> string)
    (passes : nat -> ftp_pass) (t : ftp_transfer) (self : thread)
    (login_response cwd_response retr_response : string) (n : nat) :
  p_connect (passes 0) = Returns tt ->
  p_login (passes 0) = Returns login_response ->
  p_cwd (passes 0) = Returns cwd_response ->
  login_response <> "230 User logged in."
  \/ cwd_response <> "250 CWD command successful." ->
  t_open t = Returns tt ->
  t_size t = Returns (S n) ->
  t_type_i t = Returns tt ->
  t_retr t = Returns retr_response ->
  t_close t = Returns tt ->
  exists self',
    run progress 1 passes t self = Some self'
    /\ th_status self' = "downloaded"
    /\ In (RETR (th_file_name self)) (th_sent self').
Proof.
  intros Hc Hl Hw Hrej Ho Hs Ht Hr Hclose.
  unfold run. cbn [login_loop]. rewrite Hc, Hl, Hw, Ho.
  match goal with
  | |- context [String.eqb (th_status (set_status_only "New" ?s)) "failed"] =>
      change (String.eqb (th_status (set_status_only "New" s)) "failed")
        with false
  end.
  cbv iota. unfold transfer, finished. rewrite Hs, Ht, Hr, Hclose.
  cbn [Nat.eqb]. cbv iota.
  eexists. split; [reflexivity|]. split; [reflexivity|].
  cbn [set_status th_sent].
  assert (Hsent : forall blocks s,
            th_sent (fold_left (fun s len => write progress len s) blocks s)
            = th_sent s).
  { induction blocks as [|b blocks IH]; intros s; [reflexivity|].
    cbn [fold_left]. now rewrite IH. }
  rewrite Hsent. cbn [th_sent send]. apply in_or_app. right. left.
  f_equal.
  destruct (negb (String.eqb login_response "230 User logged in."));
    destruct (negb (String.eqb cwd_response "250 CWD command successful."));
    reflexivity.
Qed.

(** C6, at the failing inputs.  The server rejects the login and the reply
    comes back from [login]: the thread nevertheless changes directory, asks
    for the size, retrieves the file and reports downloaded.  The rejection
    comes as an exception instead: the thread sleeps and logs in again, pass
    after pass, and never reports at all. *)
Theorem run_ignores_rejected_login :
  (exists self,
     run no_progress_text 1 login_rejected transfer_300 thread_c = Some self
     /\ th_status self = "downloaded"
     /\ th_total_size_got self = 300
     /\ th_sent self
        = [CONNECT; LOGIN; CWD "9818e194a5db4f4d90aa706826d69907";
           SIZE "c.fits"; TYPE_I; RETR "c.fits"])
  /\ (forall fuel,
        run no_progress_text fuel login_refused transfer_300 thread_c = None).
Proof.
  split.
  - eexists. split; [reflexivity|]. repeat split.
  - intros fuel. unfold run.
    rewrite (login_loop_never_fatal login_refused); [reflexivity|].
    intros i. reflexivity.
Qed.

(** The same with the directory change rejected. *)
Example run_ignores_rejected_cwd :
  exists self,
    run no_progress_text 1 cwd_rejected transfer_300 thread_c = Some self
    /\ th_status self = "downloaded"
    /\ In (RETR "c.fits") (th_sent self).
Proof.
  eapply (rejection_overwritten no_progress_text cwd_rejected transfer_300
            thread_c); try reflexivity.
  right. discriminate.
Qed.

End DownloaderProofs.

(* ===================================================================== *)
(** * Properties of the job lifecycle manager *)
(* ===================================================================== *)

Module JobProofs.
Import Text Job JobSpec Fixtures PyFacts.

(** ** The log line format *)

Lemma sapp_cons (x : ascii) (a b : string) :
  (String x a ++ b)%string = String x (a ++ b)%string.
Proof. reflexivity. Qed.

Lemma sapp_nil (b : string) : (EmptyString ++ b)%string = b.
Proof. reflexivity. Qed.

Lemma sapp_assoc (a b c : string) : ((a ++ b) ++ c = a ++ (b ++ c))%string.
Proof.
  induction a as [|x a IH]; [reflexivity|].
  rewrite !sapp_cons. now rewrite IH.
Qed.

Lemma strip_prefix_app p s : strip_prefix p (p ++ s)%string = Some s.
Proof.
  induction p as [|a p IH]; [reflexivity|].
  rewrite sapp_cons. cbn [strip_prefix]. now rewrite Ascii.eqb_refl.
Qed.

Lemma strip_prefix_Some p : forall s r,
  strip_prefix p s = Some r -> s = (p ++ r)%string.
Proof.
  induction p as [|a p IH]; intros s r H; cbn [strip_prefix] in H.
  - now injection H as ->.
  - destruct s as [|b s]; [discriminate|].
    destruct (Ascii.eqb a b) eqn:E; [|discriminate].
    apply Ascii.eqb_eq in E. subst b. rewrite sapp_cons. f_equal. now apply IH.
Qed.

Lemma rsplit_sep_sound s : forall a b,
  rsplit_sep s = Some (a, b) -> s = (a ++ sep ++ b)%string.
Proof.
  induction s as [|c s IH]; intros a b H; [discriminate|].
  cbn [rsplit_sep] in H.
  destruct (rsplit_sep s) as [[a' b']|].
  - injection H as <- <-. rewrite sapp_cons. f_equal. now apply IH.
  - destruct (strip_prefix sep (String c s)) as [r|] eqn:E; [|discriminate].
    injection H as <- <-. rewrite sapp_nil. now apply strip_prefix_Some in E.
Qed.

Lemma rsplit_sep_at_prefix s r :
  strip_prefix sep s = Some r -> rsplit_sep s <> None.
Proof.
  intros H. destruct s as [|c s]; [discriminate|].
  cbn [rsplit_sep]. destruct (rsplit_sep s) as [[a b]|]; [discriminate|].
  rewrite H. discriminate.
Qed.

(** The split is at the last separator: what precedes any separator is a
    prefix of the left part. *)
Lemma rsplit_sep_last x y :
  exists a b w, rsplit_sep (x ++ sep ++ y)%string = Some (a, b)
                /\ a = (x ++ w)%string.
Proof.
  induction x as [|c x IH].
  - rewrite sapp_nil.
    destruct (rsplit_sep (sep ++ y)%string) as [[a b]|] eqn:E.
    + exists a, b, a. split; reflexivity.
    + exfalso. revert E. apply (rsplit_sep_at_prefix _ y).
      apply strip_prefix_app.
  - destruct IH as (a & b & w & Hs & ->).
    exists (String c (x ++ w)), b, w.
    rewrite sapp_cons. cbn [rsplit_sep]. rewrite Hs. split; reflexivity.
Qed.

Lemma logfmt_match_sound line e :
  logfmt_match line = Some e -> line = entry_str e.
Proof.
  unfold logfmt_match, entry_str.
  destruct (rsplit_sep line) as [[r3 i]|] eqn:E3; [|discriminate].
  destruct (rsplit_sep r3) as [[r2 h]|] eqn:E2; [|discriminate].
  destruct (rsplit_sep r2) as [[d s]|] eqn:E1; [|discriminate].
  intros H. injection H as <-. cbn [date status host info].
  apply rsplit_sep_sound in E3, E2, E1. subst line r3 r2.
  now rewrite !sapp_assoc.
Qed.

Lemma logfmt_match_grammar line :
  logfmt_match line = None <-> ~ line_grammar line.
Proof.
  split.
  - intros Hnone (d & s & h & i & ->).
    unfold logfmt_match in Hnone.
    destruct (rsplit_sep_last (d ++ sep ++ s ++ sep ++ h) i)
      as (a3 & b3 & w3 & H3 & ->).
    rewrite !sapp_assoc in H3. rewrite H3 in Hnone.
    destruct (rsplit_sep_last (d ++ sep ++ s) (h ++ w3))
      as (a2 & b2 & w2 & H2 & ->).
    rewrite !sapp_assoc in H2. rewrite ?sapp_assoc in Hnone.
    rewrite H2 in Hnone.
    destruct (rsplit_sep_last d (s ++ w2)) as (a1 & b1 & w1 & H1 & ->).
    rewrite ?sapp_assoc in Hnone. rewrite H1 in Hnone. discriminate.
  - intros Hn. destruct (logfmt_match line) as [e|] eqn:E; [|reflexivity].
    exfalso. apply Hn. apply logfmt_match_sound in E. subst line.
    exists (date e), (status e), (host e), (info e). reflexivity.
Qed.

(** Greedy groups: with more than three separators the date keeps the
    surplus. *)
Example logfmt_match_greedy :
  logfmt_match "a -- b -- c -- d -- e"
  = Some {| date := "a -- b"; status := "c"; host := "d"; info := "e" |}
  /\ logfmt_match "a -- b -- c" = None.
Proof. split; reflexivity. Qed.

(** ** JobLog.read *)

Lemma check_lines_bad lines line :
  In line lines -> logfmt_match line = None ->
  exists bad, check_lines lines = Raise (bad_format bad)
              /\ In bad lines /\ logfmt_match bad = None.
Proof.
  induction lines as [|l lines IH]; intros Hin Hnone; [destruct Hin|].
  cbn [check_lines]. destruct (logfmt_match l) as [e|] eqn:El.
  - destruct Hin as [->|Hin]; [congruence|].
    destruct (IH Hin Hnone) as (bad & Hc & Hb & Hm).
    exists bad. repeat split; auto. now right.
  - exists l. repeat split; auto. now left.
Qed.

Lemma read_good file_lines :
  Forall line_grammar (kept_lines file_lines) ->
  exists entries, read file_lines = Ok entries
                  /\ map entry_str entries = kept_lines file_lines.
Proof.
  unfold read. generalize (kept_lines file_lines) as lines.
  intros lines Hall.
  assert (Hc : check_lines lines = Ok tt).
  { induction Hall as [|l lines Hl _ IH]; [reflexivity|].
    cbn [check_lines]. destruct (logfmt_match l) eqn:E; [exact IH|].
    apply logfmt_match_grammar in E. contradiction. }
  rewrite Hc. clear Hc.
  induction Hall as [|l lines Hl _ IH]; [now exists []|].
  destruct IH as (entries & Hp & Hs).
  cbn [parse_lines]. unfold parse_logline.
  destruct (logfmt_match l) as [e|] eqn:E.
  - rewrite Hp. exists (e :: entries). split; [reflexivity|].
    cbn [map]. apply logfmt_match_sound in E. congruence.
  - apply logfmt_match_grammar in E. contradiction.
Qed.

(** ** JobPool.rotate *)

Lemma recognized_cases x :
  str_in x recognized_statuses
  = (String.eqb x "submitted to queue" || String.eqb x "processing in progress")
    || String.eqb x "processing failed"
    || String.eqb x "processing successful"
    || String.eqb x "new job"
    || String.eqb x "upload successful".
Proof.
  unfold str_in, recognized_statuses. cbn [existsb].
  rewrite orb_false_r, !orb_assoc. reflexivity.
Qed.

Lemma recognized_not_unrecognized job :
  recognized_job job -> unrecognized_job job -> False.
Proof. intros (s & Hs & Hr) (s' & Hs' & Hu). congruence. Qed.

Lemma submits_app l1 l2 : submits (l1 ++ l2) = submits l1 + submits l2.
Proof. unfold submits. now rewrite List.filter_app, length_app. Qed.

Lemma pass_ok_skip job rest c acts res :
  recognized_job job -> pass_ok rest c acts res ->
  pass_ok (job :: rest) c acts res.
Proof.
  intros Hrec (new & Hacts & Hall & Hsub & Hbad).
  exists new. repeat split; auto.
  - eapply Forall_impl; [exact Hall|]. intros a [Hin Hr]. split; [now right | exact Hr].
  - intros (j & [<-|Hin] & Hu).
    + exfalso. eapply recognized_not_unrecognized; eassumption.
    + apply Hbad. eauto.
Qed.

Lemma pass_ok_raise jobs_ c acts e w :
  pass_ok jobs_ c acts (Raise e, (w, acts)).
Proof.
  exists []. cbn [fst snd]. rewrite app_nil_r.
  repeat split; auto. unfold submits. simpl. lia.
Qed.

Lemma pass_ok_after_call job rest c c' acts a res :
  recognized_job job -> action_job a = job ->
  (if is_submit a then c = true /\ c' = false else c' = c) ->
  pass_ok rest c' (acts ++ [a]) res ->
  pass_ok (job :: rest) c acts res.
Proof.
  intros Hrec Ha Hc (new & Hacts & Hall & Hsub & Hbad).
  exists (a :: new). repeat split.
  - rewrite Hacts. now rewrite <- app_assoc.
  - constructor.
    + rewrite Ha. split; [now left | exact Hrec].
    + eapply Forall_impl; [exact Hall|]. intros b [Hin Hr].
      split; [now right | exact Hr].
  - change (a :: new) with ([a] ++ new)%list. rewrite submits_app.
    unfold submits at 1. cbn [List.filter].
    destruct (is_submit a); cbn [length].
    + destruct Hc as [-> ->]. lia.
    + subst c'. lia.
  - intros (j & [<-|Hin] & Hu).
    + exfalso. eapply recognized_not_unrecognized; eassumption.
    + apply Hbad. eauto.
Qed.

Lemma pass_ok_call_raises job rest c acts a e w :
  recognized_job job -> action_job a = job ->
  (is_submit a = true -> c = true) ->
  pass_ok (job :: rest) c acts (Raise e, (w, (acts ++ [a])%list)).
Proof.
  intros Hrec Ha Hc. exists [a]. cbn [fst snd]. repeat split; auto.
  - constructor; [|constructor]. rewrite Ha. split; [now left | exact Hrec].
  - unfold submits. cbn [List.filter].
    destruct (is_submit a); cbn [length]; [rewrite Hc by reflexivity|]; lia.
Qed.

Lemma call_then_rest max_attempts (self_submit_job self_delete_job
      self_upload_results : PulsarSearchJob -> M world unit)
    job rest c c' a (m : M world unit) w acts :
  recognized_job job -> action_job a = job ->
  (if is_submit a then c = true /\ c' = false else c' = c) ->
  (forall w1 acts1,
     pass_ok rest c' acts1
       (rotate_loop max_attempts self_submit_job self_delete_job
          self_upload_results rest c' (w1, acts1))) ->
  pass_ok (job :: rest) c acts
    (Py.bind (invoke a m)
       (fun _ => rotate_loop max_attempts self_submit_job self_delete_job
                   self_upload_results rest c') (w, acts)).
Proof.
  intros Hrec Ha Hc IH. unfold Py.bind, invoke.
  destruct (m w) as [[[]|e] w1].
  - eapply pass_ok_after_call; eauto.
  - apply pass_ok_call_raises; auto.
    intros Hs. rewrite Hs in Hc. tauto.
Qed.

Lemma rotate_loop_pass max_attempts (self_submit_job self_delete_job
      self_upload_results : PulsarSearchJob -> M world unit) jobs_ :
  forall cansubmit w acts,
    pass_ok jobs_ cansubmit acts
      (rotate_loop max_attempts self_submit_job self_delete_job
         self_upload_results jobs_ cansubmit (w, acts)).
Proof.
  induction jobs_ as [|job rest IH]; intros cansubmit w acts.
  - exists []. cbn [rotate_loop]. unfold Py.ret. cbn [fst snd].
    rewrite app_nil_r. repeat split; auto.
    + unfold submits. simpl. lia.
    + intros (j & [] & _).
  - cbn [rotate_loop].
    destruct (get_status job) as [s|e] eqn:Es; [|apply pass_ok_raise].
    assert (Hrec : str_in (lower s) recognized_statuses = true ->
                   recognized_job job) by (intros H; exists s; auto).
    rewrite recognized_cases in Hrec.
    destruct (String.eqb (lower s) "submitted to queue"
              || String.eqb (lower s) "processing in progress") eqn:E1.
    { apply pass_ok_skip; [now apply Hrec | apply IH]. }
    destruct (String.eqb (lower s) "processing failed") eqn:E2.
    { specialize (Hrec eq_refl).
      destruct max_attempts as [m|]; [|apply pass_ok_raise].
      destruct (_ <? m).
      - destruct cansubmit.
        + apply call_then_rest;
          [exact Hrec | reflexivity | cbn; auto | intros; apply IH].
        + apply pass_ok_skip; [exact Hrec | apply IH].
      - apply call_then_rest;
          [exact Hrec | reflexivity | cbn; auto | intros; apply IH]. }
    destruct (String.eqb (lower s) "processing successful") eqn:E3.
    { specialize (Hrec eq_refl). apply call_then_rest;
          [exact Hrec | reflexivity | cbn; auto | intros; apply IH]. }
    destruct (String.eqb (lower s) "new job") eqn:E4.
    { specialize (Hrec eq_refl). destruct cansubmit.
      - apply call_then_rest;
          [exact Hrec | reflexivity | cbn; auto | intros; apply IH].
      - apply pass_ok_skip; [exact Hrec | apply IH]. }
    destruct (String.eqb (lower s) "upload successful") eqn:E5.
    { specialize (Hrec eq_refl). apply call_then_rest;
          [exact Hrec | reflexivity | cbn; auto | intros; apply IH]. }
    apply pass_ok_raise.
Qed.

Lemma rotate_pass job_basename alljobs max_attempts (self_submit_job
      self_delete_job self_upload_results : PulsarSearchJob -> M world unit)
    self w acts :
  exists cansubmit,
    pass_ok (jobs self) cansubmit acts
      (rotate job_basename alljobs max_attempts self_submit_job
         self_delete_job self_upload_results self (w, acts)).
Proof.
  unfold rotate, Py.bind, lift_world, get_queue_status.
  destruct (count_queue job_basename alljobs 0 0) as [q|e].
  - exists (snd q =? 0). apply rotate_loop_pass.
  - exists true. apply pass_ok_raise.
Qed.

(** A job with an unrecognized status, when the pass comes to it: a
    ValueError, no call made, the world untouched. *)
Lemma rotate_loop_unrecognized max_attempts (self_submit_job self_delete_job
      self_upload_results : PulsarSearchJob -> M world unit)
    job rest s cansubmit w acts :
  get_status job = Ok s ->
  str_in (lower s) recognized_statuses = false ->
  rotate_loop max_attempts self_submit_job self_delete_job
    self_upload_results (job :: rest) cansubmit (w, acts)
  = (Raise (ValueError ("Unrecognized status: " ++ lower s)%string), (w, acts)).
Proof.
  intros Hs Hu. rewrite recognized_cases in Hu.
  repeat (apply orb_false_iff in Hu as [Hu ?]).
  cbn [rotate_loop]. rewrite Hs.
  repeat match goal with
         | H : _ = false |- _ => rewrite H; clear H
         end.
  reflexivity.
Qed.

Lemma rotate_loop_waiting max_attempts (self_submit_job self_delete_job
      self_upload_results : PulsarSearchJob -> M world unit) pre :
  Forall waiting_job pre ->
  forall rest cansubmit st,
    rotate_loop max_attempts self_submit_job self_delete_job
      self_upload_results (pre ++ rest) cansubmit st
    = rotate_loop max_attempts self_submit_job self_delete_job
        self_upload_results rest cansubmit st.
Proof.
  induction 1 as [|job pre (s & Hs & Hw) _ IH]; intros rest cansubmit st;
    [reflexivity|].
  cbn [app rotate_loop]. rewrite Hs, Hw. apply IH.
Qed.

(** C2.  In one rotation pass, whatever the queue reports, whatever
    [max_attempts] is bound to and whatever the three methods reached
    through [self] do, at most one call of [submit_job] is made: around a
    submission in the list of calls there is no other. *)
Theorem rotate_submits_at_most_once (job_basename : string)
    (alljobs : list pbs_job) (max_attempts : option nat)
    (self_submit_job self_delete_job self_upload_results :
       PulsarSearchJob -> M world unit)
    (self : JobPool) (w : world) :
  let calls :=
    snd (snd (rotate job_basename alljobs max_attempts self_submit_job
                self_delete_job self_upload_results self (w, []))) in
  submits calls <= 1
  /\ (forall before job behind,
        calls = (before ++ Submit job :: behind)%list ->
        submits before = 0 /\ submits behind = 0).
Proof.
  intros calls.
  destruct (rotate_pass job_basename alljobs max_attempts self_submit_job
              self_delete_job self_upload_results self w [])
    as (c & new & Hcalls & _ & Hsub & _).
  fold calls in Hcalls. cbn [app] in Hcalls. subst new.
  assert (H1 : submits calls <= 1) by (destruct c; lia).
  split; [exact H1|].
  intros before job behind Heq. rewrite Heq in H1.
  rewrite submits_app in H1.
  change (Submit job :: behind) with ([Submit job] ++ behind)%list in H1.
  rewrite submits_app in H1. unfold submits at 2 in H1. cbn in H1. lia.
Qed.

(** Three new jobs and an empty queue: the first is submitted, the other
    two are passed over. *)
Example rotate_three_new_jobs :
  snd (snd (rotate "palfa" [] (Some 2) submit_and_log do_nothing do_nothing
              pool_three_new (empty_world, [])))
  = [Submit job_a]
  /\ fst (rotate "palfa" [] (Some 2) submit_and_log do_nothing do_nothing
            pool_three_new (empty_world, []))
     = Ok tt
  /\ qsub_calls
       (fst (snd (rotate "palfa" [] (Some 2) submit_and_log do_nothing
                    do_nothing pool_three_new (empty_world, []))))
     = [["a.fits"]].
Proof. repeat split. Qed.

(** The same pool with the methods of the class as written: the first
    submission runs qsub and then raises on [job.LogEntry]. *)
Example JobPool_rotate_three_new_jobs :
  JobPool_rotate "palfa" true "archive" [] (fun _ => "7.queue")
    pool_three_new (empty_world, [])
  = (Raise (AttributeError "LogEntry"),
     ({| files := ∅; qsub_calls := [["a.fits"]];
         jobids := {[ "a" := "7.queue" ]}; demand_file_list := ∅ |},
      [Submit job_a])).
Proof. reflexivity. Qed.

(** C8.  A log in which a kept line (no comment, not blank) does not have
    the form date, status, host and info joined by the separator is not
    loaded: [read] raises a ValueError naming such a line and gives no
    entries, and building the [JobLog] fails with the world as it was.
    In a rotation pass a job whose current status is no lifecycle state
    raises a ValueError when the pass comes to it, nothing being called and
    nothing changed; so a pass over a pool holding such a job never ends
    normally and makes no call on that job. *)
Theorem corruption_is_fatal :
  (forall file_lines line,
     In line (kept_lines file_lines) -> ~ line_grammar line ->
     exists bad,
       read file_lines = Raise (bad_format bad)
       /\ In bad (kept_lines file_lines) /\ ~ line_grammar bad)
  /\ (forall hostname import_time repr_datafiles logfn_ datafiles_ w
             file_lines line,
        files w !! logfn_ = Some file_lines ->
        In line (kept_lines file_lines) -> ~ line_grammar line ->
        exists e,
          JobLog_init hostname import_time repr_datafiles logfn_ datafiles_ w
          = (Raise e, w))
  /\ (forall max_attempts submit_ delete_ upload_ pre job rest s cansubmit
             w acts,
        Forall waiting_job pre ->
        get_status job = Ok s ->
        str_in (lower s) recognized_statuses = false ->
        rotate_loop max_attempts submit_ delete_ upload_
          (pre ++ job :: rest) cansubmit (w, acts)
        = (Raise (ValueError ("Unrecognized status: " ++ lower s)%string),
           (w, acts)))
  /\ (forall job_basename alljobs max_attempts submit_ delete_ upload_
             self job w,
        In job (jobs self) -> unrecognized_job job ->
        exists e w' calls,
          rotate job_basename alljobs max_attempts submit_ delete_ upload_
            self (w, [])
          = (Raise e, (w', calls))
          /\ Forall (fun a => action_job a <> job) calls).
Proof.
  split; [|split; [|split]].
  - intros file_lines line Hin Hbad.
    apply logfmt_match_grammar in Hbad.
    unfold read.
    destruct (check_lines_bad _ _ Hin Hbad) as (bad & Hc & Hb & Hm).
    exists bad. rewrite Hc. repeat split; auto.
    now apply logfmt_match_grammar.
  - intros hostname import_time repr_datafiles logfn_ datafiles_ w
           file_lines line Hfile Hin Hbad.
    apply logfmt_match_grammar in Hbad.
    destruct (check_lines_bad _ _ Hin Hbad) as (bad & Hc & _).
    exists (bad_format bad).
    unfold JobLog_init, Py.bind, Py.get. rewrite Hfile.
    unfold read. rewrite Hc. reflexivity.
  - intros max_attempts submit_ delete_ upload_ pre job rest s cansubmit
           w acts Hpre Hs Hu.
    rewrite rotate_loop_waiting by exact Hpre.
    now apply rotate_loop_unrecognized.
  - intros job_basename alljobs max_attempts submit_ delete_ upload_
           self job w Hin Hu.
    destruct (rotate_pass job_basename alljobs max_attempts submit_ delete_
                upload_ self w [])
      as (c & new & Hcalls & Hall & _ & Hfatal).
    destruct (rotate _ _ _ _ _ _ _ _) as [[[]|e] [w' calls]];
      cbn [fst snd app] in *.
    + specialize (Hfatal (ex_intro _ job (conj Hin Hu))). discriminate.
    + exists e, w', calls. split; [reflexivity|]. subst calls.
      eapply Forall_impl; [exact Hall|].
      intros a [_ Hr] Heq. subst job.
      eapply recognized_not_unrecognized; eassumption.
Qed.

Lemma rotate_submits_at_most_once_witness :
  submits
    (snd (snd (rotate "palfa" [] (Some 2) submit_and_log do_nothing do_nothing
                 pool_three_new (empty_world, []))))
  <= 1.
Proof.
  destruct (rotate_submits_at_most_once "palfa" [] (Some 2) submit_and_log
              do_nothing do_nothing pool_three_new empty_world) as [H _].
  exact H.
Defined.

Lemma corruption_is_fatal_witness :
  Forall waiting_job [job_running]
  /\ get_status job_garbled = Ok "Procesing faild"
  /\ str_in (lower "Procesing faild") recognized_statuses = false
  /\ rotate_loop (Some 2) submit_and_log do_nothing do_nothing
       ([job_running] ++ job_garbled :: [job_a])%list true (empty_world, [])
     = (Raise (ValueError "Unrecognized status: procesing faild"),
        (empty_world, [])).
Proof.
  assert (H1 : Forall waiting_job [job_running]).
  { constructor; [|constructor].
    exists "Processing in progress". split; reflexivity. }
  split; [exact H1|]. split; [reflexivity|]. split; [reflexivity|].
  destruct corruption_is_fatal as (_ & _ & H & _).
  apply (H (Some 2) submit_and_log do_nothing do_nothing [job_running]
           job_garbled [job_a] "Procesing faild" true empty_world []
           H1 eq_refl eq_refl).
Defined.

Example read_log_with_bad_line :
  read log_with_bad_line
  = Raise (bad_format "2020-01-02 00:00:00 -- Processing failed -- attempt 1").
Proof. reflexivity. Qed.

Example read_good_log :
  read (take 3 log_with_bad_line)
  = Ok [{| date := "2020-01-01 00:00:00"; status := "New job";
           host := "hostA"; info := "Datafiles: [g.fits]" |}].
Proof. reflexivity. Qed.

(** ** Demand and deletion *)

Lemma delete_job_files delete_rawdata log_archive self job w :
  snd (delete_job delete_rawdata log_archive self job w) = w.
Proof. unfold delete_job. destruct delete_rawdata; reflexivity. Qed.

Lemma count_in_cons d d0 ds :
  count_in d (d0 :: ds) = (if String.eqb d d0 then 1 else 0) + count_in d ds.
Proof.
  unfold count_in. cbn [List.filter].
  destruct (String.eqb d d0); reflexivity.
Qed.

Lemma count_datafile_counts d0 w count :
  holds_counts (demand_file_list w) count ->
  exists w',
    count_datafile d0 w = (Ok tt, w')
    /\ files w' = files w
    /\ holds_counts (demand_file_list w')
         (fun d => count d + (if String.eqb d d0 then 1 else 0)).
Proof.
  intros Hm. unfold count_datafile, Py.modify.
  eexists. split; [reflexivity|]. split; [reflexivity|].
  cbn [demand_file_list with_demand]. intros d.
  destruct (String.eqb_spec d d0) as [->|Hne].
  - specialize (Hm d0). destruct (count d0 =? 0) eqn:E.
    + apply Nat.eqb_eq in E. rewrite Hm, lookup_insert_eq, E. reflexivity.
    + rewrite Hm, lookup_insert_eq.
      apply Nat.eqb_neq in E.
      destruct (count d0 + 1 =? 0) eqn:E'; [apply Nat.eqb_eq in E'; lia|].
      reflexivity.
  - rewrite Nat.add_0_r.
    destruct (demand_file_list w !! d0);
      rewrite lookup_insert_ne by congruence; apply Hm.
Qed.

Lemma holds_counts_ext m c1 c2 :
  (forall d, c1 d = c2 d) -> holds_counts m c1 -> holds_counts m c2.
Proof. intros He Hm d. rewrite <- He. apply Hm. Qed.

Lemma count_datafiles_counts ds :
  forall w count,
    holds_counts (demand_file_list w) count ->
    exists w',
      for_each ds count_datafile w = (Ok tt, w')
      /\ files w' = files w
      /\ holds_counts (demand_file_list w') (fun d => count d + count_in d ds).
Proof.
  induction ds as [|d0 ds IH]; intros w count Hm.
  - exists w. split; [reflexivity|]. split; [reflexivity|].
    eapply holds_counts_ext; [|exact Hm]. intros d. unfold count_in. simpl. lia.
  - destruct (count_datafile_counts d0 w count Hm) as (w1 & Hrun1 & Hf1 & Hm1).
    destruct (IH w1 _ Hm1) as (w2 & Hrun2 & Hf2 & Hm2).
    exists w2. cbn [for_each]. unfold Py.bind. rewrite Hrun1, Hrun2.
    split; [reflexivity|]. split; [congruence|].
    eapply holds_counts_ext; [|exact Hm2].
    intros d. cbn beta. rewrite count_in_cons. lia.
Qed.

Section Demand.

Variable config_max_attempts : nat.

(** Where [still_in_demand] answers at all, it answers as the design's
    [needs_files]; a job whose status is processing failed makes it raise. *)
Lemma still_in_demand_run job w :
  (exists e, still_in_demand config_max_attempts job w = (Raise e, w))
  \/ still_in_demand config_max_attempts job w
     = (Ok (needs_files config_max_attempts job), w).
Proof.
  unfold still_in_demand, needs_files.
  destruct (get_status job) as [s|e]; [|left; eauto].
  destruct (str_in (lower s) demanded_statuses); [right; reflexivity|].
  destruct (String.eqb (lower s) "processing failed"); [left; eauto|].
  right. reflexivity.
Qed.

Lemma demand_loop_counts js :
  forall w count,
    holds_counts (demand_file_list w) count ->
    exists r w',
      for_each js
        (fun job =>
           b <- still_in_demand config_max_attempts job ;;
           if b then for_each (datafiles job) count_datafile else Py.ret tt) w
      = (r, w')
      /\ files w' = files w
      /\ (r = Ok tt ->
          holds_counts (demand_file_list w')
            (fun d => count d + demand_count config_max_attempts js d)).
Proof.
  induction js as [|job js IH]; intros w count Hm.
  - exists (Ok tt), w. split; [reflexivity|]. split; [reflexivity|].
    intros _. eapply holds_counts_ext; [|exact Hm]. intros d. simpl. lia.
  - cbn [for_each]. unfold Py.bind at 1 2.
    destruct (still_in_demand_run job w) as [[e He]|Hrun].
    + rewrite He. exists (Raise e), w.
      split; [reflexivity|]. split; [reflexivity|]. discriminate.
    + rewrite Hrun. destruct (needs_files config_max_attempts job) eqn:En.
      * destruct (count_datafiles_counts (datafiles job) w count Hm)
          as (w1 & Hrun1 & Hf1 & Hm1).
        rewrite Hrun1.
        destruct (IH w1 _ Hm1) as (r & w2 & Hrun2 & Hf2 & Hm2).
        exists r, w2. split; [exact Hrun2|]. split; [congruence|].
        intros Hr. eapply holds_counts_ext; [|exact (Hm2 Hr)].
        intros d. cbn [demand_count]. rewrite En. lia.
      * unfold Py.ret at 1.
        destruct (IH w count Hm) as (r & w2 & Hrun2 & Hf2 & Hm2).
        exists r, w2. split; [exact Hrun2|]. split; [exact Hf2|].
        intros Hr. eapply holds_counts_ext; [|exact (Hm2 Hr)].
        intros d. cbn [demand_count]. rewrite En. lia.
Qed.

(** [update_demand_file_list] rebuilds the map from nothing: when it
    returns, the map holds the demand of every file over all jobs. *)
Lemma update_demand_file_list_counts self w :
  exists r w',
    update_demand_file_list config_max_attempts self w = (r, w')
    /\ files w' = files w
    /\ (r = Ok tt ->
        holds_counts (demand_file_list w')
          (demand_count config_max_attempts (jobs self))).
Proof.
  unfold update_demand_file_list.
  erewrite bind_run by reflexivity.
  destruct (demand_loop_counts (jobs self) (with_demand ∅ w) (fun _ => 0))
    as (r & w' & Hrun & Hf & Hm).
  { intros d. cbn. apply lookup_empty. }
  exists r, w'. split; [exact Hrun|]. split; [exact Hf|].
  intros Hr. eapply holds_counts_ext; [|exact (Hm Hr)].
  intros d. reflexivity.
Qed.

(** With such a map the loop of [is_in_demand] is decided by the first
    data file: a KeyError if nothing demands it, True otherwise. *)
Lemma any_in_demand_first d ds w count :
  holds_counts (demand_file_list w) count ->
  any_in_demand (d :: ds) w
  = if count d =? 0 then (Raise (KeyError d), w) else (Ok true, w).
Proof.
  intros Hm. cbn [any_in_demand]. unfold Py.bind, Py.get.
  rewrite (Hm d). destruct (count d =? 0) eqn:E; [reflexivity|].
  apply Nat.eqb_neq in E.
  destruct (0 <? count d) eqn:E'; [reflexivity|].
  apply Nat.ltb_ge in E'. lia.
Qed.

Lemma is_in_demand_never_false self job w d :
  In d (datafiles job) ->
  fst (is_in_demand config_max_attempts self job w) <> Ok false.
Proof.
  intros Hin. unfold is_in_demand, Py.bind.
  destruct (update_demand_file_list_counts self w) as (r & w' & Hrun & _ & Hm).
  rewrite Hrun. destruct r as [[]|e]; [|discriminate].
  destruct (datafiles job) as [|d0 ds]; [destruct Hin|].
  rewrite (any_in_demand_first d0 ds w' _ (Hm eq_refl)).
  destruct (_ =? 0); discriminate.
Qed.

End Demand.

(** C4.  A file for which the demand count over the tracked jobs (jobs
    submitted, in progress, successful or new, or failed with attempts
    left) is not zero is still there after [delete_job], whichever job is
    deleted.  The guard the class provides, [is_in_demand], never answers
    False for a job that lists the file, and the map it consults, rebuilt by
    a scan of all jobs, holds exactly that demand count whenever the scan
    returns. *)
Theorem delete_keeps_demanded_files (delete_rawdata : bool)
    (config_max_attempts : nat) (log_archive : string)
    (self : JobPool) (job : PulsarSearchJob) (w : world) (d : string) :
  0 < demand_count config_max_attempts (jobs self) d ->
  is_Some (files w !! d) ->
  is_Some (files (snd (delete_job delete_rawdata log_archive self job w)) !! d)
  /\ (In d (datafiles job) ->
      fst (is_in_demand config_max_attempts self job w) <> Ok false)
  /\ (forall w',
        update_demand_file_list config_max_attempts self w = (Ok tt, w') ->
        files w' = files w
        /\ demand_file_list w' !! d
           = Some (demand_count config_max_attempts (jobs self) d)).
Proof.
  intros Hpos Hfile. split; [|split].
  - now rewrite delete_job_files.
  - apply is_in_demand_never_false.
  - intros w' Hrun.
    destruct (update_demand_file_list_counts config_max_attempts self w)
      as (r & w1 & Hrun1 & Hf & Hm).
    rewrite Hrun in Hrun1. injection Hrun1 as <- <-.
    split; [exact Hf|]. rewrite (Hm eq_refl d).
    destruct (_ =? 0) eqn:E; [apply Nat.eqb_eq in E; lia | reflexivity].
Qed.

Lemma delete_keeps_demanded_files_witness :
  0 < demand_count 2 (jobs pool_shared) "shared.fits"
  /\ is_Some (files world_shared !! "shared.fits")
  /\ is_Some
       (files (snd (delete_job true "archive" pool_shared job_shared_uploaded
                      world_shared)) !! "shared.fits").
Proof.
  assert (H1 : 0 < demand_count 2 (jobs pool_shared) "shared.fits")
    by (simpl; lia).
  assert (H2 : is_Some (files world_shared !! "shared.fits"))
    by (eexists; reflexivity).
  split; [exact H1|]. split; [exact H2|].
  apply (delete_keeps_demanded_files true 2 "archive" pool_shared
           job_shared_uploaded world_shared "shared.fits" H1 H2).
Defined.

(** What the class does with the shared file of the design's scenario: the
    deletion guard cannot be evaluated, and asked through [self] it would
    answer True. *)
Example delete_job_shared :
  delete_job true "archive" pool_shared job_shared_uploaded world_shared
  = (Raise (NameError "is_in_demand"), world_shared)
  /\ fst (is_in_demand 2 pool_shared job_shared_uploaded world_shared)
     = Ok true.
Proof. split; reflexivity. Qed.

End JobProofs.

(* ===================================================================== *)
(** * job.py: logs written and read back, names, the rotation pass *)
(* ===================================================================== *)

Module JobExtra.
Import Text Job JobSpec JobMore Fixtures MoreFixtures PyFacts JobProofs.

(** ** Where the separator can occur *)

Lemma contains_sep_rsplit s : contains_sep s -> rsplit_sep s <> None.
Proof.
  intros (a & b & ->).
  destruct (rsplit_sep_last a b) as (a' & b' & w & H & _). congruence.
Qed.

Lemma rsplit_contains_sep s : rsplit_sep s = None -> ~ contains_sep s.
Proof. intros H Hc. now apply contains_sep_rsplit in Hc. Qed.

Lemma no_sep_rsplit s : ~ contains_sep s -> rsplit_sep s = None.
Proof.
  intros Hn. destruct (rsplit_sep s) as [[a b]|] eqn:E; [|reflexivity].
  exfalso. apply Hn. exists a, b. now apply rsplit_sep_sound.
Qed.

(** A decision for [clean_field], by running the splitter. *)
Lemma clean_field_run f : rsplit_sep (String " " f) = None -> clean_field f.
Proof. apply rsplit_contains_sep. Qed.

Lemma contains_sep_tail f :
  contains_sep ("-- " ++ f)%string -> contains_sep (String " " f).
Proof.
  intros (a & b & H).
  destruct a as [|x1 a]; [discriminate H|].
  destruct a as [|x2 a]; [discriminate H|].
  rewrite !sapp_cons in H. injection H as _ _ H.
  exists a, b. exact H.
Qed.

Lemma contains_sep_head f :
  contains_sep (String " " f) -> contains_sep ("-- " ++ f)%string.
Proof.
  intros (a & b & H). exists ("--" ++ a)%string, b.
  rewrite sapp_assoc, <- H. reflexivity.
Qed.

(** After a clean field the last separator is the one written before it. *)
Lemma rsplit_sep_clean y : clean_field y ->
  forall x, rsplit_sep (x ++ sep ++ y)%string = Some (x, y).
Proof.
  intros Hy. induction x as [|c x IH].
  - rewrite sapp_nil. change (sep ++ y)%string with (String " " ("-- " ++ y)%string).
    cbn [rsplit_sep].
    rewrite no_sep_rsplit by (intros Hc; apply Hy, contains_sep_tail, Hc).
    change (String " " ("-- " ++ y)%string) with (sep ++ y)%string.
    now rewrite strip_prefix_app.
  - rewrite sapp_cons. cbn [rsplit_sep]. now rewrite IH.
Qed.

(** What the splitter puts to the right of the separator is clean. *)
Lemma rsplit_sep_right s : forall a b,
  rsplit_sep s = Some (a, b) -> clean_field b.
Proof.
  induction s as [|c s IH]; intros a b H; [discriminate|].
  cbn [rsplit_sep] in H.
  destruct (rsplit_sep s) as [[a' b']|] eqn:E.
  - injection H as <- <-. eapply IH; reflexivity.
  - destruct (strip_prefix sep (String c s)) as [r|] eqn:Ep; [|discriminate].
    injection H as <- <-.
    apply strip_prefix_Some in Ep.
    change (sep ++ r)%string with (String " " ("-- " ++ r)%string) in Ep.
    injection Ep as -> ->.
    intros Hc. apply contains_sep_head in Hc.
    now apply contains_sep_rsplit in Hc.
Qed.

Lemma strip_nonempty_app a b :
  strip_nonempty b = true -> strip_nonempty (a ++ b)%string = true.
Proof.
  intros Hb. induction a as [|c a IH]; [exact Hb|].
  rewrite sapp_cons. cbn [strip_nonempty]. rewrite IH. apply orb_true_r.
Qed.

Lemma entry_str_nonblank e : strip_nonempty (entry_str e) = true.
Proof.
  unfold entry_str. apply strip_nonempty_app.
  change (sep ++ status e ++ sep ++ host e ++ sep ++ info e)%string
    with (String " " (String "-" ("- " ++ status e ++ sep ++ host e ++ sep ++ info e)%string)).
  reflexivity.
Qed.

Lemma partition_head_none c s :
  has_char c s = false -> partition_head c s = s.
Proof.
  induction s as [|x s IH]; [reflexivity|].
  cbn [has_char partition_head]. intros H.
  apply orb_false_iff in H as [Hx Hs]. rewrite Hx. now rewrite IH.
Qed.

Lemma kept_lines_app l1 l2 :
  kept_lines (l1 ++ l2) = (kept_lines l1 ++ kept_lines l2)%list.
Proof. unfold kept_lines. now rewrite map_app, List.filter_app. Qed.

Lemma check_lines_app l1 l2 :
  check_lines l1 = Ok tt -> check_lines (l1 ++ l2) = check_lines l2.
Proof.
  induction l1 as [|x l1 IH]; [reflexivity|].
  cbn [app check_lines]. destruct (logfmt_match x); [exact IH | discriminate].
Qed.

Lemma parse_lines_app l1 l2 es1 es2 :
  parse_lines l1 = Ok es1 -> parse_lines l2 = Ok es2 ->
  parse_lines (l1 ++ l2) = Ok (es1 ++ es2)%list.
Proof.
  revert es1. induction l1 as [|x l1 IH]; intros es1 H1 H2.
  - injection H1 as <-. exact H2.
  - cbn [app parse_lines] in *.
    destruct (parse_logline x) as [e|]; [|discriminate].
    destruct (parse_lines l1) as [es|]; [|discriminate].
    injection H1 as <-. now rewrite (IH es eq_refl H2).
Qed.

Lemma read_app l1 l2 es1 es2 :
  read l1 = Ok es1 -> read l2 = Ok es2 ->
  read (l1 ++ l2) = Ok (es1 ++ es2)%list.
Proof.
  unfold read. rewrite kept_lines_app.
  destruct (check_lines (kept_lines l1)) as [[]|] eqn:E1; [|discriminate].
  destruct (check_lines (kept_lines l2)) as [[]|] eqn:E2; [|discriminate].
  intros H1 H2. rewrite check_lines_app, E2 by exact E1.
  now apply parse_lines_app.
Qed.

(** ** Suffixes *)

Lemma slength_app a b :
  String.length (a ++ b)%string = String.length a + String.length b.
Proof.
  induction a as [|x a IH]; [reflexivity|].
  rewrite sapp_cons. cbn [String.length]. now rewrite IH.
Qed.

Lemma substring_all s : substring 0 (String.length s) s = s.
Proof. induction s as [|x s IH]; [reflexivity|]. cbn. now rewrite IH. Qed.

Lemma substring_app_l a b : substring 0 (String.length a) (a ++ b)%string = a.
Proof.
  induction a as [|x a IH]; [destruct b; reflexivity|].
  rewrite sapp_cons. cbn. now rewrite IH.
Qed.

Lemma substring_app_r a b n :
  substring (String.length a) n (a ++ b)%string = substring 0 n b.
Proof.
  induction a as [|x a IH]; [reflexivity|].
  rewrite sapp_cons. cbn [String.length substring]. exact IH.
Qed.

Lemma substring_split s : forall n, n <= String.length s ->
  s = (substring 0 n s ++ substring n (String.length s - n) s)%string.
Proof.
  induction s as [|x s IH]; intros n Hn.
  - cbn in Hn. assert (n = 0) by lia. subst. reflexivity.
  - destruct n as [|n].
    + cbn [substring]. rewrite sapp_nil.
      change (String.length (String x s) - 0) with (S (String.length s)).
      cbn [substring]. now rewrite substring_all.
    + cbn [String.length] in *. cbn [substring Nat.sub]. rewrite sapp_cons.
      f_equal. apply IH. lia.
Qed.

Lemma ends_with_app suffix n : ends_with suffix (n ++ suffix)%string = true.
Proof.
  unfold ends_with. rewrite slength_app.
  replace (String.length n + String.length suffix - String.length suffix)
    with (String.length n) by lia.
  rewrite substring_app_r, substring_all, String.eqb_refl.
  rewrite andb_true_r. apply Nat.leb_le. lia.
Qed.

Lemma ends_with_split suffix s :
  ends_with suffix s = true ->
  s = (substring 0 (String.length s - String.length suffix) s ++ suffix)%string.
Proof.
  unfold ends_with. intros H. apply andb_true_iff in H as [Hl He].
  apply Nat.leb_le in Hl. apply String.eqb_eq in He.
  rewrite (substring_split s (String.length s - String.length suffix)) at 1 by lia.
  replace (String.length s - (String.length s - String.length suffix))
    with (String.length suffix) by lia.
  now rewrite He.
Qed.

Lemma logfmt_match_clean e :
  clean_field (status e) -> clean_field (host e) -> clean_field (info e) ->
  logfmt_match (entry_str e) = Some e.
Proof.
  intros Hs Hh Hi. destruct e as [d s h i]. cbn [status host info] in *.
  unfold logfmt_match, entry_str. cbn [date status host info].
  replace (d ++ sep ++ s ++ sep ++ h ++ sep ++ i)%string
    with ((d ++ sep ++ s ++ sep ++ h) ++ sep ++ i)%string
    by (now rewrite !sapp_assoc).
  rewrite (rsplit_sep_clean i Hi).
  replace (d ++ sep ++ s ++ sep ++ h)%string
    with ((d ++ sep ++ s) ++ sep ++ h)%string
    by (now rewrite !sapp_assoc).
  rewrite (rsplit_sep_clean h Hh), (rsplit_sep_clean s Hs). reflexivity.
Qed.

(** X1.  A log entry of one line (no field holds a newline, which the
    format never takes) written with [str] and matched by the format of the
    log comes back as it was exactly when its status, host and info are
    clean: none of them holds the separator, also not one that begins on
    the blank before the field.  The date may hold the separator. *)
Theorem entry_round_trip (e : LogEntry) :
  one_line (entry_str e) ->
  (logfmt_match (entry_str e) = Some e
   <-> clean_field (status e) /\ clean_field (host e) /\ clean_field (info e)).
Proof.
  intros _. split.
  - unfold logfmt_match. intros H.
    destruct (rsplit_sep (entry_str e)) as [[r3 i]|] eqn:E3; [|discriminate].
    destruct (rsplit_sep r3) as [[r2 h]|] eqn:E2; [|discriminate].
    destruct (rsplit_sep r2) as [[d s]|] eqn:E1; [|discriminate].
    apply rsplit_sep_right in E3, E2, E1.
    injection H as <-. cbn [status host info]. auto.
  - intros (Hs & Hh & Hi). now apply logfmt_match_clean.
Qed.

Lemma read_written_entry e :
  writable_entry e -> read [entry_str e] = Ok [e].
Proof.
  intros (Hs & Hh & Hi & Hhash).
  assert (Hm : logfmt_match (entry_str e) = Some e)
    by (apply logfmt_match_clean; auto).
  unfold read, kept_lines. cbn [map List.filter].
  rewrite (partition_head_none _ _ Hhash), entry_str_nonblank.
  cbn [check_lines parse_lines]. unfold parse_logline. now rewrite Hm.
Qed.

Lemma readlines_line s : one_line s -> readlines (s ++ nl)%string = [s].
Proof.
  unfold one_line. induction s as [|c s IH]; intros H; [reflexivity|].
  cbn [has_char] in H. apply orb_false_iff in H as [Hc Hs].
  rewrite sapp_cons. cbn [readlines]. rewrite Hc. now rewrite (IH Hs).
Qed.

Lemma readlines_nonempty c r : readlines (String c r) <> [].
Proof.
  cbn [readlines]. destruct (Ascii.eqb c newline); [discriminate|].
  destruct (readlines r); discriminate.
Qed.

Lemma readlines_appended text s :
  lines_ended text = true -> one_line s ->
  readlines (text ++ s ++ nl)%string = (readlines text ++ [s])%list.
Proof.
  intros Hend Hs. induction text as [|c text IH].
  - rewrite sapp_nil. now apply readlines_line.
  - rewrite sapp_cons. cbn [readlines lines_ended] in *.
    destruct text as [|c' text].
    + rewrite Hend, sapp_nil. cbn [readlines app].
      now rewrite (readlines_line s Hs).
    + rewrite (IH Hend).
      destruct (Ascii.eqb c newline); [reflexivity|].
      pose proof (readlines_nonempty c' text) as Hne.
      destruct (readlines (String c' text)) as [|l ls]; [contradiction|].
      reflexivity.
Qed.

(** X2.  [addentry] followed by [read], on the text of the file.  If every
    line of the log is ended (the log is empty, or missing, or its last
    character is a newline) and the entry is of one line, has clean fields
    and no hash sign, then the write adds exactly one line, the text of the
    entry, and a log that read as [entries] reads as [entries] followed by
    the new entry.  The list of lines [addentry] keeps in the world is then
    the list of lines of the file. *)
Theorem addentry_then_read (text : string) (e : LogEntry)
    (entries : list LogEntry) :
  lines_ended text = true ->
  one_line (entry_str e) ->
  writable_entry e ->
  read (readlines text) = Ok entries ->
  readlines (appended text e) = (readlines text ++ [entry_str e])%list
  /\ read (readlines (appended text e)) = Ok (entries ++ [e])%list
  /\ (forall logfn_ w,
        default [] (files w !! logfn_) = readlines text ->
        files (snd (addentry logfn_ e w)) !! logfn_
        = Some (readlines (appended text e))).
Proof.
  intros Hend Hline He Hread.
  assert (Hlines : readlines (appended text e)
                   = (readlines text ++ [entry_str e])%list)
    by now apply readlines_appended.
  split; [exact Hlines|]. split.
  - rewrite Hlines. apply read_app; [exact Hread|].
    now apply read_written_entry.
  - intros logfn_ w Hw. unfold addentry, Py.modify.
    cbn [snd files with_files]. rewrite lookup_insert_eq, Hw, Hlines.
    reflexivity.
Qed.

(** X3.  Restart: a job that has been constructed is constructed again
    from the world the first construction left, with the same log entries
    and without a further write, when the entry a new log starts with is
    writable (host name and data file names without separator and hash
    sign). *)
Theorem job_init_again (hostname import_time : string)
    (repr_datafiles : list string -> string) (datafiles_ : list string)
    (w w' : world) (job : PulsarSearchJob) :
  writable_entry
    {| date := import_time; status := "New job"; host := hostname;
       info := ("Datafiles: " ++ repr_datafiles datafiles_)%string |} ->
  PulsarSearchJob_init hostname import_time repr_datafiles datafiles_ w
  = (Ok job, w') ->
  PulsarSearchJob_init hostname import_time repr_datafiles datafiles_ w'
  = (Ok job, w').
Proof.
  intros He. unfold PulsarSearchJob_init.
  destruct (get_jobname datafiles_) as [n|]; [|discriminate].
  unfold JobLog_init, Py.bind, Py.get. cbv beta iota.
  destruct (files w !! (n ++ ".log")%string) as [ls|] eqn:Ef.
  - destruct (read ls) as [es|] eqn:Er;
      [|unfold Py.raise; intros H; discriminate H].
    unfold Py.ret. intros H. injection H as <- <-.
    rewrite Ef, Er. reflexivity.
  - unfold addentry, Py.modify, Py.ret. intros H. injection H as <- <-.
    cbn [files with_files]. rewrite lookup_insert_eq, Ef.
    cbn [default from_option app]. rewrite (read_written_entry _ He).
    reflexivity.
Qed.

Lemma get_jobname_sound d rest n :
  get_jobname (d :: rest) = Ok n -> d = (n ++ ".fits")%string.
Proof.
  unfold get_jobname.
  destruct (ends_with ".fits" d) eqn:E; [|discriminate].
  intros H. injection H as <-. exact (ends_with_split ".fits" d E).
Qed.

Lemma get_jobname_complete n rest :
  get_jobname ((n ++ ".fits")%string :: rest) = Ok n.
Proof.
  unfold get_jobname. rewrite ends_with_app, slength_app.
  cbn [String.length].
  replace (String.length n + 5 - 5) with (String.length n) by lia.
  now rewrite substring_app_l.
Qed.

(** X4.  [get_jobname] returns a name exactly when the first data file is
    that name followed by the FITS suffix. *)
Theorem get_jobname_fits (datafiles_ : list string) (n : string) :
  get_jobname datafiles_ = Ok n
  <-> exists rest, datafiles_ = ((n ++ ".fits")%string :: rest)%list.
Proof.
  split.
  - destruct datafiles_ as [|d rest]; [discriminate|].
    intros H. exists rest. f_equal. now apply get_jobname_sound in H.
  - intros (rest & ->). apply get_jobname_complete.
Qed.

(** ** The rotation pass and the queue *)

Lemma count_queue_queued job_basename js :
  forall nr nq r,
    count_queue job_basename js nr nq = Ok r ->
    snd r = nq + length (List.filter (queued job_basename) js).
Proof.
  induction js as [|j js IH]; intros nr nq r H.
  - injection H as <-. cbn. lia.
  - cbn [count_queue List.filter] in *. unfold queued at 1.
    destruct (Job_Name j) as [|name0 names]; [discriminate|].
    destruct (String.prefix job_basename name0); cbn [andb].
    + destruct (str_in "Q" (job_state j)).
      * apply IH in H. rewrite H. cbn [length]. lia.
      * destruct (str_in "R" (job_state j)); apply IH in H; exact H.
    + apply IH in H. exact H.
Qed.

Lemma filter_Exists_length {A} (f : A -> bool) (l : list A) :
  Exists (fun x => f x = true) l -> 0 < length (List.filter f l).
Proof.
  induction 1 as [x l Hx|x l _ IH]; cbn [List.filter].
  - rewrite Hx. cbn. lia.
  - destruct (f x); cbn; lia.
Qed.

(** X5.  While a job of the pipeline waits in the queue, a rotation pass
    submits nothing, whatever the statuses of the jobs in the pool. *)
Theorem rotate_waits_for_queue (job_basename : string)
    (alljobs : list pbs_job) (max_attempts : option nat)
    (self_submit_job self_delete_job self_upload_results :
       PulsarSearchJob -> M world unit)
    (self : JobPool) (w : world) (acts : list action) :
  Exists (fun j => queued job_basename j = true) alljobs ->
  submits
    (snd (snd (rotate job_basename alljobs max_attempts self_submit_job
                 self_delete_job self_upload_results self (w, acts))))
  = submits acts.
Proof.
  intros Hq. unfold rotate, Py.bind, lift_world, get_queue_status.
  destruct (count_queue job_basename alljobs 0 0) as [q|e] eqn:Eq;
    [|reflexivity].
  apply count_queue_queued in Eq.
  apply filter_Exists_length in Hq.
  assert (Hc : (snd q =? 0) = false) by (apply Nat.eqb_neq; lia).
  rewrite Hc.
  destruct (rotate_loop_pass max_attempts self_submit_job self_delete_job
              self_upload_results (jobs self) false w acts)
    as (new & Hcalls & _ & Hsub & _).
  rewrite Hcalls, submits_app. lia.
Qed.

Lemma justified_call_then_rest max_attempts (self_submit_job self_delete_job
      self_upload_results : PulsarSearchJob -> M world unit)
    rest c' a (m : M world unit) w acts :
  call_justified max_attempts a ->
  (forall w1 acts1, exists new,
     snd (snd (rotate_loop max_attempts self_submit_job self_delete_job
                 self_upload_results rest c' (w1, acts1)))
     = (acts1 ++ new)%list
     /\ Forall (call_justified max_attempts) new) ->
  exists new,
    snd (snd (Py.bind (invoke a m)
                (fun _ => rotate_loop max_attempts self_submit_job
                            self_delete_job self_upload_results rest c')
                (w, acts)))
    = (acts ++ new)%list
    /\ Forall (call_justified max_attempts) new.
Proof.
  intros Ha IH. unfold Py.bind, invoke.
  destruct (m w) as [[[]|e] w1].
  - destruct (IH w1 (acts ++ [a])%list) as (new & Hnew & Hall).
    exists (a :: new). rewrite Hnew, <- app_assoc. split; [reflexivity|].
    now constructor.
  - exists [a]. split; [reflexivity|]. now constructor.
Qed.

Lemma rotate_loop_justified max_attempts (self_submit_job self_delete_job
      self_upload_results : PulsarSearchJob -> M world unit) jobs_ :
  forall cansubmit w acts, exists new,
    snd (snd (rotate_loop max_attempts self_submit_job self_delete_job
                self_upload_results jobs_ cansubmit (w, acts)))
    = (acts ++ new)%list
    /\ Forall (call_justified max_attempts) new.
Proof.
  assert (Hnone : forall (r : outcome unit) (w : world) (acts : list action),
            exists new,
            snd (snd (r, (w, acts))) = (acts ++ new)%list
            /\ Forall (call_justified max_attempts) new).
  { intros r w acts. exists []. cbn [snd]. now rewrite app_nil_r. }
  induction jobs_ as [|job rest IH]; intros cansubmit w acts.
  - apply Hnone.
  - cbn [rotate_loop].
    destruct (get_status job) as [s|e] eqn:Es; [|apply Hnone].
    destruct (String.eqb (lower s) "submitted to queue"
              || String.eqb (lower s) "processing in progress") eqn:E1;
      [apply IH|].
    destruct (String.eqb (lower s) "processing failed") eqn:E2.
    { apply String.eqb_eq in E2.
      destruct max_attempts as [m|]; [|apply Hnone].
      destruct (count_status job "processing failed" <? m) eqn:En.
      - apply Nat.ltb_lt in En. destruct cansubmit; [|apply IH].
        apply justified_call_then_rest; [|intros; apply IH].
        exists s. split; [exact Es|]. right. split; [exact E2|]. eauto.
      - apply Nat.ltb_ge in En.
        apply justified_call_then_rest; [|intros; apply IH].
        exists s. split; [exact Es|]. right. split; [exact E2|]. eauto. }
    destruct (String.eqb (lower s) "processing successful") eqn:E3.
    { apply String.eqb_eq in E3.
      apply justified_call_then_rest; [|intros; apply IH].
      exists s. split; [exact Es | exact E3]. }
    destruct (String.eqb (lower s) "new job") eqn:E4.
    { apply String.eqb_eq in E4. destruct cansubmit; [|apply IH].
      apply justified_call_then_rest; [|intros; apply IH].
      exists s. split; [exact Es|]. left. exact E4. }
    destruct (String.eqb (lower s) "upload successful") eqn:E5.
    { apply String.eqb_eq in E5.
      apply justified_call_then_rest; [|intros; apply IH].
      exists s. split; [exact Es|]. left. exact E5. }
    apply Hnone.
Qed.

(** X6.  Every call a rotation pass makes is called for by the log of the
    job it is made on: a submission only for a job that is new or has
    failed fewer times than [max_attempts], a deletion only for a job that
    is uploaded or has failed that many times, an upload only for a job
    processed with success.  Nothing is called on a job that is submitted
    or in progress. *)
Theorem rotate_calls_justified (job_basename : string)
    (alljobs : list pbs_job) (max_attempts : option nat)
    (self_submit_job self_delete_job self_upload_results :
       PulsarSearchJob -> M world unit)
    (self : JobPool) (w : world) (acts : list action) :
  exists new,
    snd (snd (rotate job_basename alljobs max_attempts self_submit_job
                self_delete_job self_upload_results self (w, acts)))
    = (acts ++ new)%list
    /\ Forall (call_justified max_attempts) new.
Proof.
  unfold rotate, Py.bind, lift_world, get_queue_status.
  destruct (count_queue job_basename alljobs 0 0) as [q|e].
  - apply rotate_loop_justified.
  - exists []. cbn [snd]. now rewrite app_nil_r.
Qed.

(** ** The demand scan *)

Lemma still_in_demand_countable cma job w :
  countable_job job ->
  still_in_demand cma job w = (Ok (needs_files cma job), w).
Proof.
  intros (s & Hs & Hne). unfold still_in_demand, needs_files. rewrite Hs.
  destruct (str_in (lower s) demanded_statuses); [reflexivity|].
  destruct (String.eqb_spec (lower s) "processing failed") as [E|_];
    [contradiction | reflexivity].
Qed.

Lemma still_in_demand_failed cma job w :
  failed_job job ->
  still_in_demand cma job w
  = (Raise (TypeError "count_status() takes exactly 2 arguments (1 given)"), w).
Proof.
  intros (s & Hs & He). unfold still_in_demand. rewrite Hs, He. reflexivity.
Qed.

Lemma demand_loop_countable cma js :
  Forall countable_job js ->
  forall w count,
    holds_counts (demand_file_list w) count ->
    exists w',
      for_each js
        (fun job =>
           b <- still_in_demand cma job ;;
           if b then for_each (datafiles job) count_datafile else Py.ret tt) w
      = (Ok tt, w')
      /\ holds_counts (demand_file_list w')
           (fun d => count d + demand_count cma js d).
Proof.
  induction 1 as [|job js Hj _ IH]; intros w count Hm.
  - exists w. split; [reflexivity|].
    eapply holds_counts_ext; [|exact Hm]. intros d. simpl. lia.
  - cbn [for_each]. unfold Py.bind at 1 2.
    rewrite (still_in_demand_countable cma job w Hj).
    destruct (needs_files cma job) eqn:En.
    + destruct (count_datafiles_counts (datafiles job) w count Hm)
        as (w1 & Hrun1 & _ & Hm1).
      rewrite Hrun1.
      destruct (IH w1 _ Hm1) as (w2 & Hrun2 & Hm2).
      exists w2. split; [exact Hrun2|].
      eapply holds_counts_ext; [|exact Hm2].
      intros d. cbn [demand_count]. rewrite En. lia.
    + unfold Py.ret at 1.
      destruct (IH w count Hm) as (w2 & Hrun2 & Hm2).
      exists w2. split; [exact Hrun2|].
      eapply holds_counts_ext; [|exact Hm2].
      intros d. cbn [demand_count]. rewrite En. lia.
Qed.

Lemma demand_loop_failed cma pre job post :
  Forall countable_job pre -> failed_job job ->
  forall w,
    fst (for_each (pre ++ job :: post)
           (fun job =>
              b <- still_in_demand cma job ;;
              if b then for_each (datafiles job) count_datafile else Py.ret tt)
           w)
    = Raise (TypeError "count_status() takes exactly 2 arguments (1 given)").
Proof.
  intros Hpre Hjob. induction Hpre as [|j pre Hj _ IH]; intros w.
  - cbn [app for_each]. unfold Py.bind at 1 2.
    rewrite (still_in_demand_failed cma job w Hjob). reflexivity.
  - cbn [app for_each]. unfold Py.bind at 1 2.
    rewrite (still_in_demand_countable cma j w Hj).
    destruct (needs_files cma j).
    + destruct (for_each (datafiles j) count_datafile w) as [[[]|e] w1] eqn:E.
      * apply IH.
      * exfalso. revert E. clear. generalize w.
        induction (datafiles j) as [|d ds IHd]; intros w0 E; [discriminate|].
        cbn [for_each] in E. unfold Py.bind, count_datafile, Py.modify in E.
        eapply IHd, E.
    + unfold Py.ret at 1. apply IH.
Qed.

Lemma update_demand_countable cma self w :
  Forall countable_job (jobs self) ->
  exists w',
    update_demand_file_list cma self w = (Ok tt, w')
    /\ holds_counts (demand_file_list w') (demand_count cma (jobs self)).
Proof.
  intros Hjobs. unfold update_demand_file_list.
  erewrite bind_run by reflexivity.
  destruct (demand_loop_countable cma (jobs self) Hjobs
              (with_demand ∅ w) (fun _ => 0)) as (w' & Hrun & Hm).
  { intros x. cbn. apply lookup_empty. }
  exists w'. split; [exact Hrun|].
  eapply holds_counts_ext; [|exact Hm]. intros x. reflexivity.
Qed.

(** X7.  [is_in_demand] is decided by the first data file of the job
    alone: in a pool without a failed job it answers True if that file is
    demanded by some job and raises a KeyError if it is not, whatever the
    demand for the other files of the job. *)
Theorem is_in_demand_first_file (config_max_attempts : nat) (self : JobPool)
    (job : PulsarSearchJob) (w : world) (d : string) (ds : list string) :
  Forall countable_job (jobs self) ->
  datafiles job = (d :: ds)%list ->
  fst (is_in_demand config_max_attempts self job w)
  = if demand_count config_max_attempts (jobs self) d =? 0
    then Raise (KeyError d) else Ok true.
Proof.
  intros Hjobs Hd. unfold is_in_demand.
  destruct (update_demand_countable config_max_attempts self w Hjobs)
    as (w' & Hrun & Hm).
  erewrite bind_run by exact Hrun.
  rewrite Hd, (any_in_demand_first d ds w' _ Hm).
  destruct (_ =? 0); reflexivity.
Qed.

(** X8.  The demand scan does not get past a job whose log ends with a
    failure: reaching it, [update_demand_file_list] raises a TypeError, for
    the count of failures is asked for without naming the status. *)
Theorem demand_scan_stops_at_failed_job (config_max_attempts : nat)
    (self : JobPool) (w : world) (pre post : list PulsarSearchJob)
    (job : PulsarSearchJob) :
  jobs self = (pre ++ job :: post)%list ->
  Forall countable_job pre ->
  failed_job job ->
  fst (update_demand_file_list config_max_attempts self w)
  = Raise (TypeError "count_status() takes exactly 2 arguments (1 given)")
  /\ fst (is_in_demand config_max_attempts self job w)
     = Raise (TypeError "count_status() takes exactly 2 arguments (1 given)").
Proof.
  intros Hjobs Hpre Hjob.
  assert (H : fst (update_demand_file_list config_max_attempts self w)
              = Raise (TypeError
                         "count_status() takes exactly 2 arguments (1 given)")).
  { unfold update_demand_file_list. erewrite bind_run by reflexivity.
    rewrite Hjobs. now apply demand_loop_failed. }
  split; [exact H|].
  unfold is_in_demand, Py.bind at 1.
  destruct (update_demand_file_list config_max_attempts self w) as [[[]|e] w'];
    cbn [fst] in *; [discriminate H | injection H as ->; reflexivity].
Qed.

(** ** Jobs made from data files *)

Lemma init_job_of_file hostname import_time
    (repr_datafiles : list string -> string) d w job w' :
  writable_entry
    {| date := import_time; status := "New job"; host := hostname;
       info := ("Datafiles: " ++ repr_datafiles [d])%string |} ->
  PulsarSearchJob_init hostname import_time repr_datafiles [d] w
  = (Ok job, w') ->
  datafiles job = [d]
  /\ job_of_file w' job
  /\ (forall p ls, files w !! p = Some ls -> files w' !! p = Some ls).
Proof.
  intros He. unfold PulsarSearchJob_init.
  destruct (get_jobname [d]) as [n|] eqn:En; [|discriminate].
  apply get_jobname_sound in En.
  unfold JobLog_init, Py.bind, Py.get. cbv beta iota.
  destruct (files w !! (n ++ ".log")%string) as [ls|] eqn:Ef.
  - destruct (read ls) as [es|] eqn:Er;
      [|unfold Py.raise; intros H; discriminate H].
    unfold Py.ret. intros H. injection H as <- <-.
    split; [reflexivity|]. split; [|auto].
    unfold job_of_file.
    cbn [datafiles jobname logfilenm log logfn logentries].
    repeat split; [now rewrite En|]. eauto.
  - unfold addentry, Py.modify, Py.ret. intros H. injection H as <- <-.
    split; [reflexivity|]. split.
    + unfold job_of_file.
      cbn [datafiles jobname logfilenm log logfn logentries files with_files].
      repeat split; [now rewrite En|].
      eexists. split; [apply lookup_insert_eq|].
      rewrite Ef. cbn [default from_option app].
      now apply read_written_entry.
    + intros p ls Hp. cbn [files with_files].
      rewrite lookup_insert_ne by congruence. exact Hp.
Qed.

Lemma job_of_file_kept w w' job :
  (forall p ls, files w !! p = Some ls -> files w' !! p = Some ls) ->
  job_of_file w job -> job_of_file w' job.
Proof.
  intros Hk (H1 & H2 & H3 & ls & Hf & Hr).
  repeat split; auto. exists ls. auto.
Qed.

Lemma create_jobs_loop_spec hostname import_time
    (repr_datafiles : list string -> string) ds :
  (forall d, In d ds ->
     writable_entry
       {| date := import_time; status := "New job"; host := hostname;
          info := ("Datafiles: " ++ repr_datafiles [d])%string |}) ->
  forall js w js' w',
    create_jobs_loop hostname import_time repr_datafiles ds js w
    = (Ok js', w') ->
    exists new,
      js' = (js ++ new)%list
      /\ map datafiles new = map (fun d => [d]) ds
      /\ Forall (job_of_file w') new
      /\ (forall p ls, files w !! p = Some ls -> files w' !! p = Some ls).
Proof.
  induction ds as [|d ds IH]; intros Hw js w js' w' Hrun.
  - injection Hrun as <- <-. exists []. rewrite app_nil_r. auto.
  - cbn [create_jobs_loop] in Hrun. unfold Py.bind at 1 in Hrun.
    destruct (PulsarSearchJob_init hostname import_time repr_datafiles [d] w)
      as [[job|e] w1] eqn:Einit; [|discriminate].
    apply init_job_of_file in Einit as (Hd & Hjob & Hk1);
      [|apply Hw; now left].
    apply IH in Hrun as (new & -> & Hmap & Hall & Hk2);
      [|intros; apply Hw; now right].
    exists (job :: new). rewrite <- app_assoc. split; [reflexivity|].
    split; [cbn [map]; now rewrite Hd, Hmap|].
    split; [|auto].
    constructor; [|exact Hall].
    eapply job_of_file_kept; [exact Hk2 | exact Hjob].
Qed.

(** X9.  [create_jobs_from_datafiles], where it returns, has added to the
    pool one job for each data file, in the order of the files: the job
    lists that file alone, is named after it, and its log is on disk under
    that name with the suffix log and reads as the entries the job holds
    (host name and file names being free of separator and hash sign). *)
Theorem create_jobs_one_per_file (hostname import_time : string)
    (repr_datafiles : list string -> string) (self self' : JobPool)
    (w w' : world) :
  (forall d, In d (pool_datafiles self) ->
     writable_entry
       {| date := import_time; status := "New job"; host := hostname;
          info := ("Datafiles: " ++ repr_datafiles [d])%string |}) ->
  create_jobs_from_datafiles hostname import_time repr_datafiles self w
  = (Ok self', w') ->
  exists new,
    jobs self' = (jobs self ++ new)%list
    /\ map datafiles new = map (fun d => [d]) (pool_datafiles self)
    /\ Forall (job_of_file w') new.
Proof.
  intros Hw. unfold create_jobs_from_datafiles, Py.bind.
  destruct (create_jobs_loop hostname import_time repr_datafiles
              (pool_datafiles self) (jobs self) w) as [[js|e] w1] eqn:E;
    [|discriminate].
  unfold Py.ret. intros H. injection H as <- <-.
  apply create_jobs_loop_spec in E as (new & -> & Hmap & Hall & _);
    [|exact Hw].
  exists new. auto.
Qed.

(** ** Instances *)

Ltac writable :=
  repeat split;
  try (apply clean_field_run; vm_compute; reflexivity);
  try (vm_compute; reflexivity).

Lemma entry_round_trip_witness :
  one_line (entry_str submitted_entry)
  /\ logfmt_match (entry_str submitted_entry) = Some submitted_entry.
Proof.
  assert (H : one_line (entry_str submitted_entry))
    by (vm_compute; reflexivity).
  split; [exact H|].
  apply (proj2 (entry_round_trip submitted_entry H)).
  repeat split; apply clean_field_run; vm_compute; reflexivity.
Defined.

Lemma addentry_then_read_witness :
  lines_ended log_text_one = true
  /\ one_line (entry_str submitted_entry)
  /\ writable_entry submitted_entry
  /\ read (readlines log_text_one) = Ok [first_entry "a.fits"]
  /\ read (readlines (appended log_text_one submitted_entry))
     = Ok [first_entry "a.fits"; submitted_entry].
Proof.
  assert (H0 : lines_ended log_text_one = true) by (vm_compute; reflexivity).
  assert (H1 : one_line (entry_str submitted_entry))
    by (vm_compute; reflexivity).
  assert (H2 : writable_entry submitted_entry) by writable.
  assert (H3 : read (readlines log_text_one) = Ok [first_entry "a.fits"])
    by (vm_compute; reflexivity).
  split; [exact H0|]. split; [exact H1|]. split; [exact H2|].
  split; [exact H3|].
  exact (proj1 (proj2 (addentry_then_read log_text_one submitted_entry
                         [first_entry "a.fits"] H0 H1 H2 H3))).
Defined.

Lemma job_init_again_witness :
  PulsarSearchJob_init "hostA" "2020-01-01 00:00:00" repr_plain ["a.fits"]
    empty_world
  = (Ok (job_first "a"), world_one_log)
  /\ PulsarSearchJob_init "hostA" "2020-01-01 00:00:00" repr_plain ["a.fits"]
       world_one_log
     = (Ok (job_first "a"), world_one_log).
Proof.
  assert (H1 : writable_entry
                 {| date := "2020-01-01 00:00:00"; status := "New job";
                    host := "hostA";
                    info := ("Datafiles: " ++ repr_plain ["a.fits"])%string |})
    by writable.
  assert (H2 : PulsarSearchJob_init "hostA" "2020-01-01 00:00:00" repr_plain
                 ["a.fits"] empty_world
               = (Ok (job_first "a"), world_one_log))
    by (vm_compute; reflexivity).
  split; [exact H2|].
  exact (job_init_again "hostA" "2020-01-01 00:00:00" repr_plain ["a.fits"]
           empty_world world_one_log (job_first "a") H1 H2).
Defined.

Lemma rotate_waits_for_queue_witness :
  Exists (fun j => queued "palfa" j = true) queue_busy
  /\ submits
       (snd (snd (rotate "palfa" queue_busy (Some 2) submit_and_log do_nothing
                    do_nothing pool_three_new (empty_world, []))))
     = 0.
Proof.
  assert (H : Exists (fun j => queued "palfa" j = true) queue_busy)
    by (constructor 1; reflexivity).
  split; [exact H|].
  exact (rotate_waits_for_queue "palfa" queue_busy (Some 2) submit_and_log
           do_nothing do_nothing pool_three_new empty_world [] H).
Defined.

Lemma is_in_demand_first_file_witness :
  Forall countable_job (jobs pool_uploaded_only)
  /\ fst (is_in_demand 2 pool_uploaded_only job_shared_uploaded world_shared)
     = Raise (KeyError "shared.fits").
Proof.
  assert (H : Forall countable_job (jobs pool_uploaded_only)).
  { repeat constructor. exists "Upload successful".
    split; [reflexivity|]. intros E. vm_compute in E. discriminate E. }
  split; [exact H|].
  exact (is_in_demand_first_file 2 pool_uploaded_only job_shared_uploaded
           world_shared "shared.fits" [] H eq_refl).
Defined.

Lemma demand_scan_stops_at_failed_job_witness :
  Forall countable_job [job_running]
  /\ failed_job job_failed_once
  /\ fst (update_demand_file_list 2 pool_failed empty_world)
     = Raise (TypeError "count_status() takes exactly 2 arguments (1 given)")
  /\ fst (is_in_demand 2 pool_failed job_failed_once empty_world)
     = Raise (TypeError "count_status() takes exactly 2 arguments (1 given)").
Proof.
  assert (H1 : Forall countable_job [job_running]).
  { repeat constructor. exists "Processing in progress".
    split; [reflexivity|]. intros E. vm_compute in E. discriminate E. }
  assert (H2 : failed_job job_failed_once)
    by (exists "Processing failed"; split; reflexivity).
  split; [exact H1|]. split; [exact H2|].
  exact (demand_scan_stops_at_failed_job 2 pool_failed empty_world
           [job_running] [] job_failed_once eq_refl H1 H2).
Defined.

Lemma create_jobs_one_per_file_witness :
  create_jobs_from_datafiles "hostA" "2020-01-01 00:00:00" repr_plain
    pool_two_files empty_world
  = (Ok pool_two_jobs, world_two_logs)
  /\ exists new,
       jobs pool_two_jobs = (jobs pool_two_files ++ new)%list
       /\ map datafiles new = map (fun d => [d]) (pool_datafiles pool_two_files)
       /\ Forall (job_of_file world_two_logs) new.
Proof.
  assert (H1 : forall d, In d (pool_datafiles pool_two_files) ->
                 writable_entry
                   {| date := "2020-01-01 00:00:00"; status := "New job";
                      host := "hostA";
                      info := ("Datafiles: " ++ repr_plain [d])%string |}).
  { intros d [<-|[<-|[]]]; writable. }
  assert (H2 : create_jobs_from_datafiles "hostA" "2020-01-01 00:00:00"
                 repr_plain pool_two_files empty_world
               = (Ok pool_two_jobs, world_two_logs))
    by (vm_compute; reflexivity).
  split; [exact H2|].
  exact (create_jobs_one_per_file "hostA" "2020-01-01 00:00:00" repr_plain
           pool_two_files pool_two_jobs empty_world world_two_logs H1 H2).
Defined.

(** ** The pass with the methods of the class *)

Lemma class_loop_ok delete_rawdata log_archive qsub_stdout self jobs_ :
  forall cansubmit w acts w' acts',
    rotate_loop None (submit_job qsub_stdout)
      (delete_job delete_rawdata log_archive self) upload_results
      jobs_ cansubmit (w, acts)
    = (Ok tt, (w', acts')) ->
    w' = w
    /\ exists new,
         acts' = (acts ++ new)%list
         /\ Forall (fun a => is_delete a = true) new
         /\ (new <> [] -> delete_rawdata = false).
Proof.
  induction jobs_ as [|job rest IH]; intros cansubmit w acts w' acts' Hrun.
  - injection Hrun as <- <-. split; [reflexivity|]. exists [].
    rewrite app_nil_r. repeat split; auto. congruence.
  - cbn [rotate_loop] in Hrun.
    destruct (get_status job) as [s|e]; [|discriminate].
    destruct (String.eqb (lower s) "submitted to queue"
              || String.eqb (lower s) "processing in progress");
      [now apply IH in Hrun|].
    destruct (String.eqb (lower s) "processing failed"); [discriminate|].
    destruct (String.eqb (lower s) "processing successful"); [discriminate|].
    destruct (String.eqb (lower s) "new job").
    { destruct cansubmit; [discriminate | now apply IH in Hrun]. }
    destruct (String.eqb (lower s) "upload successful"); [|discriminate].
    unfold Py.bind, invoke, delete_job in Hrun.
    destruct delete_rawdata; [discriminate|].
    cbn [Py.ret] in Hrun. apply IH in Hrun as (-> & new & -> & Hall & _).
    split; [reflexivity|]. exists (Delete job :: new).
    rewrite <- app_assoc. repeat split; auto.
Qed.

(** X21.  The pass with the methods as the class defines them: where it
    ends normally it has changed nothing in the world, neither a file nor
    the queue, and the only calls it made are deletions with
    [delete_rawdata] switched off, which do nothing.  So a pass that makes
    a submission, an upload or a deletion with the switch on does not end
    normally. *)
Theorem JobPool_rotate_ok_changes_nothing (job_basename : string)
    (delete_rawdata : bool) (log_archive : string) (alljobs : list pbs_job)
    (qsub_stdout : list string -> string) (self : JobPool)
    (w w' : world) (acts acts' : list action) :
  JobPool_rotate job_basename delete_rawdata log_archive alljobs qsub_stdout
    self (w, acts) = (Ok tt, (w', acts')) ->
  w' = w
  /\ exists new,
       acts' = (acts ++ new)%list
       /\ Forall (fun a => is_delete a = true) new
       /\ (new <> [] -> delete_rawdata = false).
Proof.
  unfold JobPool_rotate, rotate, Py.bind, lift_world, get_queue_status.
  destruct (count_queue job_basename alljobs 0 0) as [q|e]; [|discriminate].
  apply class_loop_ok.
Qed.

Lemma JobPool_rotate_ok_changes_nothing_witness :
  JobPool_rotate "palfa" false "archive" [] (fun _ => "7.queue") pool_shared
    (world_shared, [])
  = (Ok tt, (world_shared, [Delete job_shared_uploaded]))
  /\ exists new,
       [Delete job_shared_uploaded] = ([] ++ new)%list
       /\ Forall (fun a => is_delete a = true) new
       /\ (new <> [] -> false = false).
Proof.
  assert (H : JobPool_rotate "palfa" false "archive" [] (fun _ => "7.queue")
                pool_shared (world_shared, [])
              = (Ok tt, (world_shared, [Delete job_shared_uploaded])))
    by reflexivity.
  split; [exact H|].
  exact (proj2 (JobPool_rotate_ok_changes_nothing "palfa" false "archive" []
                  (fun _ => "7.queue") pool_shared world_shared world_shared
                  [] [Delete job_shared_uploaded] H)).
Defined.

(** ** A log without entries *)

(** X22.  A log file that holds no entry (it is empty, or all comments and
    blank lines) is read without complaint: the job is constructed with no
    entries and nothing is written, but it has no status, and a rotation
    pass that comes to it ends in an IndexError with nothing called. *)
Theorem empty_log_has_no_status (hostname import_time : string)
    (repr_datafiles : list string -> string) (datafiles_ : list string)
    (n : string) (file_lines : list string) (w : world) :
  get_jobname datafiles_ = Ok n ->
  files w !! (n ++ ".log")%string = Some file_lines ->
  kept_lines file_lines = [] ->
  exists job,
    PulsarSearchJob_init hostname import_time repr_datafiles datafiles_ w
    = (Ok job, w)
    /\ logentries (log job) = []
    /\ get_status job = Raise IndexError
    /\ forall max_attempts
         (self_submit_job self_delete_job self_upload_results :
            PulsarSearchJob -> M world unit) pre post cansubmit st,
         Forall waiting_job pre ->
         rotate_loop max_attempts self_submit_job self_delete_job
           self_upload_results (pre ++ job :: post) cansubmit st
         = (Raise IndexError, st).
Proof.
  intros Hn Hf Hk. unfold PulsarSearchJob_init. rewrite Hn.
  unfold JobLog_init, Py.bind, Py.get. cbv beta iota. rewrite Hf.
  unfold read. rewrite Hk. cbn [check_lines parse_lines]. unfold Py.ret.
  eexists. split; [reflexivity|]. cbn [log logentries].
  split; [reflexivity|]. split; [reflexivity|].
  intros max_attempts ss sd su pre post c st Hpre.
  rewrite (rotate_loop_waiting max_attempts ss sd su pre Hpre).
  reflexivity.
Qed.

Lemma empty_log_has_no_status_witness :
  get_jobname ["e.fits"] = Ok "e"
  /\ kept_lines ["# log of job e"; "   "] = []
  /\ exists job,
       PulsarSearchJob_init "hostA" "2020-01-01 00:00:00" repr_plain ["e.fits"]
         world_empty_log
       = (Ok job, world_empty_log)
       /\ get_status job = Raise IndexError.
Proof.
  split; [reflexivity|]. split; [reflexivity|].
  destruct (empty_log_has_no_status "hostA" "2020-01-01 00:00:00" repr_plain
              ["e.fits"] "e" ["# log of job e"; "   "] world_empty_log
              eq_refl eq_refl eq_refl) as (job & Hrun & _ & Hs & _).
  exists job. split; [exact Hrun | exact Hs].
Defined.

End JobExtra.

(* ===================================================================== *)
(** * Downloader.py: what a pass leaves behind *)
(* ===================================================================== *)

Module DownloaderExtra.
Import Text Jobtracker Downloader DownloaderSpec DownloaderMore Fixtures
  DownloaderFixtures
  PyFacts DownloaderProofs.

(** ** Keeping a property through a computation *)

Lemma keeps_ret {S A} (P : S -> Prop) (a : A) : keeps P (Py.ret a).
Proof. intros s Hs. exact Hs. Qed.

Lemma keeps_raise {S A} (P : S -> Prop) e : keeps P (@Py.raise S A e).
Proof. intros s Hs. exact Hs. Qed.

Lemma keeps_bind {S A B} (P : S -> Prop) (c : M S A) (k : A -> M S B) :
  keeps P c -> (forall a, keeps P (k a)) -> keeps P (Py.bind c k).
Proof.
  intros Hc Hk s Hs. unfold Py.bind. specialize (Hc s Hs).
  destruct (c s) as [[a|e] s1]; cbn [snd] in *; [now apply Hk | exact Hc].
Qed.

Lemma keeps_for_each {S A} (P : S -> Prop) (body : A -> M S unit) xs :
  (forall x, keeps P (body x)) -> keeps P (for_each xs body).
Proof.
  intros Hb. induction xs as [|x xs IH]; [apply keeps_ret|].
  cbn [for_each]. apply keeps_bind; [apply Hb | intros _; exact IH].
Qed.

(** ** The statements of a download pass leave [requests] alone *)

Section Frame.

Variable R : list request_row.

Lemma keeps_select_downloads w : keeps (requests_are R) (select_downloads w).
Proof. intros d Hd. now rewrite select_downloads_run. Qed.

Lemma keeps_select_download_attempts w :
  keeps (requests_are R) (select_download_attempts w).
Proof. intros d Hd. now rewrite select_download_attempts_run. Qed.

Lemma keeps_select_requests w : keeps (requests_are R) (select_requests w).
Proof. intros d Hd. now rewrite select_requests_run. Qed.

Lemma keeps_update_downloads f w : keeps (requests_are R) (update_downloads f w).
Proof. intros d Hd. now rewrite update_downloads_run. Qed.

Lemma keeps_update_download_attempts f w :
  keeps (requests_are R) (update_download_attempts f w).
Proof. intros d Hd. now rewrite update_download_attempts_run. Qed.

Lemma keeps_insert_download v : keeps (requests_are R) (insert_download v).
Proof. intros d Hd. now rewrite insert_download_run. Qed.

Lemma keeps_insert_download_attempt v :
  keeps (requests_are R) (insert_download_attempt v).
Proof. intros d Hd. now rewrite insert_download_attempt_run. Qed.

Lemma keeps_values_id self : keeps (requests_are R) (values_id self).
Proof. unfold values_id. destruct (values self); [apply keeps_ret | apply keeps_raise]. Qed.

Variable numretries : nat.
Variable temp : string.
Variable now : string.
Variable poll : downloader -> thread_view.
Variable stat : string -> option nat.

Lemma keeps_create_dl_entries self :
  keeps (requests_are R) (create_dl_entries temp now self).
Proof.
  unfold create_dl_entries. apply keeps_for_each. intros [filename filesize].
  apply keeps_bind; [apply keeps_values_id | intros id].
  apply keeps_bind; [apply keeps_select_downloads | intros dl_check].
  destruct (length dl_check =? 0); [|apply keeps_ret].
  apply keeps_bind; [apply keeps_insert_download | intros; apply keeps_ret].
Qed.

Lemma keeps_start_downloaders guid_ rows :
  forall dls, keeps (requests_are R) (start_downloaders numretries now guid_ rows dls).
Proof.
  induction rows as [|x rows IH]; intros dls; cbn [start_downloaders];
    [apply keeps_ret|].
  apply keeps_bind; [apply keeps_select_download_attempts | intros attempts].
  destruct (negb (dict_has (dl_remote_filename x) dls)); [|apply IH].
  destruct (length attempts <? numretries); [|apply IH].
  apply keeps_bind; [apply keeps_insert_download_attempt | intros; apply IH].
Qed.

Lemma keeps_record_outcome status_ w filename :
  keeps (requests_are R) (record_outcome now poll status_ w filename).
Proof.
  unfold record_outcome.
  apply keeps_bind;
    [apply keeps_update_download_attempts
    | intros; apply keeps_update_downloads].
Qed.

Lemma keeps_downloaded_size_match id :
  keeps (requests_are R) (downloaded_size_match stat id).
Proof.
  unfold downloaded_size_match.
  apply keeps_bind; [apply keeps_select_download_attempts | intros attempts].
  destruct attempts as [|a ?]; [apply keeps_raise|].
  apply keeps_bind; [apply keeps_select_downloads | intros dls].
  destruct dls as [|x ?]; [apply keeps_raise|].
  destruct (stat (dl_filename x)); apply keeps_ret.
Qed.

Lemma keeps_reconcile filename dls :
  keeps (requests_are R) (reconcile now poll stat filename dls).
Proof.
  unfold reconcile. destruct (dls !! filename) as [w|]; [|apply keeps_raise].
  destruct (negb (alive (poll w))).
  - apply keeps_bind; [|intros; apply keeps_ret].
    destruct (String.eqb (w_status (poll w)) "failed");
      [apply keeps_record_outcome|].
    destruct (String.eqb (w_status (poll w)) "downloaded"); [|apply keeps_ret].
    apply keeps_bind; [apply keeps_downloaded_size_match | intros matches].
    destruct matches; apply keeps_record_outcome.
  - apply keeps_bind; [apply keeps_record_outcome | intros; apply keeps_ret].
Qed.

Lemma keeps_reconcile_loop keys :
  forall dls, keeps (requests_are R) (reconcile_loop now poll stat keys dls).
Proof.
  induction keys as [|k keys IH]; intros dls; cbn [reconcile_loop];
    [apply keeps_ret|].
  apply keeps_bind; [apply keeps_reconcile | intros; apply IH].
Qed.

Lemma keeps_download self :
  keeps (requests_are R) (download numretries temp now poll stat self).
Proof.
  unfold download.
  apply keeps_bind; [apply keeps_values_id | intros id].
  apply keeps_bind; [apply keeps_select_downloads | intros dl_entries].
  apply keeps_bind.
  { destruct (dict_is_empty (downloaders self)); [|apply keeps_ret].
    destruct dl_entries; [apply keeps_create_dl_entries | apply keeps_ret]. }
  intros _.
  apply keeps_bind; [apply keeps_values_id | intros id'].
  apply keeps_bind; [apply keeps_select_downloads | intros dl_entries'].
  apply keeps_bind; [apply keeps_start_downloaders | intros dls].
  apply keeps_bind; [apply keeps_reconcile_loop | intros; apply keeps_ret].
Qed.

End Frame.

(** X10.  [download] writes nothing to the table of requests, however it
    ends, an exception on the way included: what becomes of the request is
    left to [is_finished] and [get_files]. *)
Theorem download_keeps_requests (numretries : nat) (temp now : string)
    (poll : downloader -> thread_view) (stat : string -> option nat)
    (self : restore) (d : db) :
  requests (snd (download numretries temp now poll stat self d)) = requests d.
Proof. now apply (keeps_download (requests d)). Qed.

(** ** The threads a pass leaves in the table *)

Section Live.

Variable numretries : nat.
Variable temp : string.
Variable now : string.
Variable poll : downloader -> thread_view.
Variable stat : string -> option nat.








End Live.



(** ** restore.request *)







(** ** restore.get_files *)

Lemma sizes_loop_frame size_of names :
  forall self,
    let self' := fst (sizes_loop size_of names self) in
    values self' = values self
    /\ guid self' = guid self
    /\ downloaders self' = downloaders self
    /\ num_beams self' = num_beams self
    /\ (forall f, ignored f = true -> files self' !! f = files self !! f).
Proof.
  induction names as [|file names IH]; intros self; cbn [sizes_loop];
    [cbn; auto|].
  destruct (ignored file) eqn:Ei; cbn [negb]; [apply IH|].
  destruct (size_of file) as [n|msg]; [|cbn; auto].
  destruct (IH (add_file file n self)) as (H1 & H2 & H3 & H4 & H5).
  cbn zeta. rewrite H1, H2, H3, H4. repeat split; auto.
  intros f Hf. rewrite (H5 f Hf). cbn [files add_file].
  apply lookup_insert_ne. congruence.
Qed.


Lemma listing_try_frame p fl self :
  let self' := snd (listing_try p fl self) in
  values self' = values self
  /\ guid self' = guid self
  /\ downloaders self' = downloaders self
  /\ num_beams self' = num_beams self
  /\ (forall f, ignored f = true -> files self' !! f = files self !! f).
Proof.
  assert (Hsame : values self = values self /\ guid self = guid self
                  /\ downloaders self = downloaders self
                  /\ num_beams self = num_beams self
                  /\ (forall f, ignored f = true ->
                                files self !! f = files self !! f))
    by auto.
  unfold listing_try.
  destruct (ls_connect p); [|exact Hsame].
  destruct (ls_login p) as [login_response|]; [|exact Hsame].
  destruct (negb (String.eqb login_response _)); [exact Hsame|].
  destruct (ls_cwd p) as [cwd_response|]; [|exact Hsame].
  destruct (negb (String.eqb cwd_response _)); [exact Hsame|].
  destruct (ls_nlst p) as [names|]; [|exact Hsame].
  pose proof (sizes_loop_frame (ls_size p) names self) as H.
  destruct (sizes_loop (ls_size p) names self) as [self' []]; exact H.
Qed.

Lemma guid_text_frame self self' :
  guid self' = guid self -> guid_text self' = guid_text self.
Proof. unfold guid_text. now intros ->. Qed.

(** Where [get_files] ends, the object has changed in [files] and [size]
    only, ignored names are as before, and the table of requests has been
    left, or its rows with the guid have been given a size, or they have
    been closed as not found. *)
Lemma get_files_loop_frame now passes fuel :
  forall i fl slept_ self d res d',
    get_files_loop now fuel passes i fl slept_ self d = (Ok (Some res), d') ->
    values (object res) = values self
    /\ guid (object res) = guid self
    /\ downloaders (object res) = downloaders self
    /\ (forall f, ignored f = true ->
                  files (object res) !! f = files self !! f)
    /\ downloads d' = downloads d
    /\ download_attempts d' = download_attempts d
    /\ (requests d' = requests d
        \/ (returned res = PyNone
            /\ requests d'
               = update (set_request_size (size (object res)))
                   (has_guid (guid_text self)) (requests d))
        \/ (returned res = PyFalse /\ mailed res = true
            /\ requests d'
               = update (set_request_not_found now)
                   (has_guid (guid_text self)) (requests d))).
Proof.
  induction fuel as [|fuel IH]; intros i fl slept_ self d res d' Hrun;
    [discriminate|].
  cbn [get_files_loop] in Hrun.
  pose proof (listing_try_frame (passes i) fl self) as Hfr.
  destruct (listing_try (passes i) fl self) as [[e fl'] self1].
  cbn [snd] in Hfr. destruct Hfr as (H1 & H2 & H3 & _ & H5).
  destruct e.
  - rewrite (guid_text_frame _ _ H2) in Hrun.
    injection Hrun as <- <-. cbn [object returned requests downloads
      download_attempts]. repeat split; auto.
  - injection Hrun as <- <-. cbn [object]. repeat split; auto.
  - destruct (connected fl' && logged_in fl' && negb (cwd fl')).
    + rewrite (guid_text_frame _ _ H2) in Hrun.
      injection Hrun as <- <-. cbn [object returned mailed requests downloads
        download_attempts]. repeat split; auto.
    + apply IH in Hrun as (G1 & G2 & G3 & G4 & G5 & G6 & G7).
      rewrite (guid_text_frame _ _ H2) in G7.
      rewrite G1, G2, G3. repeat split; auto.
      intros f Hf. now rewrite G4, H5.
Qed.

(** X14.  Files to ignore: whatever the server answers and however many
    passes it takes, where [get_files] ends no name holding the text
    7.w4bit.fits has been entered into [files], and nothing of the object
    but [files] and [size] has changed. *)
Theorem get_files_ignores (now : string) (fuel : nat)
    (passes : nat -> listing_pass) (self : restore) (d d' : db)
    (res : listing) :
  get_files now fuel passes self d = (Ok (Some res), d') ->
  (forall f, ignored f = true -> files (object res) !! f = files self !! f)
  /\ values (object res) = values self
  /\ guid (object res) = guid self
  /\ downloaders (object res) = downloaders self.
Proof.
  unfold get_files. intros Hrun.
  apply get_files_loop_frame in Hrun as (G1 & G2 & G3 & G4 & _).
  auto.
Qed.




(** ** restore.run and the life of a request *)











(** ** DownloadModule.can_request_more and DownloadModule.run *)

Lemma total_size_loop_sum rs :
  Forall (fun r => is_Some (values r)) rs ->
  forall total_size,
    total_size_loop rs total_size
    = Ok (total_size + Z.of_nat (announced rs))%Z.
Proof.
  unfold announced.
  induction 1 as [|r rs [v Hv] _ IH]; intros total_size.
  - cbn. f_equal. lia.
  - cbn [total_size_loop map list_sum fold_right]. rewrite Hv.
    fold (list_sum (map (fun r => match values r with
                                  | Some v => default 0 (rq_size v)
                                  | None => 0
                                  end) rs)).
    destruct (rq_size v) as [n|]; cbn [default from_option id].
    + destruct (Nat.eqb_spec n 0) as [->|Hn]; cbn [negb];
        rewrite IH; f_equal; lia.
    + rewrite IH. f_equal; lia.
Qed.

(** X18.  [can_request_more], when every restore held has its row: it
    answers True exactly when fewer than [numrestores] restores are held
    and the bytes in the staging directory together with the bytes the held
    restores announce stay below [space_to_use]. *)
Theorem can_request_more_spec (numrestores : nat) (space_to_use : Z)
    (folder_size : nat) (self : DownloadModule) :
  Forall (fun r => is_Some (values r)) (restores self) ->
  can_request_more numrestores space_to_use folder_size self
  = Ok ((length (restores self) <? numrestores)
        && (Z.of_nat folder_size + Z.of_nat (announced (restores self))
            <? space_to_use)%Z).
Proof.
  intros Hall. unfold can_request_more, get_available_space.
  destruct (Nat.leb_spec numrestores (length (restores self))) as [Hle|Hlt].
  - assert (E : (length (restores self) <? numrestores) = false)
      by (apply Nat.ltb_ge; exact Hle).
    now rewrite E.
  - assert (E : (length (restores self) <? numrestores) = true)
      by (apply Nat.ltb_lt; exact Hlt).
    rewrite E, (total_size_loop_sum _ Hall). cbn [andb]. f_equal.
    destruct (Z.ltb_spec 0
                (space_to_use - Z.of_nat folder_size
                 - (0 + Z.of_nat (announced (restores self)))));
      destruct (Z.ltb_spec
                  (Z.of_nat folder_size + Z.of_nat (announced (restores self)))
                  space_to_use); auto; lia.
Qed.

Lemma run_restores_length res_run snapshot :
  forall kept d l d',
    run_restores res_run snapshot kept d = (Ok (Some l), d') ->
    length l <= length kept + length snapshot.
Proof.
  induction snapshot as [|res rest IH]; intros kept d l d' Hrun.
  - injection Hrun as <- <-. cbn. lia.
  - cbn [run_restores] in Hrun. unfold Py.bind at 1 in Hrun.
    destruct (res_run res d) as [[[[v res']|]|e] d1]; try discriminate.
    destruct (negb (truthy v)).
    + apply IH in Hrun. cbn [length]. lia.
    + unfold Py.bind at 1 in Hrun.
      destruct (status res' d1) as [[[]|e] d2]; [|discriminate].
      apply IH in Hrun. rewrite length_app in Hrun. cbn [length] in *. lia.
Qed.

(** X19.  One turn of the loop of [DownloadModule.run] never takes the
    number of restores held above [numrestores]: whatever [run] of the
    restores does, a module within the limit stays within it, and a module
    above it does not grow. *)
Theorem run_once_holds_limit (numrestores : nat) (space_to_use : Z)
    (folder_size : nat) (now : string) (restore_reply : ws_reply)
    (res_run : restore -> M db (option (py_value * restore)))
    (self self' : DownloadModule) (d d' : db) :
  DownloadModule_run_once numrestores space_to_use folder_size now
    restore_reply res_run self d = (Ok (Some self'), d') ->
  length (restores self')
  <= Nat.max (length (restores self)) numrestores.
Proof.
  unfold DownloadModule_run_once. unfold Py.bind at 1.
  destruct (can_request_more numrestores space_to_use folder_size self)
    as [can|e] eqn:Ecan; [|discriminate].
  assert (Hcan : can = true -> length (restores self) < numrestores).
  { intros ->. unfold can_request_more in Ecan.
    destruct (Nat.leb_spec numrestores (length (restores self)));
      [discriminate | assumption]. }
  unfold Py.bind at 1.
  set (grow := if can then _ else _).
  assert (Hgrow : forall l d1, grow d = (Ok l, d1) ->
            length l <= Nat.max (length (restores self)) numrestores).
  { unfold grow. destruct can.
    - specialize (Hcan eq_refl). intros l d1.
      unfold restore_init. erewrite bind_run by reflexivity.
      unfold Py.bind at 1.
      match goal with
      | |- context [request now restore_reply ?s] =>
          destruct (request now restore_reply s d) as [[[v s']|e] d2]
      end; [|discriminate].
      cbn [fst snd].
      destruct (truthy v); intros H; injection H as <- <-;
        rewrite ?length_app; cbn [length]; lia.
    - intros l d1 H. injection H as <- <-. lia. }
  destruct (grow d) as [[l|e] d1] eqn:Eg; [|discriminate].
  pose proof (Hgrow l d1 eq_refl) as Hl.
  unfold Py.bind at 1.
  destruct (run_restores res_run l [] d1) as [[[kept|]|e] d2] eqn:Erun;
    try discriminate.
  intros H. injection H as <- <-. cbn [restores option_map].
  apply run_restores_length in Erun. cbn [length] in Erun. lia.
Qed.

(** ** The thread, from its start to its end *)

Lemma login_loop_got (passes : nat -> ftp_pass) fuel :
  forall i self self',
    login_loop fuel passes i self = Some self' ->
    th_total_size_got self' = th_total_size_got self.
Proof.
  induction fuel as [|fuel IH]; intros i self self' H; [discriminate|].
  cbn [login_loop] in H.
  assert (Hretry : forall self1,
            th_total_size_got self1 = th_total_size_got self ->
            login_loop fuel passes (S i) (sleep_1 self1) = Some self' ->
            th_total_size_got self' = th_total_size_got self).
  { intros self1 H1 H2. apply IH in H2. now rewrite H2. }
  destruct (p_connect (passes i)); [|eapply Hretry; [|exact H]; reflexivity].
  destruct (p_login (passes i)) as [login_response|];
    [|eapply Hretry; [|exact H]; reflexivity].
  destruct (p_cwd (passes i)) as [cwd_response|].
  - injection H as <-.
    destruct (negb (String.eqb login_response _));
      destruct (negb (String.eqb cwd_response _)); reflexivity.
  - eapply Hretry; [|exact H].
    destruct (negb (String.eqb login_response _)); reflexivity.
Qed.

Lemma write_blocks_got progress blocks :
  forall self,
    th_total_size_got (fold_left (fun s len => write progress len s) blocks self)
    = th_total_size_got self + list_sum blocks.
Proof.
  induction blocks as [|b blocks IH]; intros self; cbn [fold_left].
  - cbn. lia.
  - rewrite IH. cbn [write th_total_size_got list_sum fold_right].
    fold (list_sum blocks). lia.
Qed.

(** X20.  A thread that ends, ends as downloaded or as failed.  It ends as
    downloaded exactly when the local file could be opened, the server
    announced a size that is not zero, the transfer was started and came
    to its end, and the file and the connection could be closed after it;
    the bytes it then reports are the lengths of the blocks received, added
    up, whatever size was announced. *)
Theorem run_ends_downloaded_or_failed (progress : nat -> nat -> string)
    (fuel : nat) (passes : nat -> ftp_pass) (t : ftp_transfer)
    (self self' : thread) :
  run progress fuel passes t self = Some self' ->
  (th_status self' = "downloaded" \/ th_status self' = "failed")
  /\ (th_status self' = "downloaded"
      <-> t_open t = Returns tt
          /\ (exists n, t_size t = Returns (S n))
          /\ t_type_i t = Returns tt
          /\ (exists r, t_retr t = Returns r)
          /\ t_close t = Returns tt)
  /\ (th_status self' = "downloaded" ->
      th_total_size_got self'
      = th_total_size_got self + list_sum (t_blocks t)).
Proof.
  unfold run.
  destruct (login_loop fuel passes 0 self) as [self1|] eqn:El; [|discriminate].
  apply login_loop_got in El.
  destruct (t_open t) as [[]|e] eqn:Eo.
  2:{ cbn. intros H. injection H as <-. cbn.
      split; [now right|]. split; [|discriminate].
      split; [discriminate | intros (H & _); discriminate H]. }
  cbn [set_status_only set_status th_status].
  change (String.eqb "New" "failed") with false. cbv iota.
  intros H. injection H as <-. unfold transfer, transfer_failed, finished.
  destruct (t_size t) as [n|e] eqn:Es.
  2:{ cbn. split; [now right|]. split; [|discriminate].
      split; [discriminate | intros (_ & (n & H) & _); discriminate H]. }
  destruct n as [|n].
  { cbn. split; [now right|]. split; [|discriminate].
    split; [discriminate | intros (_ & (n & H) & _); discriminate H]. }
  cbn [Nat.eqb].
  destruct (t_type_i t) as [[]|e] eqn:Et.
  2:{ cbn. split; [now right|]. split; [|discriminate].
      split; [discriminate | intros (_ & _ & H & _); discriminate H]. }
  destruct (t_retr t) as [r|e] eqn:Er.
  2:{ cbn. split; [now right|]. split; [|discriminate].
      split; [discriminate | intros (_ & _ & _ & (r & H) & _); discriminate H]. }
  destruct (t_close t) as [[]|e] eqn:Ec.
  2:{ cbn. split; [now right|]. split; [|discriminate].
      split; [discriminate | intros (_ & _ & _ & _ & H); discriminate H]. }
  cbn [fst set_status th_status th_total_size_got].
  split; [now left|]. split; [split; eauto 8|].
  intros _. rewrite write_blocks_got. cbn. lia.
Qed.

(** ** restore.create_dl_entries *)




(** ** Instances *)



Lemma get_files_ignores_witness :
  exists res d',
    get_files "t1" 1 listing_ok fresh_restore store_ready_only
    = (Ok (Some res), d')
    /\ files (object res) !! "p2030.7.w4bit.fits" = None.
Proof.
  assert (Hok : match fst (get_files "t1" 1 listing_ok fresh_restore
                             store_ready_only) with
                | Ok (Some _) => true
                | _ => false
                end = true)
    by (vm_compute; reflexivity).
  assert (Hig : ignored "p2030.7.w4bit.fits" = true)
    by (vm_compute; reflexivity).
  revert Hok.
  destruct (get_files "t1" 1 listing_ok fresh_restore store_ready_only)
    as [[[res|]|e] d'] eqn:E;
    cbn [fst]; intros Hok; [|discriminate Hok..].
  exists res, d'. split; [reflexivity|].
  destruct (get_files_ignores "t1" 1 listing_ok fresh_restore
              store_ready_only d' res E) as [H _].
  rewrite (H "p2030.7.w4bit.fits" Hig). vm_compute. reflexivity.
Defined.




Lemma can_request_more_spec_witness :
  Forall (fun r => is_Some (values r)) (restores module_one)
  /\ can_request_more 2 1000 400 module_one = Ok true
  /\ can_request_more 1 1000 400 module_one = Ok false.
Proof.
  assert (H : Forall (fun r => is_Some (values r)) (restores module_one))
    by (repeat constructor; eexists; reflexivity).
  split; [exact H|]. split.
  - rewrite (can_request_more_spec 2 1000 400 module_one H).
    vm_compute. reflexivity.
  - rewrite (can_request_more_spec 1 1000 400 module_one H).
    vm_compute. reflexivity.
Defined.

Lemma run_once_holds_limit_witness :
  exists self' d',
    DownloadModule_run_once 2 1000 400 "t1" (WsReturns "g-new")
      run_with_services module_one store_ready_only
    = (Ok (Some self'), d')
    /\ length (restores self') <= 2
    /\ map guid (restores self')
       = [Some "9818e194a5db4f4d90aa706826d69907"; Some "g-new"].
Proof.
  assert (Hg : match fst (DownloadModule_run_once 2 1000 400 "t1"
                            (WsReturns "g-new") run_with_services module_one
                            store_ready_only) with
               | Ok (Some s) => map guid (restores s)
               | _ => []
               end
               = [Some "9818e194a5db4f4d90aa706826d69907"; Some "g-new"])
    by (vm_compute; reflexivity).
  revert Hg.
  destruct (DownloadModule_run_once 2 1000 400 "t1" (WsReturns "g-new")
              run_with_services module_one store_ready_only)
    as [[[self'|]|e] d'] eqn:E;
    cbn [fst]; intros Hg; [|discriminate Hg..].
  exists self', d'. split; [reflexivity|]. split; [|exact Hg].
  exact (run_once_holds_limit 2 1000 400 "t1" (WsReturns "g-new")
           run_with_services module_one self' store_ready_only d' E).
Defined.

Lemma run_ends_downloaded_or_failed_witness :
  exists self',
    run no_progress_text 1 login_rejected transfer_300 thread_c = Some self'
    /\ th_status self' = "downloaded"
    /\ th_total_size_got self' = 0 + list_sum [100; 100; 100].
Proof.
  assert (Hok : is_Some (run no_progress_text 1 login_rejected transfer_300
                           thread_c))
    by (eexists; vm_compute; reflexivity).
  destruct Hok as [self' E]. exists self'.
  destruct (run_ends_downloaded_or_failed no_progress_text 1 login_rejected
              transfer_300 thread_c self' E) as (_ & [_ Hiff] & Hgot).
  assert (Hd : th_status self' = "downloaded").
  { apply Hiff. repeat split; eauto. }
  split; [exact E|]. split; [exact Hd|]. exact (Hgot Hd).
Defined.

End DownloaderExtra.
